(** * Bate-papo UOL API: the three iterations of the chat-room server

    The repository holds three iterations of one Express server over a
    MongoDB store:
    - [V1]: [src/app.js], first file (validation with joi);
    - [V2]: [src/app.js], second file (joi, markup stripping, owner-only
      edit and delete of messages);
    - [V3]: the file without joi (hand-written checks).

    The handlers are embedded as programs of a small state-and-exception
    monad over the store.  A request reaches a handler as JavaScript
    values; the store holds BSON documents; a query is a value of the
    query language and is evaluated by [matches].

    Scope of the model.  A JSON value is a scalar ([value]); the numbers
    of a document are the integral ones ([Z]), which covers [Date.now()];
    the result of [Number(req.query.limit)] is [NaN], an integer or a
    finite number that is no integer ([number]).  Strings are sequences
    of code units below 256.  A store operation that fails throws before
    it changes the store.

    The first two iterations accept strings only, as names, senders and
    recipients.  The third iteration asks of the name of a join only that
    it be truthy, so that it also registers a number, an array or an
    object.  Arrays and objects have no term in [value]: on a store that
    holds one as a name, MongoDB matches the array by its elements and
    reads an object in a filter as query operators, and a lookup by name
    is no longer the equality of [eq_match].  The theorems on the third
    iteration are therefore of two kinds: those that hold of the stores
    it reaches with such names as well, and those that rest on the
    lookup by name, which are stated of a directory whose names are
    strings ([strings]), as every directory of the first two iterations
    is. *)

From Stdlib Require Import List String Ascii ZArith Bool Arith Lia.
Import ListNotations.
Local Open Scope string_scope.
Local Open Scope list_scope.

Set Warnings "-register-all".

(** ** Values *)

(** The scalars of a request and of a document. *)
Inductive value :=
| VUndefined
| VNull
| VBool (b : bool)
| VNum (z : Z)
| VStr (s : string)
| VId (n : nat).

Definition value_eqb (a b : value) : bool :=
  match a, b with
  | VUndefined, VUndefined => true
  | VNull, VNull => true
  | VBool x, VBool y => Bool.eqb x y
  | VNum x, VNum y => (x =? y)%Z
  | VStr x, VStr y => (x =? y)%string
  | VId x, VId y => (x =? y)%nat
  | _, _ => false
  end.

(** [!v] is [negb (truthy v)]. *)
Definition truthy (v : value) : bool :=
  match v with
  | VUndefined | VNull => false
  | VBool b => b
  | VNum z => negb (z =? 0)%Z
  | VStr s => negb (s =? "")
  | VId _ => true
  end.

(** [typeof v === "string"]. *)
Definition is_string (v : value) : bool :=
  match v with VStr _ => true | _ => false end.

(** The driver writes [undefined] as BSON null, in documents and in
    queries alike. *)
Definition bson (v : value) : value :=
  match v with VUndefined => VNull | _ => v end.

(** The result of [Number(x)]: [NaN], an integer, or a finite number that
    is no integer.  [Frac f] is a number strictly between [f] and
    [f + 1]: 0.5 is [Frac 0], 2.5 is [Frac 2] and -0.5 is [Frac (-1)]. *)
Inductive number := NaN | Int (z : Z) | Frac (f : Z).

Definition isNaN (n : number) : bool :=
  match n with NaN => true | Int _ | Frac _ => false end.

(** [n <= 0]; every comparison with [NaN] is false, and a number between
    [f] and [f + 1] is at most 0 when [f] is below 0. *)
Definition le0 (n : number) : bool :=
  match n with
  | NaN => false
  | Int z => (z <=? 0)%Z
  | Frac f => (f <? 0)%Z
  end.

(** The integral part of a number between [f] and [f + 1], towards
    zero. *)
Definition truncate (f : Z) : Z := if (f <? 0)%Z then (f + 1)%Z else f.

(** ** Documents and collections *)

Record participant := { name : value; lastStatus : value }.

Record message :=
  { from : value; to : value; text : value; type : value; time : value }.

Record doc (A : Type) := { _id : nat; fields : A }.
Arguments _id {A} d.
Arguments fields {A} d.

Class Document (A : Type) :=
  { field : A -> string -> option value;
    serialize : A -> A }.

#[export] Instance participant_Document : Document participant :=
  { field p k :=
      if k =? "name" then Some (name p)
      else if k =? "lastStatus" then Some (lastStatus p)
      else None;
    serialize p :=
      {| name := bson (name p); lastStatus := bson (lastStatus p) |} }.

#[export] Instance message_Document : Document message :=
  { field m k :=
      if k =? "from" then Some (from m)
      else if k =? "to" then Some (to m)
      else if k =? "text" then Some (text m)
      else if k =? "type" then Some (type m)
      else if k =? "time" then Some (time m)
      else None;
    serialize m :=
      {| from := bson (from m); to := bson (to m); text := bson (text m);
         type := bson (type m); time := bson (time m) |} }.

Definition lookup {A} `{Document A} (d : doc A) (k : string) : option value :=
  if k =? "_id" then Some (VId (_id d)) else field (fields d) k.

(** ** Queries *)

Inductive cond :=
| EQ (v : value)          (* { f: v } *)
| NE (v : value)          (* { f: { $ne: v } } *)
| IN (vs : list value)    (* { f: { $in: vs } } *)
| LT (v : value).         (* { f: { $lt: v } } *)

(** A query document with several fields is the [AND] of its fields;
    [AND []] is the empty query. *)
Inductive query :=
| Field (k : string) (c : cond)
| AND (qs : list query)
| OR (qs : list query).

(** Equality matches a missing field against null; between scalars it is
    the equality of the values. *)
Definition eq_match (fv : option value) (q : value) : bool :=
  match fv with
  | Some x => value_eqb x (bson q)
  | None => value_eqb VNull (bson q)
  end.

Definition lt_match (fv : option value) (q : value) : bool :=
  match fv, q with
  | Some (VNum x), VNum y => (x <? y)%Z
  | _, _ => false
  end.

Definition holds (c : cond) (fv : option value) : bool :=
  match c with
  | EQ v => eq_match fv v
  | NE v => negb (eq_match fv v)
  | IN vs => existsb (eq_match fv) vs
  | LT v => lt_match fv v
  end.

Fixpoint matches {A} `{Document A} (q : query) (d : doc A) : bool :=
  match q with
  | Field k c => holds c (lookup d k)
  | AND qs => forallb (fun q' => matches q' d) qs
  | OR qs => existsb (fun q' => matches q' d) qs
  end.

(** ** The store *)

Record db :=
  { participants : list (doc participant);
    messages : list (doc message);
    next_id : nat }.

Record collection (A : Type) :=
  { docs : db -> list (doc A);
    put : list (doc A) -> db -> db }.
Arguments docs {A} c d.
Arguments put {A} c l d.

(** [db.collection("participants")] *)
Definition c_participants : collection participant :=
  {| docs := participants;
     put l d := {| participants := l; messages := messages d; next_id := next_id d |} |}.

(** [db.collection("messages")] *)
Definition c_messages : collection message :=
  {| docs := messages;
     put l d := {| participants := participants d; messages := l; next_id := next_id d |} |}.

Definition fresh (d : db) : db :=
  {| participants := participants d; messages := messages d; next_id := S (next_id d) |}.

Fixpoint remove_first {A} (p : A -> bool) (l : list A) : list A :=
  match l with
  | [] => []
  | x :: xs => if p x then xs else x :: remove_first p xs
  end.

Fixpoint update_first {A} (p : A -> bool) (u : A -> A) (l : list A) : list A :=
  match l with
  | [] => []
  | x :: xs => if p x then u x :: xs else x :: update_first p u xs
  end.

(** The first [z] documents; 0 lifts the limit and a negative [z] counts
    as its absolute value. *)
Definition first_documents {A} (z : Z) (l : list A) : list A :=
  if (z =? 0)%Z then l else firstn (Z.abs_nat z) l.

(** [cursor.limit(n)].  The driver sends [n] as it is and the server
    keeps the integral part of it.  The handlers call it with every
    number above zero that the query string can hold, an integer or not:
    a limit between 0 and 1 has the integral part 0, which lifts the
    limit. *)
Definition limit {A} (n : number) (l : list A) : list A :=
  match n with
  | NaN => l
  | Int z => first_documents z l
  | Frac f => first_documents (truncate f) l
  end.

(** ** The monad of handlers *)

Inductive error := Error (msg : string).

Definition error_message (e : error) : string :=
  match e with Error msg => msg end.

(** [faults] is the fate of the store operations to come: the head
    decides the next one, [Some e] makes it throw [e]; past the end no
    operation fails.  [ops] counts the operations issued; [console] is
    what [console.error] has printed. *)
Record world :=
  { store : db;
    faults : list (option error);
    ops : nat;
    console : list error }.

Inductive outcome (A : Type) :=
| Done (a : A)
| Throw (e : error).
Arguments Done {A} a.
Arguments Throw {A} e.

Definition M (A : Type) := world -> outcome A * world.

Definition ret {A} (a : A) : M A := fun w => (Done a, w).

Definition bind {A B} (m : M A) (k : A -> M B) : M B :=
  fun w =>
    match m w with
    | (Done a, w') => k a w'
    | (Throw e, w') => (Throw e, w')
    end.

Definition try_catch {A} (m : M A) (h : error -> M A) : M A :=
  fun w =>
    match m w with
    | (Done a, w') => (Done a, w')
    | (Throw e, w') => h e w'
    end.

Notation "x <- m ;; k" := (bind m (fun x => k))
  (at level 61, m at next level, right associativity).
Notation "m ;; k" := (bind m (fun _ => k))
  (at level 61, right associativity).

Definition console_error (e : error) : M unit :=
  fun w =>
    (Done tt,
     {| store := store w; faults := faults w; ops := ops w;
        console := console w ++ [e] |}).

(** One round trip to the store. *)
Definition db_call {A} (f : db -> A * db) : M A :=
  fun w =>
    match faults w with
    | Some e :: rest =>
        (Throw e,
         {| store := store w; faults := rest; ops := S (ops w);
            console := console w |})
    | _ =>
        let (a, d) := f (store w) in
        (Done a,
         {| store := d; faults := tl (faults w); ops := S (ops w);
            console := console w |})
    end.

Section Operations.

Context {A : Type} `{Document A}.

Definition findOne (c : collection A) (q : query) : M (option (doc A)) :=
  db_call (fun d => (List.find (matches q) (docs c d), d)).

(** [find(q).toArray()] *)
Definition find_toArray (c : collection A) (q : query) : M (list (doc A)) :=
  db_call (fun d => (List.filter (matches q) (docs c d), d)).

(** [find(q).limit(n).toArray()] *)
Definition find_limit_toArray (c : collection A) (q : query) (n : number)
  : M (list (doc A)) :=
  db_call (fun d => (limit n (List.filter (matches q) (docs c d)), d)).

(** The driver gives the document a new [_id]. *)
Definition insertOne (c : collection A) (a : A) : M unit :=
  db_call (fun d =>
    (tt, fresh (put c (docs c d ++ [{| _id := next_id d; fields := serialize a |}]) d))).

(** The first document that matches is deleted. *)
Definition deleteOne (c : collection A) (q : query) : M unit :=
  db_call (fun d => (tt, put c (remove_first (matches q) (docs c d)) d)).

(** [updateOne(q, { $set: ... })], the [$set] given as the function [u]
    on the fields; the first document that matches is updated. *)
Definition updateOne (c : collection A) (q : query) (u : A -> A) : M unit :=
  db_call (fun d =>
    (tt, put c (update_first (matches q)
                  (fun x => {| _id := _id x; fields := u (fields x) |})
                  (docs c d)) d)).

End Operations.

Fixpoint for_of {A} (l : list A) (body : A -> M unit) : M unit :=
  match l with
  | [] => ret tt
  | x :: xs => body x ;; for_of xs body
  end.

(** ** Responses *)

(** The codes of joi's error details. *)
Inductive code :=
| any_required
| string_base
| string_empty
| any_only
| object_unknown.

Record detail := { path : string; reason : code }.

Inductive body :=
| StatusText                                   (* res.sendStatus *)
| Text (s : string)
| Details (ds : list detail)
| Participants (ps : list (doc participant))
| Messages (ms : list (doc message)).

Record response := { status : nat; sent : body }.

Definition sendStatus (n : nat) : response := {| status := n; sent := StatusText |}.
Definition send (n : nat) (b : body) : response := {| status := n; sent := b |}.

(** ** joi *)

(** [joi.string().required()], with [.trim()] when [trimmed] and
    [.allow(...).only()] when [only] is [Some]. *)
Record string_rule := { trimmed : bool; only : option (list string) }.

Definition schema := list (string * string_rule).

(** A JavaScript object, its keys in insertion order. *)
Definition object := list (string * value).

Fixpoint obj_get (o : object) (k : string) : value :=
  match o with
  | [] => VUndefined
  | (k', v) :: o' => if k' =? k then v else obj_get o' k
  end.

(** [{ ...o, k: v }] *)
Fixpoint obj_set (o : object) (k : string) (v : value) : object :=
  match o with
  | [] => [(k, v)]
  | (k', v') :: o' => if k' =? k then (k, v) :: o' else (k', v') :: obj_set o' k v
  end.

Definition is_space (c : ascii) : bool :=
  let n := nat_of_ascii c in
  ((9 <=? n) && (n <=? 13) || (n =? 32) || (n =? 160))%nat.

Fixpoint trimStart (s : string) : string :=
  match s with
  | EmptyString => EmptyString
  | String c s' => if is_space c then trimStart s' else s
  end.

Fixpoint trimEnd (s : string) : string :=
  match s with
  | EmptyString => EmptyString
  | String c s' =>
      let r := trimEnd s' in
      if is_space c && (r =? "") then EmptyString else String c r
  end.

Definition trim (s : string) : string := trimEnd (trimStart s).

(** The checks of one key, in joi's order: presence, conversion, allowed
    values, base type. *)
Definition validate_string (r : string_rule) (v : value) : list code :=
  match v with
  | VUndefined => [any_required]
  | VStr s =>
      let s' := if trimmed r then trim s else s in
      match only r with
      | Some vs =>
          if existsb (String.eqb s') vs then []
          else any_only :: (if s' =? "" then [string_empty] else [])
      | None => if s' =? "" then [string_empty] else []
      end
  | _ =>
      match only r with
      | Some _ => [any_only; string_base]
      | None => [string_base]
      end
  end.

Definition known (s : schema) (k : string) : bool :=
  existsb (fun kr => fst kr =? k) s.

(** [schema.validate(o, { abortEarly: false })]: the details of every key
    of the schema, then one [object_unknown] for each key of [o] that the
    schema does not name.  [validation.error] is set when the list is not
    empty. *)
Definition validate (s : schema) (o : object) : list detail :=
  flat_map (fun kr =>
              map (fun c => {| path := fst kr; reason := c |})
                  (validate_string (snd kr) (obj_get o (fst kr)))) s
  ++ map (fun kv => {| path := fst kv; reason := object_unknown |})
         (List.filter (fun kv => negb (known s (fst kv))) o).

Definition has_error (ds : list detail) : bool :=
  match ds with [] => false | _ :: _ => true end.

Definition required : string_rule := {| trimmed := false; only := None |}.
Definition required_trim : string_rule := {| trimmed := true; only := None |}.
Definition required_only (vs : list string) : string_rule :=
  {| trimmed := false; only := Some vs |}.

Definition Todos : value := VStr "Todos".

(** ** Requests *)

(** What a client, or the interval timer, can ask of the first and third
    iterations: the fields of the JSON body, the [user] header and the
    converted [limit] of the query string.  A body field that is absent
    is [VUndefined]; a body field that is an array or an object has no
    term here. *)
Inductive request :=
| PostParticipants (name : value)
| GetParticipants
| PostMessages (user : option string) (to text type : value)
| GetMessages (user : option string) (limit : number)
| PostStatus (user : option string)
| Tick.

(** [req.headers.user]: a string, or [undefined] when the header is not
    sent. *)
Definition header (h : option string) : value :=
  match h with Some s => VStr s | None => VUndefined end.

Definition empty_db : db := {| participants := []; messages := []; next_id := 0 |}.

(** A world that starts at store [d] with the fates [fs]. *)
Definition boot (d : db) (fs : list (option error)) : world :=
  {| store := d; faults := fs; ops := 0; console := [] |}.

(** The stores a server can be in: it starts empty and serves requests
    one after the other, at any time and under any fate of the store
    operations. *)
Inductive reachable (serve : request -> Z -> string -> M unit) : db -> Prop :=
| reachable_empty : reachable serve empty_db
| reachable_serve d req now currentTime fs :
    reachable serve d ->
    reachable serve (store (snd (serve req now currentTime (boot d fs)))).

(** ** First iteration: [src/app.js], first file *)

Module V1.

Definition nameSchema : schema := [("name", required)].

Definition messageSchema : schema :=
  [("user", required); ("to", required); ("text", required);
   ("type", required_only ["message"; "private_message"])].

Definition userSchema : schema := [("user", required)].

(** [app.post("/participants")] *)
Definition post_participants (name : value) (now : Z) (currentTime : string)
  : M response :=
  let validation := validate nameSchema [("name", name)] in
  if has_error validation then ret (send 422 (Details validation))
  else
    try_catch
      (existingParticipant <- findOne c_participants (Field "name" (EQ name)) ;;
       match existingParticipant with
       | Some _ => ret (sendStatus 409)
       | None =>
           insertOne c_participants {| name := name; lastStatus := VNum now |} ;;
           insertOne c_messages
             {| from := name; to := VStr "Todos"; text := VStr "entra na sala...";
                type := VStr "status"; time := VStr currentTime |} ;;
           ret (sendStatus 201)
       end)
      (fun err => ret (send 500 (Text (error_message err)))).

(** [app.get("/participants")] *)
Definition get_participants : M response :=
  try_catch
    (data <- find_toArray c_participants (AND []) ;;
     ret (send 200 (Participants data)))
    (fun err => ret (send 500 (Text (error_message err)))).

(** [app.post("/messages")] *)
Definition post_messages (user to text type : value) (currentTime : string)
  : M response :=
  let validation :=
    validate messageSchema
      [("user", user); ("to", to); ("text", text); ("type", type)] in
  if has_error validation then ret (send 422 (Details validation))
  else
    try_catch
      (existingParticipant <- findOne c_participants (Field "name" (EQ user)) ;;
       match existingParticipant with
       | None => ret (sendStatus 422)
       | Some _ =>
           insertOne c_messages
             {| from := user; to := to; text := text; type := type;
                time := VStr currentTime |} ;;
           ret (sendStatus 201)
       end)
      (fun err => ret (send 500 (Text (error_message err)))).

(** The query of [app.get("/messages")]. *)
Definition visible (user : value) : query :=
  OR [ Field "type" (IN [VStr "status"; VStr "message"]);
       AND [ Field "type" (EQ (VStr "private_message"));
             OR [ AND [Field "from" (EQ user); Field "to" (NE user)];
                  AND [Field "from" (NE user); Field "to" (EQ user)] ] ];
       Field "from" (EQ (VStr "Todos")) ].

(** [app.get("/messages")] *)
Definition get_messages (user : value) (limit : number) : M response :=
  if isNaN limit || le0 limit then ret (send 422 (Text "Invalid limit value"))
  else
    try_catch
      (validMessages <- find_limit_toArray c_messages (visible user) limit ;;
       ret (send 200 (Messages validMessages)))
      (fun err => ret (send 500 (Text (error_message err)))).

(** [app.post("/status")] *)
Definition post_status (user : value) (now : Z) : M response :=
  let validation := validate userSchema [("user", user)] in
  if has_error validation then ret (send 404 (Details validation))
  else
    try_catch
      (existingParticipant <- findOne c_participants (Field "name" (EQ user)) ;;
       match existingParticipant with
       | None => ret (sendStatus 404)
       | Some _ =>
           updateOne c_participants (Field "name" (EQ user))
             (fun p => {| name := name p; lastStatus := VNum now |}) ;;
           ret (sendStatus 200)
       end)
      (fun err => console_error err ;; ret (sendStatus 500)).

(** The callback of [setInterval(..., 15000)]. *)
Definition sweep (now : Z) (currentTime : string) : M unit :=
  try_catch
    (inactiveParticipants <-
       find_toArray c_participants (Field "lastStatus" (LT (VNum (now - 10000)))) ;;
     for_of inactiveParticipants (fun participant =>
       deleteOne c_participants (Field "_id" (EQ (VId (_id participant)))) ;;
       insertOne c_messages
         {| from := name (fields participant); to := VStr "Todos";
            text := VStr "sai da sala..."; type := VStr "status";
            time := VStr currentTime |}))
    (fun err => console_error err).

Definition serve (req : request) (now : Z) (currentTime : string) : M unit :=
  match req with
  | PostParticipants name => post_participants name now currentTime ;; ret tt
  | GetParticipants => get_participants ;; ret tt
  | PostMessages user to text type =>
      post_messages (header user) to text type currentTime ;; ret tt
  | GetMessages user limit => get_messages (header user) limit ;; ret tt
  | PostStatus user => post_status (header user) now ;; ret tt
  | Tick => sweep now currentTime
  end.

End V1.

(** ** Second iteration: [src/app.js], second file

    The handlers the claims are about: the message query, and the
    owner-only delete and edit. *)

Module V2.

Definition messageSchema : schema :=
  [("user", required_trim); ("to", required_trim); ("text", required_trim);
   ("type", required_only ["message"; "private_message"])].

Definition visible (user : value) : query :=
  OR [ Field "type" (IN [VStr "status"; VStr "message"]);
       AND [ Field "type" (EQ (VStr "private_message"));
             OR [ AND [Field "from" (EQ user); Field "to" (NE user)];
                  AND [Field "from" (NE user); Field "to" (EQ user)] ] ];
       Field "from" (EQ (VStr "Todos")) ].

(** [app.get("/messages")] *)
Definition get_messages (user : value) (limit : number) : M response :=
  if isNaN limit || le0 limit then ret (send 422 (Text "Invalid limit value"))
  else
    try_catch
      (validMessages <- find_limit_toArray c_messages (visible user) limit ;;
       ret (send 200 (Messages validMessages)))
      (fun err => ret (send 500 (Text (error_message err)))).

(** The route parameter [:id] as [new ObjectId(id)] sees it: an
    identifier, or a text that makes the constructor throw. *)
Inductive id_param :=
| WellFormed (n : nat)
| Malformed (e : error).

Definition new_ObjectId (id : id_param) : M value :=
  fun w =>
    match id with
    | WellFormed n => (Done (VId n), w)
    | Malformed e => (Throw e, w)
    end.

(** [{ $set: body }] on a message; a key that is no field of a message
    is left out. *)
Definition set_field (m : message) (kv : string * value) : message :=
  let (k, v) := (fst kv, bson (snd kv)) in
  if k =? "from" then {| from := v; to := to m; text := text m; type := type m; time := time m |}
  else if k =? "to" then {| from := from m; to := v; text := text m; type := type m; time := time m |}
  else if k =? "text" then {| from := from m; to := to m; text := v; type := type m; time := time m |}
  else if k =? "type" then {| from := from m; to := to m; text := text m; type := v; time := time m |}
  else if k =? "time" then {| from := from m; to := to m; text := text m; type := type m; time := v |}
  else m.

Definition set_fields (body : object) (m : message) : message :=
  fold_left set_field body m.

(** [app.delete("/messages/:id")] *)
Definition delete_messages (user : value) (id : id_param) : M response :=
  try_catch
    (oid <- new_ObjectId id ;;
     message <- findOne c_messages (Field "_id" (EQ oid)) ;;
     match message with
     | None => ret (sendStatus 404)
     | Some m =>
         if negb (value_eqb (from (fields m)) user) then ret (sendStatus 401)
         else
           oid' <- new_ObjectId id ;;
           deleteOne c_messages (Field "_id" (EQ oid')) ;;
           ret (sendStatus 204)
     end)
    (fun err => ret (send 500 (Text (error_message err)))).

(** [app.put("/messages/:id")] *)
Definition put_messages (user : value) (id : id_param) (body : object)
  : M response :=
  let validation := validate messageSchema (obj_set body "from" user) in
  if has_error validation then ret (send 422 (Details validation))
  else
    try_catch
      (participant <- findOne c_participants (Field "name" (EQ user)) ;;
       match participant with
       | None => ret (sendStatus 422)
       | Some _ =>
           oid <- new_ObjectId id ;;
           message <- findOne c_messages (Field "_id" (EQ oid)) ;;
           match message with
           | None => ret (sendStatus 404)
           | Some m =>
               if negb (value_eqb (from (fields m)) user) then ret (sendStatus 401)
               else
                 oid' <- new_ObjectId id ;;
                 updateOne c_messages (Field "_id" (EQ oid')) (set_fields body) ;;
                 ret (sendStatus 200)
           end
       end)
      (fun err => ret (send 500 (Text (error_message err)))).

(** *** The rest of the second iteration *)

Definition userSchema : schema := [("user", required_trim)].

Definition nameSchema : schema := [("name", required_trim)].

Section Markup.

(** [stripHtml(x).result], of the library string-strip-html: the text
    without its markup, or an exception. *)
Variable stripHtml : value -> outcome string.

Definition clean (x : value) : M value :=
  fun w =>
    match stripHtml x with
    | Done s => (Done (VStr s), w)
    | Throw e => (Throw e, w)
    end.

(** [app.post("/participants")]; the name is cleaned before the
    validation, outside the [try]. *)
Definition post_participants (name : value) (now : Z) (currentTime : string)
  : M response :=
  cleanName <- clean name ;;
  let validation := validate nameSchema [("name", name)] in
  if has_error validation then ret (send 422 (Details validation))
  else
    try_catch
      (existingParticipant <- findOne c_participants (Field "name" (EQ cleanName)) ;;
       match existingParticipant with
       | Some _ => ret (sendStatus 409)
       | None =>
           insertOne c_participants {| name := cleanName; lastStatus := VNum now |} ;;
           insertOne c_messages
             {| from := cleanName; to := VStr "Todos";
                text := VStr "entra na sala..."; type := VStr "status";
                time := VStr currentTime |} ;;
           ret (sendStatus 201)
       end)
      (fun err => ret (send 500 (Text (error_message err)))).

(** [app.post("/messages")] *)
Definition post_messages (user to text type : value) (currentTime : string)
  : M response :=
  cleanUser <- clean user ;;
  cleanTo <- clean to ;;
  cleanText <- clean text ;;
  cleanType <- clean type ;;
  let cleanMessage :=
    {| from := cleanUser; to := cleanTo; text := cleanText; type := cleanType;
       time := VStr currentTime |} in
  let validation :=
    validate messageSchema
      [("user", user); ("to", to); ("text", text); ("type", type)] in
  if has_error validation then ret (send 422 (Details validation))
  else
    try_catch
      (existingParticipant <- findOne c_participants (Field "name" (EQ cleanUser)) ;;
       match existingParticipant with
       | None => ret (sendStatus 422)
       | Some _ =>
           insertOne c_messages cleanMessage ;;
           ret (sendStatus 201)
       end)
      (fun err => ret (send 500 (Text (error_message err)))).

End Markup.

(** [app.get("/participants")] *)
Definition get_participants : M response :=
  try_catch
    (data <- find_toArray c_participants (AND []) ;;
     ret (send 200 (Participants data)))
    (fun err => ret (send 500 (Text (error_message err)))).

(** [app.post("/status")]; the name is looked up as the header has it. *)
Definition post_status (user : value) (now : Z) : M response :=
  let validation := validate userSchema [("user", user)] in
  if has_error validation then ret (send 404 (Details validation))
  else
    try_catch
      (existingParticipant <- findOne c_participants (Field "name" (EQ user)) ;;
       match existingParticipant with
       | None => ret (sendStatus 404)
       | Some _ =>
           updateOne c_participants (Field "name" (EQ user))
             (fun p => {| name := name p; lastStatus := VNum now |}) ;;
           ret (sendStatus 200)
       end)
      (fun err => console_error err ;; ret (sendStatus 500)).

(** The callback of [setInterval(..., 15000)]. *)
Definition sweep (now : Z) (currentTime : string) : M unit :=
  try_catch
    (inactiveParticipants <-
       find_toArray c_participants (Field "lastStatus" (LT (VNum (now - 10000)))) ;;
     for_of inactiveParticipants (fun participant =>
       deleteOne c_participants (Field "_id" (EQ (VId (_id participant)))) ;;
       insertOne c_messages
         {| from := name (fields participant); to := VStr "Todos";
            text := VStr "sai da sala..."; type := VStr "status";
            time := VStr currentTime |}))
    (fun err => console_error err).


End V2.

(** ** Third iteration: the file without joi *)

Module V3.

(** [app.post("/participants")] *)
Definition post_participants (name : value) (now : Z) (currentTime : string)
  : M response :=
  try_catch
    (if negb (truthy name) then ret (sendStatus 422)
     else
       existingParticipant <- findOne c_participants (Field "name" (EQ name)) ;;
       match existingParticipant with
       | Some _ => ret (sendStatus 409)
       | None =>
           insertOne c_participants {| name := name; lastStatus := VNum now |} ;;
           insertOne c_messages
             {| from := name; to := VStr "Todos"; text := VStr "entra na sala...";
                type := VStr "status"; time := VStr currentTime |} ;;
           ret (sendStatus 201)
       end)
    (fun err => ret (send 500 (Text (error_message err)))).

(** [app.get("/participants")] *)
Definition get_participants : M response :=
  try_catch
    (data <- find_toArray c_participants (AND []) ;;
     ret (send 200 (Participants data)))
    (fun err => ret (send 500 (Text (error_message err)))).

(** [app.post("/messages")] *)
Definition post_messages (user to text type : value) (currentTime : string)
  : M response :=
  try_catch
    (if negb (is_string to) || value_eqb to (VStr "")
        || negb (is_string text) || value_eqb text (VStr "")
     then ret (sendStatus 422)
     else if negb (value_eqb type (VStr "message"))
             && negb (value_eqb type (VStr "private_message"))
     then ret (sendStatus 422)
     else
       existingParticipant <- findOne c_participants (Field "name" (EQ user)) ;;
       match existingParticipant with
       | None => ret (sendStatus 422)
       | Some _ =>
           insertOne c_messages
             {| from := user; to := to; text := text; type := type;
                time := VStr currentTime |} ;;
           ret (sendStatus 201)
       end)
    (fun err => ret (send 500 (Text (error_message err)))).

(** The query of [app.get("/messages")]. *)
Definition visible (user : value) : query :=
  OR [ Field "type" (IN [VStr "private_message"; VStr "status"; VStr "message"]);
       Field "from" (IN [VStr "Todos"; user]);
       Field "to" (EQ user) ].

(** [app.get("/messages")] *)
Definition get_messages (user : value) (limit : number) : M response :=
  try_catch
    (if isNaN limit || le0 limit then ret (send 422 (Text "Invalid limit value"))
     else
       validMessages <- find_limit_toArray c_messages (visible user) limit ;;
       ret (send 200 (Messages validMessages)))
    (fun err => ret (send 500 (Text (error_message err)))).

(** [app.post("/status")] *)
Definition post_status (user : value) (now : Z) : M response :=
  try_catch
    (if negb (truthy user) then ret (sendStatus 404)
     else
       existingParticipant <- findOne c_participants (Field "name" (EQ user)) ;;
       match existingParticipant with
       | None => ret (sendStatus 404)
       | Some _ =>
           updateOne c_participants (Field "name" (EQ user))
             (fun p => {| name := name p; lastStatus := VNum now |}) ;;
           ret (sendStatus 200)
       end)
    (fun err => console_error err ;; ret (sendStatus 500)).

(** The callback of [setInterval(..., 15000)]. *)
Definition sweep (now : Z) (currentTime : string) : M unit :=
  try_catch
    (inactiveParticipants <-
       find_toArray c_participants (Field "lastStatus" (LT (VNum (now - 10000)))) ;;
     for_of inactiveParticipants (fun participant =>
       deleteOne c_participants (Field "_id" (EQ (VId (_id participant)))) ;;
       insertOne c_messages
         {| from := name (fields participant); to := VStr "Todos";
            text := VStr "sai da sala..."; type := VStr "status";
            time := VStr currentTime |}))
    (fun err => console_error err).

Definition serve (req : request) (now : Z) (currentTime : string) : M unit :=
  match req with
  | PostParticipants name => post_participants name now currentTime ;; ret tt
  | GetParticipants => get_participants ;; ret tt
  | PostMessages user to text type =>
      post_messages (header user) to text type currentTime ;; ret tt
  | GetMessages user limit => get_messages (header user) limit ;; ret tt
  | PostStatus user => post_status (header user) now ;; ret tt
  | Tick => sweep now currentTime
  end.

End V3.

(** ** The vocabulary of the specification *)

(** [lastSeen < now - T], with the threshold of the sweeper: 10000 ms. *)
Definition stale (now : Z) (p : doc participant) : bool :=
  match lastStatus (fields p) with
  | VNum t => (t <? now - 10000)%Z
  | _ => false
  end.

(** The notice of the sweeper for [p]. *)
Definition left_the_room (currentTime : string) (p : doc participant) : message :=
  {| from := name (fields p); to := VStr "Todos"; text := VStr "sai da sala...";
     type := VStr "status"; time := VStr currentTime |}.

(** The notice of a join. *)
Definition entered_the_room (name : value) (currentTime : string) : message :=
  {| from := name; to := VStr "Todos"; text := VStr "entra na sala...";
     type := VStr "status"; time := VStr currentTime |}.

Definition registered (n : value) (d : db) : Prop :=
  exists p, In p (participants d) /\ name (fields p) = n.

(** The names of the directory are strings, as a join of the first two
    iterations leaves them. *)
Definition strings (d : db) : Prop :=
  forall p, In p (participants d) -> is_string (name (fields p)) = true.

(** [n] messages are at most [limit]; when [limit] lies between [f] and
    [f + 1], that is at most [f]. *)
Definition at_most (n : nat) (limit : number) : Prop :=
  match limit with
  | Int z => (Z.of_nat n <= z)%Z
  | Frac f => (Z.of_nat n <= f)%Z
  | NaN => False
  end.

Definition direct (m : doc message) : Prop :=
  type (fields m) = VStr "private_message".

(** The store after the requests of [script], served one after the other
    with no failure of the store. *)
Fixpoint play (serve : request -> Z -> string -> M unit)
  (script : list (request * Z * string)) (d : db) : db :=
  match script with
  | [] => d
  | (req, now, currentTime) :: rest =>
      play serve rest (store (snd (serve req now currentTime (boot d []))))
  end.

(** ** Concrete runs *)

Definition join_notice (id : nat) (n currentTime : string) : doc message :=
  {| _id := id; fields := entered_the_room (VStr n) currentTime |}.

Definition private_message (id : nat) (sender recipient body currentTime : string)
  : doc message :=
  {| _id := id;
     fields := {| from := VStr sender; to := VStr recipient; text := VStr body;
                  type := VStr "private_message"; time := VStr currentTime |} |}.

(** A participant joins under the name Todos and writes to bob in
    private. *)
Definition Todos_writes_to_bob : list (request * Z * string) :=
  [ (PostParticipants (VStr "Todos"), 1000%Z, "10:00:00");
    (PostMessages (Some "Todos") (VStr "bob") (VStr "oi") (VStr "private_message"),
     2000%Z, "10:00:02") ].

(** The participant Todos writes to itself in private. *)
Definition Todos_writes_to_Todos : list (request * Z * string) :=
  [ (PostParticipants (VStr "Todos"), 1000%Z, "10:00:00");
    (PostMessages (Some "Todos") (VStr "Todos") (VStr "oi") (VStr "private_message"),
     2000%Z, "10:00:02") ].

(** alice and bob join, and alice writes to bob in private. *)
Definition alice_writes_to_bob : list (request * Z * string) :=
  [ (PostParticipants (VStr "alice"), 1000%Z, "10:00:00");
    (PostParticipants (VStr "bob"), 2000%Z, "10:00:01");
    (PostMessages (Some "alice") (VStr "bob") (VStr "oi") (VStr "private_message"),
     3000%Z, "10:00:03") ].

(** alice joins and addresses a private message to Todos. *)
Definition alice_writes_to_Todos : list (request * Z * string) :=
  [ (PostParticipants (VStr "alice"), 1000%Z, "10:00:00");
    (PostMessages (Some "alice") (VStr "Todos") (VStr "oi") (VStr "private_message"),
     2000%Z, "10:00:02") ].

(** A client joins under the number 5. *)
Definition the_number_5_joins : list (request * Z * string) :=
  [ (PostParticipants (VNum 5), 1000%Z, "10:00:00") ].

(** alice and bob join and then stay silent. *)
Definition alice_and_bob_join : list (request * Z * string) :=
  [ (PostParticipants (VStr "alice"), 1000%Z, "10:00:00");
    (PostParticipants (VStr "bob"), 2000%Z, "10:00:01") ].

(** ** Vocabulary of the sweep *)

(** The participants left once each document of [l] has been deleted by
    its [_id], one [deleteOne] after the other. *)
Definition drop (l ps : list (doc participant)) : list (doc participant) :=
  fold_left
    (fun acc p => remove_first (matches (Field "_id" (EQ (VId (_id p))))) acc)
    l ps.

(** The notices appended for [l], numbered from [n]. *)
Fixpoint notices (currentTime : string) (n : nat) (l : list (doc participant))
  : list (doc message) :=
  match l with
  | [] => []
  | p :: l' =>
      {| _id := n; fields := serialize (left_the_room currentTime p) |}
      :: notices currentTime (S n) l'
  end.

(** The next [n] store operations do not fail. *)
Definition quiet (n : nat) (fs : list (option error)) : Prop :=
  Forall (fun f => f = None) (firstn n fs).

(** ** Vocabulary of the invariant of the board *)

Definition nonempty_string (v : value) : Prop :=
  exists s, v = VStr s /\ s <> "".

(** Registered names are truthy. *)
Definition named (ps : list (doc participant)) : Prop :=
  forall p, In p ps -> truthy (name (fields p)) = true.

(** A direct message goes from a non-empty string to a non-empty
    string. *)
Definition addressed (ms : list (doc message)) : Prop :=
  forall m, In m ms -> direct m ->
    nonempty_string (from (fields m)) /\ nonempty_string (to (fields m)).

Definition sound (d : db) : Prop :=
  named (participants d) /\ addressed (messages d).

(** A direct message goes to a non-empty string. *)
Definition delivered (ms : list (doc message)) : Prop :=
  forall m, In m ms -> direct m -> nonempty_string (to (fields m)).

(** What the claim on direct messages asks of a store. *)
Definition direct_messages_avoid_Todos (d : db) : Prop :=
  forall m, In m (messages d) -> direct m ->
    to (fields m) <> VStr "Todos" /\ from (fields m) <> VStr "Todos".

(** ** Vocabulary of the identifiers *)

(** The participants have distinct identifiers, all of them below [n]. *)
Definition numbered (ps : list (doc participant)) (n : nat) : Prop :=
  NoDup (map _id ps) /\ forall p, In p ps -> _id p < n.

Definition distinct_ids (d : db) : Prop :=
  numbered (participants d) (next_id d).

(** ** Vocabulary of the further properties *)

(** A notice of the server: a join or an eviction. *)
Definition system_notice (m : message) : Prop :=
  type m = VStr "status"
  /\ to m = VStr "Todos"
  /\ (text m = VStr "entra na sala..." \/ text m = VStr "sai da sala...").

(** A message that a participant posted. *)
Definition posted_message (m : message) : Prop :=
  (type m = VStr "message" \/ type m = VStr "private_message")
  /\ nonempty_string (from m)
  /\ nonempty_string (to m)
  /\ nonempty_string (text m).

Definition well_typed (ms : list (doc message)) : Prop :=
  forall m, In m ms -> system_notice (fields m) \/ posted_message (fields m).

(** What the third iteration checks of a message that a participant
    posts: the type, the recipient and the text. *)
Definition checked_message (m : message) : Prop :=
  (type m = VStr "message" \/ type m = VStr "private_message")
  /\ nonempty_string (to m)
  /\ nonempty_string (text m).

Definition typed (ms : list (doc message)) : Prop :=
  forall m, In m ms -> system_notice (fields m) \/ checked_message (fields m).

Definition names (ps : list (doc participant)) : list value :=
  map (fun p => name (fields p)) ps.

(** What the query of the first two iterations shows to [user]. *)
Definition shown (user : value) (m : doc message) : Prop :=
  type (fields m) = VStr "status"
  \/ type (fields m) = VStr "message"
  \/ from (fields m) = VStr "Todos"
  \/ (direct m
      /\ (from (fields m) = bson user /\ to (fields m) <> bson user
          \/ from (fields m) <> bson user /\ to (fields m) = bson user)).

(** The message of a post. *)
Definition post_of (user to text type : value) (currentTime : string) : message :=
  {| from := user; to := to; text := text; type := type; time := VStr currentTime |}.

(** A cleaning function for the concrete runs, in the place of
    [stripHtml]: it throws on what is no string, takes the tags off two
    texts and returns every other text as it is. *)
Definition strip_bold (x : value) : outcome string :=
  match x with
  | VStr s =>
      if s =? "<b>ana</b>" then Done "ana"
      else if s =? "<b></b>" then Done ""
      else Done s
  | _ => Throw (Error "Input must be string")
  end.

(** Registered names are truthy, and the board holds notices of the
    server and posted messages only. *)
Definition board_ok (d : db) : Prop :=
  named (participants d) /\ well_typed (messages d).

(** No two participants share a name, and every name is in [Q]. *)
Definition listed (Q : value -> Prop) (ps : list (doc participant)) : Prop :=
  NoDup (names ps) /\ forall p, In p ps -> Q (name (fields p)).

Definition directory_ok (Q : value -> Prop) (d : db) : Prop :=
  listed Q (participants d).

(** The four changes that the handlers make to a store, as closure
    conditions on a property [P] of stores. *)
Definition adds_participant (P : db -> Prop) : Prop :=
  forall d x, P d ->
    P {| participants := participants d ++ [x]; messages := messages d;
         next_id := S (next_id d) |}.

Definition adds_message (P : db -> Prop) : Prop :=
  forall d m, P d ->
    P {| participants := participants d; messages := messages d ++ [m];
         next_id := S (next_id d) |}.

Definition removes_participant (P : db -> Prop) : Prop :=
  forall d f, P d ->
    P {| participants := remove_first f (participants d); messages := messages d;
         next_id := next_id d |}.

Definition touches_participant (P : db -> Prop) : Prop :=
  forall d f t, P d ->
    P {| participants :=
           update_first f
             (fun x => {| _id := _id x;
                          fields := {| name := name (fields x); lastStatus := t |} |})
             (participants d);
         messages := messages d; next_id := next_id d |}.

(** [d'] has the messages of [d], and then others. *)
Definition board_grows (d d' : db) : Prop :=
  exists added, messages d' = messages d ++ added.

(** Every participant of [d] is in [d'], under its [_id] and its name. *)
Definition all_stay (d d' : db) : Prop :=
  forall p, In p (participants d) ->
    exists p', In p' (participants d')
               /\ _id p' = _id p /\ name (fields p') = name (fields p).

(** Two handlers answer with the same status and leave the same store. *)
Definition same_effect (h1 h2 : M response) (w : world) : Prop :=
  exists r1 r2 w1 w2,
    h1 w = (Done r1, w1) /\ h2 w = (Done r2, w2)
    /\ status r1 = status r2 /\ store w1 = store w2.

(** The handler [h] returns an answer, with one of the [codes]. *)
Definition answers_within (h : M response) (codes : list nat) : Prop :=
  forall w, exists r w', h w = (Done r, w') /\ In (status r) codes.

(** * Properties *)

(** ** Values and queries *)

Lemma value_eqb_eq (a b : value) : value_eqb a b = true <-> a = b.
Proof.
  destruct a, b; simpl; split; intro E; try discriminate; try reflexivity;
    try (inversion E; subst).
  - apply Bool.eqb_prop in E. now subst.
  - apply Bool.eqb_reflx.
  - apply Z.eqb_eq in E. now subst.
  - apply Z.eqb_refl.
  - apply String.eqb_eq in E. now subst.
  - apply String.eqb_refl.
  - apply Nat.eqb_eq in E. now subst.
  - apply Nat.eqb_refl.
Qed.

Lemma value_eqb_refl (a : value) : value_eqb a a = true.
Proof. now apply value_eqb_eq. Qed.

Lemma value_eqb_neq (a b : value) : value_eqb a b = false <-> a <> b.
Proof.
  split.
  - intros E ->. rewrite value_eqb_refl in E. discriminate.
  - intro N. destruct (value_eqb a b) eqn:E; [|reflexivity].
    apply value_eqb_eq in E. contradiction.
Qed.

Lemma bson_truthy (v : value) : truthy v = true -> bson v = v.
Proof. destruct v; simpl; congruence. Qed.

Lemma matches_name (v : value) (p : doc participant) :
  matches (Field "name" (EQ v)) p = value_eqb (name (fields p)) (bson v).
Proof. reflexivity. Qed.

Lemma matches_id {A} `{Document A} (n : nat) (p : doc A) :
  matches (Field "_id" (EQ (VId n))) p = (_id p =? n)%nat.
Proof. reflexivity. Qed.

Lemma matches_stale (now : Z) (p : doc participant) :
  matches (Field "lastStatus" (LT (VNum (now - 10000)))) p = stale now p.
Proof. unfold stale. cbn. destruct (lastStatus (fields p)); reflexivity. Qed.

Lemma find_absent {A} (f : A -> bool) (l : list A) :
  (forall x, In x l -> f x = false) -> List.find f l = None.
Proof.
  induction l as [|x l IH]; intro N; simpl; [reflexivity|].
  rewrite (N x (or_introl eq_refl)). apply IH. intros y Hy. apply N. now right.
Qed.

Lemma find_present {A} (f : A -> bool) (l : list A) (x : A) :
  In x l -> f x = true -> exists y, List.find f l = Some y.
Proof.
  induction l as [|a l IH]; intros I T; [contradiction|].
  simpl. destruct (f a) eqn:E; [now exists a|].
  destruct I as [->|I]; [congruence|]. now apply IH.
Qed.

(** ** Store operations that do not fail *)

Lemma db_call_calm {A} (f : db -> A * db) (w : world) :
  faults w = [] ->
  db_call f w =
    (Done (fst (f (store w))),
     {| store := snd (f (store w)); faults := []; ops := S (ops w);
        console := console w |}).
Proof.
  intro C. unfold db_call. rewrite C. simpl. now destruct (f (store w)).
Qed.

Lemma db_call_fails {A} (f : db -> A * db) (w : world) e rest :
  faults w = Some e :: rest ->
  db_call f w =
    (Throw e,
     {| store := store w; faults := rest; ops := S (ops w); console := console w |}).
Proof. intro C. unfold db_call. now rewrite C. Qed.

Lemma db_call_passes {A} (f : db -> A * db) (w : world) rest :
  faults w = None :: rest ->
  db_call f w =
    (Done (fst (f (store w))),
     {| store := snd (f (store w)); faults := rest; ops := S (ops w);
        console := console w |}).
Proof.
  intro C. unfold db_call. rewrite C. simpl. now destruct (f (store w)).
Qed.

(** Unfolds the monad and evaluates as far as the store is known. *)
Ltac expose :=
  unfold try_catch, bind, ret, findOne, find_toArray, find_limit_toArray,
    insertOne, deleteOne, updateOne, console_error, db_call.

Ltac run := expose; cbn -[matches].

(** ** Join *)

Lemma name_required_ok (n : string) :
  n <> "" -> validate V1.nameSchema [("name", VStr n)] = [].
Proof.
  intro N. apply String.eqb_neq in N.
  unfold validate. cbn. rewrite N. reflexivity.
Qed.

Lemma registered_found (v : value) (d : db) :
  registered (bson v) d ->
  exists p, List.find (matches (Field "name" (EQ v))) (participants d) = Some p.
Proof.
  intros [p [I E]]. apply (find_present _ _ p I).
  rewrite matches_name, E. apply value_eqb_refl.
Qed.

Lemma unregistered_not_found (v : value) (d : db) :
  ~ registered (bson v) d ->
  List.find (matches (Field "name" (EQ v))) (participants d) = None.
Proof.
  intro N. apply find_absent. intros p I. rewrite matches_name.
  apply value_eqb_neq. intro E. apply N. now exists p.
Qed.

Lemma V1_first_join (n : string) (now : Z) (currentTime : string) (w : world) :
  n <> "" -> faults w = [] -> ~ registered (VStr n) (store w) ->
  V1.post_participants (VStr n) now currentTime w =
    (Done (sendStatus 201),
     {| store :=
          {| participants :=
               participants (store w)
               ++ [{| _id := next_id (store w);
                      fields := {| name := VStr n; lastStatus := VNum now |} |}];
             messages :=
               messages (store w)
               ++ [{| _id := S (next_id (store w));
                      fields := entered_the_room (VStr n) currentTime |}];
             next_id := S (S (next_id (store w))) |};
        faults := []; ops := 3 + ops w; console := console w |}).
Proof.
  intros nonempty calm fresh_name.
  unfold V1.post_participants. rewrite (name_required_ok n nonempty).
  destruct w as [d fs k out]. simpl in calm. subst fs.
  run. rewrite (unregistered_not_found (VStr n) d fresh_name). reflexivity.
Qed.

Lemma V1_join_again (n : string) (now : Z) (currentTime : string) (w : world) :
  n <> "" -> faults w = [] -> registered (VStr n) (store w) ->
  V1.post_participants (VStr n) now currentTime w =
    (Done (sendStatus 409),
     {| store := store w; faults := []; ops := S (ops w); console := console w |}).
Proof.
  intros nonempty calm known_name.
  unfold V1.post_participants. rewrite (name_required_ok n nonempty).
  destruct w as [d fs k out]. simpl in calm. subst fs.
  destruct (registered_found (VStr n) _ known_name) as [p F]. cbn [store] in F.
  run. rewrite F. reflexivity.
Qed.

Lemma V3_first_join (n : string) (now : Z) (currentTime : string) (w : world) :
  n <> "" -> faults w = [] -> strings (store w) -> ~ registered (VStr n) (store w) ->
  V3.post_participants (VStr n) now currentTime w =
    (Done (sendStatus 201),
     {| store :=
          {| participants :=
               participants (store w)
               ++ [{| _id := next_id (store w);
                      fields := {| name := VStr n; lastStatus := VNum now |} |}];
             messages :=
               messages (store w)
               ++ [{| _id := S (next_id (store w));
                      fields := entered_the_room (VStr n) currentTime |}];
             next_id := S (S (next_id (store w))) |};
        faults := []; ops := 3 + ops w; console := console w |}).
Proof.
  intros nonempty calm _ fresh_name. apply String.eqb_neq in nonempty.
  unfold V3.post_participants.
  destruct w as [d fs k out]. simpl in calm. subst fs.
  run. rewrite nonempty. cbn -[matches].
  rewrite (unregistered_not_found (VStr n) d fresh_name). reflexivity.
Qed.

Lemma V3_join_again (n : string) (now : Z) (currentTime : string) (w : world) :
  n <> "" -> faults w = [] -> registered (VStr n) (store w) ->
  V3.post_participants (VStr n) now currentTime w =
    (Done (sendStatus 409),
     {| store := store w; faults := []; ops := S (ops w); console := console w |}).
Proof.
  intros nonempty calm known_name. apply String.eqb_neq in nonempty.
  unfold V3.post_participants.
  destruct w as [d fs k out]. simpl in calm. subst fs.
  destruct (registered_found (VStr n) _ known_name) as [p F]. cbn [store] in F.
  run. rewrite nonempty. cbn -[matches]. rewrite F. reflexivity.
Qed.

(** X25.  In the first and third iterations, when no store operation
    fails, a join under a non-empty name that a directory of strings
    does not hold answers 201 and registers the name with [lastStatus]
    set to the current time; a join under a name that is registered
    answers 409 and leaves the store as it was, and that is the case of
    the store right after the first join. *)
Theorem join_twice_conflicts_among_strings
  (post : value -> Z -> string -> M response)
  (n : string) (now : Z) (currentTime : string) (w : world) :
  In post [V1.post_participants; V3.post_participants] ->
  n <> "" ->
  faults w = [] ->
  strings (store w) ->
  ~ registered (VStr n) (store w) ->
  exists w1,
    post (VStr n) now currentTime w = (Done (sendStatus 201), w1)
    /\ participants (store w1) =
         participants (store w)
         ++ [{| _id := next_id (store w);
                fields := {| name := VStr n; lastStatus := VNum now |} |}]
    /\ faults w1 = []
    /\ registered (VStr n) (store w1)
    /\ forall now' currentTime' w2,
         faults w2 = [] ->
         registered (VStr n) (store w2) ->
         exists w3,
           post (VStr n) now' currentTime' w2 = (Done (sendStatus 409), w3)
           /\ store w3 = store w2.
Proof.
  intros variant nonempty calm St fresh_name.
  assert (J : post (VStr n) now currentTime w =
    (Done (sendStatus 201),
     {| store :=
          {| participants :=
               participants (store w)
               ++ [{| _id := next_id (store w);
                      fields := {| name := VStr n; lastStatus := VNum now |} |}];
             messages :=
               messages (store w)
               ++ [{| _id := S (next_id (store w));
                      fields := entered_the_room (VStr n) currentTime |}];
             next_id := S (S (next_id (store w))) |};
        faults := []; ops := 3 + ops w; console := console w |})).
  { destruct variant as [<-|[<-|[]]];
      [now apply V1_first_join | now apply V3_first_join]. }
  eexists. split; [exact J|]. cbn [store participants faults].
  repeat split.
  - eexists. split; [apply in_or_app; right; left; reflexivity|reflexivity].
  - intros now' currentTime' w2 calm2 known_name.
    eexists. split.
    + destruct variant as [<-|[<-|[]]];
        [now apply V1_join_again | now apply V3_join_again].
    + reflexivity.
Qed.

Lemma join_twice_conflicts_among_strings_witness :
  exists w1,
    V3.post_participants (VStr "alice") 7 "10:00:00" (boot empty_db []) =
      (Done (sendStatus 201), w1)
    /\ participants (store w1) =
         [{| _id := 0; fields := {| name := VStr "alice"; lastStatus := VNum 7 |} |}]
    /\ V3.post_participants (VStr "alice") 8 "10:00:01" w1 =
         (Done (sendStatus 409),
          {| store := store w1; faults := []; ops := 4; console := [] |}).
Proof.
  destruct (join_twice_conflicts_among_strings V3.post_participants "alice" 7
              "10:00:00" (boot empty_db []))
    as [w1 [J [P [C [R A]]]]].
  - right; left; reflexivity.
  - discriminate.
  - reflexivity.
  - intros p [].
  - intros [p [[] _]].
  - exists w1. split; [exact J|]. split; [exact P|].
    inversion J; subst w1. reflexivity.
Defined.

(** A case for each fate of the store operations of a handler. *)
Ltac fates :=
  repeat match goal with
    | |- context [match ?fs with [] => _ | _ :: _ => _ end] =>
        is_var fs; destruct fs as [|[?|] ?]; cbn -[matches]
    end.

Ltac settle :=
  eexists; eexists; split; [reflexivity|];
  cbn; split; [intro S201 | intros [S422|S409]];
  try discriminate; try (split; reflexivity); try reflexivity.

Lemma V1_join_announces (name : value) (now : Z) (currentTime : string) (w : world) :
  exists r w',
    V1.post_participants name now currentTime w = (Done r, w')
    /\ (status r = 201 ->
        participants (store w') =
          participants (store w)
          ++ [{| _id := next_id (store w);
                 fields := {| name := name; lastStatus := VNum now |} |}]
        /\ messages (store w') =
             messages (store w)
             ++ [{| _id := S (next_id (store w));
                    fields := entered_the_room name currentTime |}])
    /\ (status r = 422 \/ status r = 409 -> messages (store w') = messages (store w)).
Proof.
  destruct w as [d fs k out].
  unfold V1.post_participants.
  destruct name as [| |b|z|s|i]; try (cbn; settle).
  unfold validate; cbn -[matches]. destruct (s =? "") eqn:E; cbn -[matches].
  - settle.
  - run. fates;
      try destruct (List.find _ (participants d)); cbn -[matches]; fates; settle.
Qed.

Lemma V3_join_announces (name : value) (now : Z) (currentTime : string) (w : world) :
  exists r w',
    V3.post_participants name now currentTime w = (Done r, w')
    /\ (status r = 201 ->
        participants (store w') =
          participants (store w)
          ++ [{| _id := next_id (store w);
                 fields := {| name := name; lastStatus := VNum now |} |}]
        /\ messages (store w') =
             messages (store w)
             ++ [{| _id := S (next_id (store w));
                    fields := entered_the_room name currentTime |}])
    /\ (status r = 422 \/ status r = 409 -> messages (store w') = messages (store w)).
Proof.
  destruct w as [d fs k out].
  unfold V3.post_participants.
  destruct (truthy name) eqn:T; run.
  - assert (B : bson name = name) by now apply bson_truthy.
    fates; try destruct (List.find _ (participants d)); cbn -[matches]; fates;
      rewrite ?B; settle.
  - settle.
Qed.

(** C9.  In the first and third iterations a join that answers 201 has
    created the participant record and appended one message to the
    board, the status notice from the new name to Todos with the text
    entra na sala...; a join that answers 422 (validation) or 409 (name
    taken) has appended none.  The handler always answers. *)
Theorem join_announces_once
  (post : value -> Z -> string -> M response)
  (name : value) (now : Z) (currentTime : string) (w : world) :
  In post [V1.post_participants; V3.post_participants] ->
  exists r w',
    post name now currentTime w = (Done r, w')
    /\ (status r = 201 ->
        participants (store w') =
          participants (store w)
          ++ [{| _id := next_id (store w);
                 fields := {| name := name; lastStatus := VNum now |} |}]
        /\ messages (store w') =
             messages (store w)
             ++ [{| _id := S (next_id (store w));
                    fields :=
                      {| from := name; to := VStr "Todos";
                         text := VStr "entra na sala..."; type := VStr "status";
                         time := VStr currentTime |} |}])
    /\ (status r = 422 \/ status r = 409 -> messages (store w') = messages (store w)).
Proof.
  intros [<-|[<-|[]]]; [apply V1_join_announces | apply V3_join_announces].
Qed.

Lemma join_announces_once_witness :
  exists r w',
    V3.post_participants (VStr "alice") 7 "10:00:00" (boot empty_db []) = (Done r, w')
    /\ status r = 201
    /\ messages (store w') =
         [{| _id := 1;
             fields :=
               {| from := VStr "alice"; to := VStr "Todos";
                  text := VStr "entra na sala..."; type := VStr "status";
                  time := VStr "10:00:00" |} |}].
Proof.
  destruct (join_announces_once V3.post_participants (VStr "alice") 7 "10:00:00"
              (boot empty_db []) (or_intror (or_introl eq_refl)))
    as [r [w' [J [A _]]]].
  exists r, w'. split; [exact J|].
  assert (S : status r = 201) by (inversion J; reflexivity).
  split; [exact S|]. exact (proj2 (A S)).
Defined.

(** ** Heartbeat *)

Lemma user_required_ok (u : string) :
  u <> "" -> validate V1.userSchema [("user", VStr u)] = [].
Proof.
  intro N. apply String.eqb_neq in N.
  unfold validate. cbn. rewrite N. reflexivity.
Qed.

Lemma find_splits {A} (f : A -> bool) (l : list A) (p : A) :
  List.find f l = Some p ->
  exists before after,
    l = before ++ p :: after
    /\ (forall q, In q before -> f q = false)
    /\ f p = true
    /\ forall u, update_first f u l = before ++ u p :: after.
Proof.
  induction l as [|a l IH]; simpl; intro F; [discriminate|].
  destruct (f a) eqn:E.
  - inversion F; subst a. exists [], l. repeat split; try easy.
  - destruct (IH F) as [before [after [L [N [T U]]]]].
    exists (a :: before), after. repeat split.
    + simpl. now rewrite L.
    + intros q [<-|I]; [exact E|now apply N].
    + exact T.
    + intro u. simpl. now rewrite U.
Qed.

Lemma V1_heartbeat_unknown (user : value) (now : Z) (w : world) :
  faults w = [] ->
  ~ registered (bson user) (store w) ->
  exists r w', V1.post_status user now w = (Done r, w')
               /\ status r = 404 /\ store w' = store w.
Proof.
  intros calm unknown. destruct w as [d fs k out]. simpl in calm. subst fs.
  unfold V1.post_status.
  destruct (has_error (validate V1.userSchema [("user", user)])).
  - eexists; eexists. split; [reflexivity|]. split; reflexivity.
  - run. rewrite (unregistered_not_found user d unknown).
    eexists; eexists. split; [reflexivity|]. split; reflexivity.
Qed.

Lemma V3_heartbeat_unknown (user : value) (now : Z) (w : world) :
  faults w = [] ->
  strings (store w) ->
  ~ registered (bson user) (store w) ->
  exists r w', V3.post_status user now w = (Done r, w')
               /\ status r = 404 /\ store w' = store w.
Proof.
  intros calm _ unknown. destruct w as [d fs k out]. simpl in calm. subst fs.
  unfold V3.post_status.
  destruct (truthy user); run.
  - rewrite (unregistered_not_found user d unknown).
    eexists; eexists. split; [reflexivity|]. split; reflexivity.
  - eexists; eexists. split; [reflexivity|]. split; reflexivity.
Qed.

Lemma heartbeat_update (u : string) (now : Z) (d : db) :
  registered (VStr u) d ->
  exists before p after,
    participants d = before ++ p :: after
    /\ name (fields p) = VStr u
    /\ (forall q, In q before -> name (fields q) <> VStr u)
    /\ List.find (matches (Field "name" (EQ (VStr u)))) (participants d) = Some p
    /\ update_first (matches (Field "name" (EQ (VStr u))))
         (fun x => {| _id := _id x;
                      fields := {| name := name (fields x);
                                   lastStatus := VNum now |} |})
         (participants d)
       = before ++ {| _id := _id p;
                      fields := {| name := VStr u; lastStatus := VNum now |} |}
                :: after.
Proof.
  intro known. destruct (registered_found (VStr u) d known) as [p F].
  destruct (find_splits _ _ _ F) as [before [after [L [N [T U]]]]].
  rewrite matches_name in T. apply value_eqb_eq in T. simpl in T.
  exists before, p, after. repeat split; try assumption.
  - intros q I E. specialize (N q I). rewrite matches_name, E in N.
    rewrite value_eqb_refl in N. discriminate.
  - rewrite U. cbn. now rewrite T.
Qed.

Lemma V1_heartbeat_known (u : string) (now : Z) (w : world) :
  faults w = [] -> u <> "" -> registered (VStr u) (store w) ->
  exists before p after w',
    participants (store w) = before ++ p :: after
    /\ name (fields p) = VStr u
    /\ (forall q, In q before -> name (fields q) <> VStr u)
    /\ V1.post_status (VStr u) now w = (Done (sendStatus 200), w')
    /\ participants (store w') =
         before ++ {| _id := _id p;
                      fields := {| name := VStr u; lastStatus := VNum now |} |}
                :: after
    /\ messages (store w') = messages (store w).
Proof.
  intros calm nonempty known. destruct w as [d fs k out]. simpl in calm. subst fs.
  cbn [store] in *.
  destruct (heartbeat_update u now d known) as [before [p [after [L [E [N [F U]]]]]]].
  exists before, p, after.
  unfold V1.post_status. rewrite (user_required_ok u nonempty).
  run. rewrite F. cbn -[matches]. eexists. repeat split; try eassumption.
Qed.

Lemma V3_heartbeat_known (u : string) (now : Z) (w : world) :
  faults w = [] -> u <> "" -> registered (VStr u) (store w) ->
  exists before p after w',
    participants (store w) = before ++ p :: after
    /\ name (fields p) = VStr u
    /\ (forall q, In q before -> name (fields q) <> VStr u)
    /\ V3.post_status (VStr u) now w = (Done (sendStatus 200), w')
    /\ participants (store w') =
         before ++ {| _id := _id p;
                      fields := {| name := VStr u; lastStatus := VNum now |} |}
                :: after
    /\ messages (store w') = messages (store w).
Proof.
  intros calm nonempty known. destruct w as [d fs k out]. simpl in calm. subst fs.
  cbn [store] in *. apply String.eqb_neq in nonempty.
  destruct (heartbeat_update u now d known) as [before [p [after [L [E [N [F U]]]]]]].
  exists before, p, after.
  unfold V3.post_status.
  run. rewrite nonempty. cbn -[matches]. rewrite F. cbn -[matches].
  eexists. repeat split; try eassumption.
Qed.

(** X26.  In the first and third iterations, on a directory of strings
    and when no store operation fails: a heartbeat under a name that the
    directory does not hold (or with no name at all) answers 404 and
    leaves the store as it was; a heartbeat under a registered,
    non-empty name answers 200 and sets [lastStatus] of the participant
    of that name (the first one the store finds) to the current time,
    every other document staying as it was. *)
Theorem heartbeat_refreshes_or_not_found_among_strings
  (post : value -> Z -> M response) (user : value) (now : Z) (w : world) :
  In post [V1.post_status; V3.post_status] ->
  faults w = [] ->
  strings (store w) ->
  (~ registered (bson user) (store w) ->
   exists r w',
     post user now w = (Done r, w') /\ status r = 404 /\ store w' = store w)
  /\ (forall u, user = VStr u -> u <> "" -> registered (VStr u) (store w) ->
      exists before p after w',
        participants (store w) = before ++ p :: after
        /\ name (fields p) = VStr u
        /\ (forall q, In q before -> name (fields q) <> VStr u)
        /\ post user now w = (Done (sendStatus 200), w')
        /\ participants (store w') =
             before ++ {| _id := _id p;
                          fields := {| name := VStr u; lastStatus := VNum now |} |}
                    :: after
        /\ messages (store w') = messages (store w)).
Proof.
  intros variant calm St. split.
  - intro unknown. destruct variant as [<-|[<-|[]]];
      [now apply V1_heartbeat_unknown | now apply V3_heartbeat_unknown].
  - intros u -> nonempty known. destruct variant as [<-|[<-|[]]];
      [now apply V1_heartbeat_known | now apply V3_heartbeat_known].
Qed.

Lemma heartbeat_refreshes_or_not_found_among_strings_witness :
  (exists r w',
     V3.post_status (VStr "bob") 9
       (boot {| participants :=
                  [{| _id := 0;
                      fields := {| name := VStr "alice"; lastStatus := VNum 1 |} |}];
                messages := []; next_id := 1 |} []) = (Done r, w')
     /\ status r = 404)
  /\ (exists w',
     V3.post_status (VStr "alice") 9
       (boot {| participants :=
                  [{| _id := 0;
                      fields := {| name := VStr "alice"; lastStatus := VNum 1 |} |}];
                messages := []; next_id := 1 |} []) = (Done (sendStatus 200), w')
     /\ participants (store w') =
          [{| _id := 0; fields := {| name := VStr "alice"; lastStatus := VNum 9 |} |}]).
Proof.
  assert (St : strings
                 (store (boot {| participants :=
                                   [{| _id := 0;
                                       fields := {| name := VStr "alice";
                                                    lastStatus := VNum 1 |} |}];
                                 messages := []; next_id := 1 |} [])))
    by (intros p [<-|[]]; reflexivity).
  split.
  - destruct (heartbeat_refreshes_or_not_found_among_strings V3.post_status
                (VStr "bob") 9
                (boot {| participants :=
                           [{| _id := 0;
                               fields := {| name := VStr "alice";
                                            lastStatus := VNum 1 |} |}];
                         messages := []; next_id := 1 |} [])
                (or_intror (or_introl eq_refl)) eq_refl St) as [U _].
    destruct U as [r [w' [E [S _]]]].
    + intros [p [[<-|[]] E]]. discriminate.
    + exists r, w'. split; assumption.
  - destruct (heartbeat_refreshes_or_not_found_among_strings V3.post_status
                (VStr "alice") 9
                (boot {| participants :=
                           [{| _id := 0;
                               fields := {| name := VStr "alice";
                                            lastStatus := VNum 1 |} |}];
                         messages := []; next_id := 1 |} [])
                (or_intror (or_introl eq_refl)) eq_refl St) as [_ K].
    destruct (K "alice" eq_refl) as [before [p [after [w' [L [E [N [R [P _]]]]]]]]].
    + discriminate.
    + eexists. split; [left; reflexivity|reflexivity].
    + exists w'. split; [exact R|].
      inversion R; subst w'. reflexivity.
Defined.

(** C5, as the claim has it, fails on the third iteration, whose join
    asks of the name only that it be truthy where the first iteration
    asks for a string.  The third iteration registers the number 5, which
    the first refuses with 422.  The [user] header of a heartbeat is a
    string or is absent, and the string 5 is not the number 5: whatever
    the header, the heartbeat answers 404 (or 500, when the store
    fails) and the store stays as it was.  This registered name is never
    refreshed; it waits for the sweep. *)
Theorem third_iteration_registers_a_name_that_no_heartbeat_reaches :
  V3.post_participants (VNum 5) 1000 "10:00:00" (boot empty_db []) =
    (Done (sendStatus 201),
     {| store := play V3.serve the_number_5_joins empty_db;
        faults := []; ops := 3; console := [] |})
  /\ participants (play V3.serve the_number_5_joins empty_db) =
       [{| _id := 0; fields := {| name := VNum 5; lastStatus := VNum 1000 |} |}]
  /\ V1.post_participants (VNum 5) 1000 "10:00:00" (boot empty_db []) =
       (Done (send 422 (Details [{| path := "name"; reason := string_base |}])),
        boot empty_db [])
  /\ forall (user : option string) (now : Z) (fs : list (option error)),
       exists r w',
         V3.post_status (header user) now
           (boot (play V3.serve the_number_5_joins empty_db) fs) = (Done r, w')
         /\ match hd None fs with
            | None => status r = 404
            | Some _ => status r = 404 \/ status r = 500
            end
         /\ store w' = play V3.serve the_number_5_joins empty_db.
Proof.
  split; [reflexivity|]. split; [reflexivity|]. split; [reflexivity|].
  intros [u|] now fs; unfold V3.post_status; cbn [header truthy].
  - destruct (u =? "") eqn:E; run.
    + eexists; eexists. split; [reflexivity|].
      destruct fs as [|[e|] fs]; cbn; auto.
    + destruct fs as [|[e|] fs]; cbn -[matches];
        eexists; eexists; (split; [reflexivity|]); cbn; auto.
  - run. eexists; eexists. split; [reflexivity|].
    destruct fs as [|[e|] fs]; cbn; auto.
Qed.

(** ** The message query *)

Lemma limit_positive {A} (z : Z) (l : list A) :
  (0 < z)%Z -> limit (Int z) l = firstn (Z.to_nat z) l.
Proof.
  intro P. unfold limit, first_documents. destruct (z =? 0)%Z eqn:E; [lia|].
  now rewrite Zabs2Nat.abs_nat_nonneg by lia.
Qed.

Lemma limit_fraction {A} (f : Z) (l : list A) :
  (1 <= f)%Z -> limit (Frac f) l = firstn (Z.to_nat f) l.
Proof.
  intro P. unfold limit, first_documents, truncate.
  destruct (f <? 0)%Z eqn:N; [lia|]. destruct (f =? 0)%Z eqn:E; [lia|].
  now rewrite Zabs2Nat.abs_nat_nonneg by lia.
Qed.

Lemma in_firstn_in {A} (a : nat) (l : list A) (x : A) :
  In x (firstn a l) -> In x l.
Proof.
  intro I. rewrite <- (firstn_skipn a l). apply in_or_app. now left.
Qed.

Lemma in_first_documents {A} (z : Z) (l : list A) (x : A) :
  In x (first_documents z l) -> In x l.
Proof.
  unfold first_documents. destruct (z =? 0)%Z; [auto|]. apply in_firstn_in.
Qed.

Lemma in_limit {A} (n : number) (l : list A) (x : A) : In x (limit n l) -> In x l.
Proof. destruct n; simpl; [auto| |]; apply in_first_documents. Qed.

Lemma guard_rejects (limit : number) :
  limit = NaN \/ (exists z, limit = Int z /\ (z <= 0)%Z)
  \/ (exists f, limit = Frac f /\ (f < 0)%Z) ->
  isNaN limit || le0 limit = true.
Proof.
  intros [->|[[z [-> N]]|[f [-> N]]]]; [reflexivity| |]; simpl.
  - now apply Z.leb_le.
  - now apply Z.ltb_lt.
Qed.

Lemma guard_passes (z : Z) : (0 < z)%Z -> isNaN (Int z) || le0 (Int z) = false.
Proof. intro P. simpl. now apply Z.leb_gt. Qed.

Lemma guard_passes_fraction (f : Z) :
  (0 <= f)%Z -> isNaN (Frac f) || le0 (Frac f) = false.
Proof. intro P. simpl. now apply Z.ltb_ge. Qed.

Lemma guard_passed (limit : number) :
  isNaN limit || le0 limit = false ->
  (exists z, limit = Int z /\ (0 < z)%Z) \/ (exists f, limit = Frac f /\ (0 <= f)%Z).
Proof.
  destruct limit as [|z|f]; simpl; [discriminate| |]; intro G.
  - left. exists z. split; [reflexivity|now apply Z.leb_gt].
  - right. exists f. split; [reflexivity|now apply Z.ltb_ge].
Qed.

(** C7.  In the first and third iterations, a query whose converted limit
    is NaN or not above zero, an integer or not, answers 422 and issues
    no store operation: the world is as it was.  A query with a limit
    above zero, an integer or not, issues the one read of the store and
    answers 200, or 500 when that read fails. *)
Theorem limit_is_checked_before_the_store_is_read
  (get : value -> number -> M response) (user : value) (limit : number) (w : world) :
  In get [V1.get_messages; V3.get_messages] ->
  (limit = NaN \/ (exists z, limit = Int z /\ (z <= 0)%Z)
   \/ (exists f, limit = Frac f /\ (f < 0)%Z) ->
   get user limit w = (Done (send 422 (Text "Invalid limit value")), w))
  /\ (forall z, limit = Int z -> (0 < z)%Z ->
      exists r w',
        get user limit w = (Done r, w')
        /\ ops w' = S (ops w)
        /\ store w' = store w
        /\ match hd None (faults w) with
           | None => status r = 200
           | Some _ => status r = 500
           end)
  /\ (forall f, limit = Frac f -> (0 <= f)%Z ->
      exists r w',
        get user limit w = (Done r, w')
        /\ ops w' = S (ops w)
        /\ store w' = store w
        /\ match hd None (faults w) with
           | None => status r = 200
           | Some _ => status r = 500
           end).
Proof.
  intro variant. split; [|split].
  - intro bad. apply guard_rejects in bad.
    destruct variant as [<-|[<-|[]]].
    + unfold V1.get_messages. now rewrite bad.
    + unfold V3.get_messages, try_catch. now rewrite bad.
  - intros z -> positive. pose proof (guard_passes z positive) as G.
    destruct w as [d fs k out].
    destruct variant as [<-|[<-|[]]].
    + unfold V1.get_messages. rewrite G. run.
      destruct fs as [|[e|] fs]; cbn -[matches];
        eexists; eexists; repeat split.
    + unfold V3.get_messages. expose. rewrite G. cbn -[matches].
      destruct fs as [|[e|] fs]; cbn -[matches];
        eexists; eexists; repeat split.
  - intros f -> positive. pose proof (guard_passes_fraction f positive) as G.
    destruct w as [d fs k out].
    destruct variant as [<-|[<-|[]]].
    + unfold V1.get_messages. rewrite G. run.
      destruct fs as [|[e|] fs]; cbn -[matches];
        eexists; eexists; repeat split.
    + unfold V3.get_messages. expose. rewrite G. cbn -[matches].
      destruct fs as [|[e|] fs]; cbn -[matches];
        eexists; eexists; repeat split.
Qed.

Lemma limit_is_checked_before_the_store_is_read_witness :
  V3.get_messages (VStr "alice") (Int 0) (boot empty_db []) =
    (Done (send 422 (Text "Invalid limit value")), boot empty_db [])
  /\ (exists r w',
       V3.get_messages (VStr "alice") (Int 3) (boot empty_db []) = (Done r, w')
       /\ ops w' = 1 /\ status r = 200)
  /\ (exists r w',
       V3.get_messages (VStr "alice") (Frac 0) (boot empty_db []) = (Done r, w')
       /\ ops w' = 1 /\ status r = 200).
Proof.
  destruct (limit_is_checked_before_the_store_is_read V3.get_messages (VStr "alice")
              (Int 0) (boot empty_db []) (or_intror (or_introl eq_refl))) as [R _].
  destruct (limit_is_checked_before_the_store_is_read V3.get_messages (VStr "alice")
              (Int 3) (boot empty_db []) (or_intror (or_introl eq_refl))) as [_ [P _]].
  destruct (limit_is_checked_before_the_store_is_read V3.get_messages (VStr "alice")
              (Frac 0) (boot empty_db []) (or_intror (or_introl eq_refl))) as [_ [_ F]].
  split; [|split].
  - apply R. right. left. exists 0%Z. split; [reflexivity|lia].
  - destruct (P 3%Z eq_refl) as [r [w' [E [O [_ S]]]]]; [lia|].
    exists r, w'. repeat split; assumption.
  - destruct (F 0%Z eq_refl) as [r [w' [E [O [_ S]]]]]; [lia|].
    exists r, w'. repeat split; assumption.
Defined.

(** A query that answers with messages has passed the check of the
    limit, and answers with what the store returns under that limit. *)
Lemma V1_query_answer (user : value) (n : number) (w w' : world)
  (ms : list (doc message)) :
  V1.get_messages user n w = (Done (send 200 (Messages ms)), w') ->
  isNaN n || le0 n = false
  /\ ms = limit n (List.filter (matches (V1.visible user)) (messages (store w))).
Proof.
  unfold V1.get_messages. destruct (isNaN n || le0 n) eqn:G.
  - discriminate.
  - intro E. split; [reflexivity|].
    destruct w as [d fs k out]. revert E. run.
    destruct fs as [|[e|] fs]; cbn -[matches]; intro E; inversion E; reflexivity.
Qed.

Lemma V3_query_answer (user : value) (n : number) (w w' : world)
  (ms : list (doc message)) :
  V3.get_messages user n w = (Done (send 200 (Messages ms)), w') ->
  isNaN n || le0 n = false
  /\ ms = limit n (List.filter (matches (V3.visible user)) (messages (store w))).
Proof.
  unfold V3.get_messages. destruct (isNaN n || le0 n) eqn:G.
  - intro E. cbn in E. discriminate.
  - intro E. split; [reflexivity|].
    destruct w as [d fs k out]. revert E. run.
    destruct fs as [|[e|] fs]; cbn -[matches]; intro E; inversion E; reflexivity.
Qed.

(** Under a limit that passed the check and does not lie between 0 and
    1, the store returns at most [limit] documents. *)
Lemma limit_at_most {A} (n : number) (l : list A) :
  isNaN n || le0 n = false ->
  n <> Frac 0 ->
  at_most (List.length (limit n l)) n.
Proof.
  intros G N. destruct (guard_passed n G) as [[z [-> P]]|[f [-> P]]].
  - rewrite limit_positive by exact P. simpl.
    pose proof (firstn_le_length (Z.to_nat z) l). lia.
  - assert (1 <= f)%Z by (destruct (Z.eq_dec f 0); [subst; contradiction|lia]).
    rewrite limit_fraction by assumption. simpl.
    pose proof (firstn_le_length (Z.to_nat f) l). lia.
Qed.

Lemma in_limit_filter {A} (f : A -> bool) (n : number) (l : list A) (x : A) :
  In x (limit n (List.filter f l)) -> In x l /\ f x = true.
Proof. intro I. apply in_limit in I. now apply filter_In in I. Qed.

(** What the query of the first two iterations lets through. *)
Lemma V1_visible_inv (user : value) (m : doc message) :
  matches (V1.visible user) m = true ->
  (type (fields m) = VStr "status" \/ type (fields m) = VStr "message")
  \/ (direct m /\ from (fields m) = bson user /\ to (fields m) <> bson user)
  \/ (direct m /\ from (fields m) <> bson user /\ to (fields m) = bson user)
  \/ from (fields m) = VStr "Todos".
Proof.
  unfold direct. cbn.
  destruct (value_eqb (type (fields m)) (VStr "status")) eqn:S;
    [apply value_eqb_eq in S; auto|].
  destruct (value_eqb (type (fields m)) (VStr "message")) eqn:P;
    [apply value_eqb_eq in P; auto|].
  destruct (value_eqb (from (fields m)) (VStr "Todos")) eqn:T;
    [apply value_eqb_eq in T; auto|].
  destruct (value_eqb (type (fields m)) (VStr "private_message")) eqn:D;
    [apply value_eqb_eq in D|discriminate].
  destruct (value_eqb (from (fields m)) (bson user)) eqn:F;
    destruct (value_eqb (to (fields m)) (bson user)) eqn:R;
    try discriminate; intros _.
  - apply value_eqb_eq in F. apply value_eqb_neq in R. auto 6.
  - apply value_eqb_neq in F. apply value_eqb_eq in R. auto 6.
Qed.

(** C1, as the code has it.  In all three iterations a query that answers
    with messages answers with at most [limit] of them, unless the limit
    lies strictly between 0 and 1: such a limit passes the check, and
    the store, which keeps the integral part of it, lifts the limit.  In
    the first two iterations each direct message among the messages of
    the answer has the viewer as its sender or as its recipient, or
    comes from a sender named Todos. *)
Theorem query_is_bounded_and_direct_messages_reach_their_parties
  (user : value) (limit : number) (w w' : world) (ms : list (doc message)) :
  (forall get, In get [V1.get_messages; V2.get_messages; V3.get_messages] ->
     get user limit w = (Done (send 200 (Messages ms)), w') ->
     limit <> Frac 0 ->
     at_most (List.length ms) limit)
  /\ (forall get, In get [V1.get_messages; V2.get_messages] ->
     get user limit w = (Done (send 200 (Messages ms)), w') ->
     forall m, In m ms -> direct m ->
       from (fields m) = bson user
       \/ to (fields m) = bson user
       \/ from (fields m) = VStr "Todos").
Proof.
  split.
  - intros get [<-|[<-|[<-|[]]]] E N.
    + destruct (V1_query_answer _ _ _ _ _ E) as [G ->]. now apply limit_at_most.
    + change V2.get_messages with V1.get_messages in E.
      destruct (V1_query_answer _ _ _ _ _ E) as [G ->]. now apply limit_at_most.
    + destruct (V3_query_answer _ _ _ _ _ E) as [G ->]. now apply limit_at_most.
  - intros get variant E m I D.
    assert (E1 : V1.get_messages user limit w = (Done (send 200 (Messages ms)), w'))
      by (destruct variant as [<-|[<-|[]]]; exact E).
    destruct (V1_query_answer _ _ _ _ _ E1) as [G ->].
    apply in_limit_filter in I. destruct I as [_ V].
    destruct (V1_visible_inv _ _ V) as [[S|S]|[[_ [F _]]|[[_ [_ R]]|T]]]; auto;
      unfold direct in D; congruence.
Qed.

Lemma query_is_bounded_and_direct_messages_reach_their_parties_witness :
  at_most 2 (Frac 2)
  /\ (VStr "Todos" = VStr "bob" \/ VStr "bob" = VStr "bob"
      \/ VStr "Todos" = VStr "Todos").
Proof.
  destruct (query_is_bounded_and_direct_messages_reach_their_parties
              (VStr "bob") (Frac 2)
              (boot (play V1.serve Todos_writes_to_bob empty_db) [])
              {| store := play V1.serve Todos_writes_to_bob empty_db;
                 faults := []; ops := 1; console := [] |}
              [join_notice 1 "Todos" "10:00:00";
               private_message 2 "Todos" "bob" "oi" "10:00:02"])
    as [B D].
  split.
  - apply (B V3.get_messages);
      [right; right; left; reflexivity|reflexivity|discriminate].
  - apply (D V1.get_messages (or_introl eq_refl) eq_refl
             (private_message 2 "Todos" "bob" "oi" "10:00:02")).
    + right; left; reflexivity.
    + reflexivity.
Defined.

(** C1, as the claim has it, fails in each of its halves.  A participant
    named Todos writes to bob in private; carol asks for ten messages and
    is sent that direct message, of which she is neither the sender nor
    the recipient.  And carol, asking with the limit 0.5, is sent the two
    messages of the board: more than the limit. *)
Lemma query_leaks_a_direct_message_and_exceeds_a_limit_below_one :
  V1.get_messages (VStr "carol") (Int 10)
    (boot (play V1.serve Todos_writes_to_bob empty_db) [])
  = (Done (send 200 (Messages [join_notice 1 "Todos" "10:00:00";
                               private_message 2 "Todos" "bob" "oi" "10:00:02"])),
     {| store := play V1.serve Todos_writes_to_bob empty_db;
        faults := []; ops := 1; console := [] |})
  /\ direct (private_message 2 "Todos" "bob" "oi" "10:00:02")
  /\ from (fields (private_message 2 "Todos" "bob" "oi" "10:00:02")) <> VStr "carol"
  /\ to (fields (private_message 2 "Todos" "bob" "oi" "10:00:02")) <> VStr "carol"
  /\ (forall get, In get [V1.get_messages; V2.get_messages; V3.get_messages] ->
      get (VStr "carol") (Frac 0)
        (boot (play V1.serve Todos_writes_to_bob empty_db) [])
      = (Done (send 200 (Messages [join_notice 1 "Todos" "10:00:00";
                                   private_message 2 "Todos" "bob" "oi" "10:00:02"])),
         {| store := play V1.serve Todos_writes_to_bob empty_db;
            faults := []; ops := 1; console := [] |}))
  /\ ~ at_most 2 (Frac 0).
Proof.
  split; [reflexivity|]. split; [reflexivity|]. split; [discriminate|].
  split; [discriminate|]. split.
  - intros get [<-|[<-|[<-|[]]]]; reflexivity.
  - simpl. lia.
Qed.

(** C10, as the code has it.  In the first two iterations a direct
    message whose sender and recipient are both the viewer is not among
    the messages a query answers with, unless the viewer is named
    Todos. *)
Theorem self_addressed_direct_message_is_hidden
  (get : value -> number -> M response)
  (user : value) (limit : number) (w w' : world) (ms : list (doc message))
  (m : doc message) :
  In get [V1.get_messages; V2.get_messages] ->
  get user limit w = (Done (send 200 (Messages ms)), w') ->
  user <> VStr "Todos" ->
  direct m ->
  from (fields m) = bson user ->
  to (fields m) = bson user ->
  ~ In m ms.
Proof.
  intros variant E N D F R I.
  assert (E1 : V1.get_messages user limit w = (Done (send 200 (Messages ms)), w'))
    by (destruct variant as [<-|[<-|[]]]; exact E).
  destruct (V1_query_answer _ _ _ _ _ E1) as [G ->].
  apply in_limit_filter in I. destruct I as [_ V].
  unfold direct in D.
  destruct (V1_visible_inv _ _ V) as [[S|S]|[[_ [_ R']]|[[_ [F' _]]|T]]];
    try congruence.
  apply N. rewrite F in T. destruct user; simpl in T; congruence.
Qed.

Lemma self_addressed_direct_message_is_hidden_witness :
  ~ In (private_message 2 "alice" "alice" "oi" "10:00:02")
       [join_notice 1 "alice" "10:00:00"].
Proof.
  apply (self_addressed_direct_message_is_hidden V2.get_messages (VStr "alice")
           (Int 10)
           (boot {| participants := [];
                    messages := [join_notice 1 "alice" "10:00:00";
                                 private_message 2 "alice" "alice" "oi" "10:00:02"];
                    next_id := 3 |} [])
           {| store := {| participants := [];
                          messages := [join_notice 1 "alice" "10:00:00";
                                       private_message 2 "alice" "alice" "oi" "10:00:02"];
                          next_id := 3 |};
              faults := []; ops := 1; console := [] |}).
  - right; left; reflexivity.
  - reflexivity.
  - discriminate.
  - reflexivity.
  - reflexivity.
  - reflexivity.
Defined.

(** C10, as the claim has it, fails.  The participant Todos writes to
    itself in private and then asks for ten messages: the self-addressed
    direct message is among them. *)
Lemma self_addressed_direct_message_of_Todos_is_shown :
  V1.get_messages (VStr "Todos") (Int 10)
    (boot (play V1.serve Todos_writes_to_Todos empty_db) [])
  = (Done (send 200 (Messages [join_notice 1 "Todos" "10:00:00";
                               private_message 2 "Todos" "Todos" "oi" "10:00:02"])),
     {| store := play V1.serve Todos_writes_to_Todos empty_db;
        faults := []; ops := 1; console := [] |})
  /\ direct (private_message 2 "Todos" "Todos" "oi" "10:00:02")
  /\ from (fields (private_message 2 "Todos" "Todos" "oi" "10:00:02")) = VStr "Todos"
  /\ to (fields (private_message 2 "Todos" "Todos" "oi" "10:00:02")) = VStr "Todos".
Proof. repeat split. Qed.

(** The example of the specification: alice writes to bob in private;
    the first iteration sends the message to bob and not to carol. *)
Lemma V1_query_example :
  V1.get_messages (VStr "carol") (Int 10)
    (boot (play V1.serve alice_writes_to_bob empty_db) [])
  = (Done (send 200 (Messages [join_notice 1 "alice" "10:00:00";
                               join_notice 3 "bob" "10:00:01"])),
     {| store := play V1.serve alice_writes_to_bob empty_db;
        faults := []; ops := 1; console := [] |})
  /\ V1.get_messages (VStr "bob") (Int 10)
       (boot (play V1.serve alice_writes_to_bob empty_db) [])
     = (Done (send 200 (Messages [join_notice 1 "alice" "10:00:00";
                                  join_notice 3 "bob" "10:00:01";
                                  private_message 4 "alice" "bob" "oi" "10:00:03"])),
        {| store := play V1.serve alice_writes_to_bob empty_db;
           faults := []; ops := 1; console := [] |}).
Proof. split; reflexivity. Qed.

(** The query of the third iteration lists private_message among the
    types it lets through, so that its clauses on the sender and the
    recipient select nothing more: carol is sent what alice wrote to
    bob. *)
Lemma V3_query_shows_direct_messages_to_everyone :
  V3.get_messages (VStr "carol") (Int 10)
    (boot (play V3.serve alice_writes_to_bob empty_db) [])
  = (Done (send 200 (Messages [join_notice 1 "alice" "10:00:00";
                               join_notice 3 "bob" "10:00:01";
                               private_message 4 "alice" "bob" "oi" "10:00:03"])),
     {| store := play V3.serve alice_writes_to_bob empty_db;
        faults := []; ops := 1; console := [] |}).
Proof. reflexivity. Qed.

(** ** Owner-only edit *)

Lemma obj_set_in (o : object) (k : string) (v : value) : In (k, v) (obj_set o k v).
Proof.
  induction o as [|[k' v'] o IH]; simpl; [now left|].
  destruct (k' =? k); [now left|now right].
Qed.

Lemma unknown_key_is_an_error (s : schema) (o : object) (k : string) (v : value) :
  In (k, v) o -> known s k = false -> has_error (validate s o) = true.
Proof.
  intros I U. unfold validate.
  assert (F : In (k, v) (List.filter (fun kv => negb (known s (fst kv))) o)).
  { apply filter_In. split; [exact I|]. simpl. now rewrite U. }
  destruct (List.filter (fun kv => negb (known s (fst kv))) o) as [|x l];
    [contradiction|].
  destruct (flat_map _ s); reflexivity.
Qed.

(** C6.  The edit handler validates the body together with a key [from],
    which its schema does not name (the schema names [user]): the
    validation fails for every request, the handler answers 422 and
    leaves the world as it was.  So it does for alice, registered, who
    edits her own message 1 with valid [to], [text] and [type]: the claim
    has 200 and an update there. *)
Theorem edit_is_always_rejected :
  (forall user id body w,
     has_error (validate V2.messageSchema (obj_set body "from" user)) = true
     /\ V2.put_messages user id body w =
          (Done (send 422 (Details (validate V2.messageSchema
                                      (obj_set body "from" user)))), w))
  /\ V2.put_messages (VStr "alice") (V2.WellFormed 1)
       [("to", VStr "bob"); ("text", VStr "ola"); ("type", VStr "message")]
       (boot {| participants :=
                  [{| _id := 0;
                      fields := {| name := VStr "alice"; lastStatus := VNum 1000 |} |}];
                messages :=
                  [{| _id := 1;
                      fields := {| from := VStr "alice"; to := VStr "bob";
                                   text := VStr "oi"; type := VStr "message";
                                   time := VStr "10:00:00" |} |}];
                next_id := 2 |} [])
     = (Done (send 422 (Details [ {| path := "user"; reason := any_required |};
                                  {| path := "from"; reason := object_unknown |} ])),
        boot {| participants :=
                  [{| _id := 0;
                      fields := {| name := VStr "alice"; lastStatus := VNum 1000 |} |}];
                messages :=
                  [{| _id := 1;
                      fields := {| from := VStr "alice"; to := VStr "bob";
                                   text := VStr "oi"; type := VStr "message";
                                   time := VStr "10:00:00" |} |}];
                next_id := 2 |} []).
Proof.
  split; [|reflexivity].
  intros user id body w.
  assert (E : has_error (validate V2.messageSchema (obj_set body "from" user)) = true)
    by (apply (unknown_key_is_an_error _ _ "from" user);
        [apply obj_set_in|reflexivity]).
  split; [exact E|]. unfold V2.put_messages. now rewrite E.
Qed.

(** ** The sweep *)

Lemma filter_all {A} (f : A -> bool) (l : list A) :
  (forall x, In x l -> f x = true) -> List.filter f l = l.
Proof.
  induction l as [|a l IH]; intro T; simpl; [reflexivity|].
  rewrite (T a (or_introl eq_refl)). f_equal. apply IH.
  intros x I. apply T. now right.
Qed.

Lemma filter_filter {A} (f g : A -> bool) (l : list A) :
  List.filter g (List.filter f l) = List.filter (fun x => f x && g x) l.
Proof.
  induction l as [|a l IH]; simpl; [reflexivity|].
  destruct (f a); simpl; [destruct (g a)|]; now rewrite IH.
Qed.

Lemma NoDup_ids_filter {A} (f : doc A -> bool) (l : list (doc A)) :
  NoDup (map _id l) -> NoDup (map _id (List.filter f l)).
Proof.
  induction l as [|a l IH]; simpl; intro N; [constructor|].
  inversion N as [|? ? Fresh N']; subst.
  destruct (f a); simpl; [constructor|]; auto.
  intro I. apply Fresh. apply in_map_iff in I. destruct I as [x [E I]].
  apply in_map_iff. exists x. split; [exact E|].
  now apply (proj1 (filter_In f x l)).
Qed.

Lemma same_id_same_doc {A} (l : list (doc A)) (p q : doc A) :
  NoDup (map _id l) -> In p l -> In q l -> _id p = _id q -> p = q.
Proof.
  induction l as [|a l IH]; simpl; intros N Ip Iq E; [contradiction|].
  inversion N as [|? ? Fresh N']; subst.
  destruct Ip as [<-|Ip], Iq as [<-|Iq]; auto.
  - exfalso. apply Fresh. rewrite E. now apply in_map.
  - exfalso. apply Fresh. rewrite <- E. now apply in_map.
Qed.

(** With unique identifiers, deleting one document by its [_id] deletes
    every document of that [_id]. *)
Lemma deleteOne_by_id (n : nat) (ps : list (doc participant)) :
  NoDup (map _id ps) ->
  remove_first (matches (Field "_id" (EQ (VId n)))) ps =
    List.filter (fun q => negb (_id q =? n)%nat) ps.
Proof.
  induction ps as [|a ps IH]; simpl; intro N; [reflexivity|].
  inversion N as [|? ? Fresh N']; subst.
  change (matches (Field "_id" (EQ (VId n))) a) with (_id a =? n)%nat.
  destruct (_id a =? n)%nat eqn:E; simpl.
  - apply Nat.eqb_eq in E. symmetry. apply filter_all. intros x I.
    apply negb_true_iff, Nat.eqb_neq. intro X. apply Fresh.
    rewrite E, <- X. now apply in_map.
  - f_equal. now apply IH.
Qed.

Lemma drop_unique (l ps : list (doc participant)) :
  NoDup (map _id ps) ->
  drop l ps =
    List.filter (fun q => negb (existsb (fun p => (_id q =? _id p)%nat) l)) ps.
Proof.
  revert ps. induction l as [|a l IH]; intros ps N.
  - simpl. symmetry. now apply filter_all.
  - change (drop (a :: l) ps)
      with (drop l (remove_first (matches (Field "_id" (EQ (VId (_id a))))) ps)).
    rewrite (deleteOne_by_id _ _ N).
    rewrite IH by now apply NoDup_ids_filter.
    rewrite filter_filter. apply filter_ext. intro q.
    cbn [existsb]. now rewrite negb_orb.
Qed.

Lemma drop_stale (now : Z) (ps : list (doc participant)) :
  NoDup (map _id ps) ->
  drop (List.filter (stale now) ps) ps =
    List.filter (fun p => negb (stale now p)) ps.
Proof.
  intro N. rewrite (drop_unique _ _ N). apply filter_ext_in. intros q I. f_equal.
  destruct (stale now q) eqn:S.
  - apply existsb_exists. exists q. split; [|apply Nat.eqb_refl].
    apply filter_In. now split.
  - destruct (existsb _ _) eqn:X; [|reflexivity].
    apply existsb_exists in X. destruct X as [p [Ip E]].
    apply filter_In in Ip. destruct Ip as [Ip Sp]. apply Nat.eqb_eq in E.
    rewrite (same_id_same_doc ps q p N I Ip E) in S. congruence.
Qed.

Lemma quiet_nil (n : nat) : quiet n [].
Proof. unfold quiet. rewrite firstn_nil. constructor. Qed.

Lemma quiet_repeat (n : nat) (fs : list (option error)) :
  quiet n (repeat None n ++ fs).
Proof.
  unfold quiet. induction n as [|n IH]; simpl; constructor; auto.
Qed.

Lemma skipn_repeat (n : nat) (fs : list (option error)) :
  skipn n (repeat None n ++ fs) = fs.
Proof. induction n as [|n IH]; simpl; auto. Qed.

Lemma notices_fields (currentTime : string) (n : nat) (l : list (doc participant)) :
  map fields (notices currentTime n l) =
    map (fun p => serialize (left_the_room currentTime p)) l.
Proof.
  revert n. induction l as [|p l IH]; intro n; simpl; [reflexivity|].
  now rewrite IH.
Qed.

Lemma notices_app (currentTime : string) (n : nat) (l1 l2 : list (doc participant)) :
  notices currentTime n (l1 ++ l2) =
    notices currentTime n l1 ++ notices currentTime (List.length l1 + n) l2.
Proof.
  revert n. induction l1 as [|p l1 IH]; intro n; simpl; [reflexivity|].
  rewrite IH. now rewrite Nat.add_succ_r.
Qed.

Lemma for_of_app {A} (l1 l2 : list A) (body : A -> M unit) (w : world) :
  for_of (l1 ++ l2) body w =
    match for_of l1 body w with
    | (Done _, w1) => for_of l2 body w1
    | (Throw e, w1) => (Throw e, w1)
    end.
Proof.
  revert w. induction l1 as [|x l1 IH]; intro w; simpl; [reflexivity|].
  unfold bind. destruct (body x w) as [[[]|e] w1]; [apply IH|reflexivity].
Qed.

(** The body of the loop of the sweep. *)
Lemma sweep_loop (currentTime : string) (l : list (doc participant)) :
  forall d fs k out,
    quiet (2 * List.length l) fs ->
    for_of l
      (fun participant =>
         deleteOne c_participants (Field "_id" (EQ (VId (_id participant)))) ;;
         insertOne c_messages
           {| from := name (fields participant); to := VStr "Todos";
              text := VStr "sai da sala..."; type := VStr "status";
              time := VStr currentTime |})
      {| store := d; faults := fs; ops := k; console := out |}
    = (Done tt,
       {| store :=
            {| participants := drop l (participants d);
               messages := messages d ++ notices currentTime (next_id d) l;
               next_id := List.length l + next_id d |};
          faults := skipn (2 * List.length l) fs;
          ops := 2 * List.length l + k;
          console := out |}).
Proof.
  induction l as [|p l IH]; intros d fs k out Q.
  - simpl. rewrite app_nil_r. now destruct d.
  - replace (2 * List.length (p :: l)) with (S (S (2 * List.length l))) in *
      by (simpl; lia).
    assert (Q' : quiet (2 * List.length l) (skipn 2 fs)).
    { unfold quiet in *. destruct fs as [|f1 [|f2 fs]]; simpl;
        try (rewrite firstn_nil; constructor).
      simpl in Q. inversion Q as [|? ? _ Q1]. now inversion Q1. }
    assert (H12 : hd None fs = None /\ hd None (tl fs) = None).
    { unfold quiet in Q. destruct fs as [|f1 [|f2 fs]]; simpl in *; auto.
      - inversion Q; auto.
      - inversion Q as [|? ? E1 Q1]. inversion Q1. auto. }
    destruct H12 as [H1 H2].
    cbn [for_of]. expose.
    assert (T : tl (tl fs) = skipn 2 fs) by (destruct fs as [|? [|? ?]]; reflexivity).
    destruct fs as [|[e1|] [|[e2|] fs]]; try discriminate; cbn -[matches drop notices skipn Nat.mul];
      match goal with
      | |- context [for_of l ?b ?w] => fold (for_of l b w)
      end.
    all: cbn [skipn] in Q'.
    all: rewrite IH by (try exact Q'; apply quiet_nil).
    all: cbn -[matches Nat.mul]; rewrite <- app_assoc; simpl app.
    all: rewrite ?skipn_nil.
    all: f_equal; f_equal; [f_equal; lia | lia].
Qed.

Lemma filter_stale (now : Z) (ps : list (doc participant)) :
  List.filter (matches (Field "lastStatus" (LT (VNum (now - 10000))))) ps =
    List.filter (stale now) ps.
Proof. apply filter_ext. intro p. apply matches_stale. Qed.

(** A pass in which the read and the operations of the loop succeed. *)
Lemma V1_sweep_quiet (now : Z) (currentTime : string) (d : db)
  (fs : list (option error)) (k : nat) (out : list error) :
  quiet (S (2 * List.length (List.filter (stale now) (participants d)))) fs ->
  V1.sweep now currentTime {| store := d; faults := fs; ops := k; console := out |}
  = (Done tt,
     {| store :=
          {| participants := drop (List.filter (stale now) (participants d))
                               (participants d);
             messages := messages d
                         ++ notices currentTime (next_id d)
                              (List.filter (stale now) (participants d));
             next_id := List.length (List.filter (stale now) (participants d))
                        + next_id d |};
        faults := skipn (2 * List.length (List.filter (stale now) (participants d)))
                    (tl fs);
        ops := 2 * List.length (List.filter (stale now) (participants d)) + S k;
        console := out |}).
Proof.
  intro Q. unfold V1.sweep.
  assert (Q' : quiet (2 * List.length (List.filter (stale now) (participants d)))
                 (tl fs)).
  { unfold quiet in *. destruct fs as [|f fs]; simpl in *;
      [rewrite firstn_nil; constructor | now inversion Q]. }
  assert (H1 : hd None fs = None).
  { unfold quiet in Q. destruct fs as [|f fs]; simpl in *; [reflexivity|now inversion Q]. }
  unfold try_catch, bind at 1, find_toArray, db_call.
  destruct fs as [|[e|] fs]; try discriminate;
    cbn [faults store fst snd tl docs c_participants];
    rewrite filter_stale; destruct d as [ps ms n];
    cbn [participants messages next_id] in *;
    rewrite (sweep_loop currentTime _ _ _ _ _ Q'); reflexivity.
Qed.

(** A pass in which the read and the operations for [done] succeed, and
    then the removal of [p] fails, or ([late]) the removal of [p]
    succeeds and the insertion of its notice fails. *)
Lemma V1_sweep_interrupted (now : Z) (currentTime : string) (d : db)
  (done : list (doc participant)) (p : doc participant)
  (todo : list (doc participant)) (late : bool) (e : error)
  (rest : list (option error)) (k : nat) (out : list error) :
  List.filter (stale now) (participants d) = done ++ p :: todo ->
  V1.sweep now currentTime
    {| store := d;
       faults := None :: repeat None (2 * List.length done)
                 ++ (if late then [None] else []) ++ Some e :: rest;
       ops := k; console := out |}
  = (Done tt,
     {| store :=
          {| participants := drop (done ++ if late then [p] else []) (participants d);
             messages := messages d ++ notices currentTime (next_id d) done;
             next_id := List.length done + next_id d |};
        faults := rest;
        ops := (if late then 2 else 1) + (2 * List.length done + S k);
        console := out ++ [e] |}).
Proof.
  intro L. unfold V1.sweep.
  unfold try_catch, bind at 1, find_toArray, db_call.
  cbn [faults store fst snd tl docs c_participants].
  rewrite filter_stale, L, for_of_app. destruct d as [ps ms n].
  cbn [participants messages next_id] in *.
  rewrite (sweep_loop currentTime done) by apply quiet_repeat.
  rewrite skipn_repeat.
  unfold drop. rewrite fold_left_app. fold (drop done ps).
  destruct late; run; reflexivity.
Qed.

Lemma dropped_iff (l ps : list (doc participant)) (q : doc participant) :
  NoDup (map _id ps) ->
  In q (drop l ps) <-> In q ps /\ forall r, In r l -> _id q <> _id r.
Proof.
  intro N. rewrite (drop_unique l ps N), filter_In, negb_true_iff.
  split; intros [I X]; split; try exact I.
  - intros r Ir E. apply not_true_iff_false in X. apply X.
    apply existsb_exists. exists r. split; [exact Ir|now apply Nat.eqb_eq].
  - apply not_true_iff_false. intro Y. apply existsb_exists in Y.
    destruct Y as [r [Ir E]]. apply Nat.eqb_eq in E. exact (X r Ir E).
Qed.

Lemma apart_ids {A} (l1 l2 : list (doc A)) (a b : doc A) :
  NoDup (map _id (l1 ++ l2)) -> In a l1 -> In b l2 -> _id a <> _id b.
Proof.
  induction l1 as [|x l1 IH]; simpl; intros N Ia Ib; [contradiction|].
  inversion N as [|? ? Fresh N']; subst.
  destruct Ia as [->|Ia]; [|now apply IH].
  intro E. apply Fresh. rewrite E. apply in_map, in_or_app. now right.
Qed.

(** C2.  In the first and third iterations, on a store whose documents
    have distinct identifiers and when no store operation fails, one pass
    of the sweep leaves in the directory exactly the participants that
    are not stale (those whose [lastStatus] is not below the current time
    less 10000 ms, ten seconds), in their order, and appends to the board
    one notice for each stale participant, in their order: from the name
    of the participant (as the store holds it) to Todos, with the text
    sai da sala... and the type status. *)
Theorem sweep_evicts_exactly_the_stale
  (sweep : Z -> string -> M unit) (now : Z) (currentTime : string) (w : world) :
  In sweep [V1.sweep; V3.sweep] ->
  faults w = [] ->
  NoDup (map _id (participants (store w))) ->
  exists w' added,
    sweep now currentTime w = (Done tt, w')
    /\ participants (store w') =
         List.filter (fun p => negb (stale now p)) (participants (store w))
    /\ messages (store w') = messages (store w) ++ added
    /\ map fields added =
         map (fun p => {| from := bson (name (fields p)); to := VStr "Todos";
                          text := VStr "sai da sala..."; type := VStr "status";
                          time := VStr currentTime |})
             (List.filter (stale now) (participants (store w))).
Proof.
  intros variant calm N.
  assert (V : sweep = V1.sweep) by (destruct variant as [<-|[<-|[]]]; reflexivity).
  subst sweep. destruct w as [d fs k out]. simpl in calm. subst fs.
  cbn [store] in *.
  rewrite V1_sweep_quiet by apply quiet_nil.
  eexists. eexists. split; [reflexivity|]. cbn [store participants messages].
  split; [now apply drop_stale|]. split; [reflexivity|].
  apply notices_fields.
Qed.

Lemma sweep_evicts_exactly_the_stale_witness :
  exists w' added,
    V3.sweep 16000 "10:00:16" (boot (play V3.serve alice_and_bob_join empty_db) [])
      = (Done tt, w')
    /\ participants (store w') = []
    /\ messages (store w') =
         messages (play V3.serve alice_and_bob_join empty_db) ++ added
    /\ map fields added =
         [ {| from := VStr "alice"; to := VStr "Todos"; text := VStr "sai da sala...";
              type := VStr "status"; time := VStr "10:00:16" |};
           {| from := VStr "bob"; to := VStr "Todos"; text := VStr "sai da sala...";
              type := VStr "status"; time := VStr "10:00:16" |} ].
Proof.
  destruct (sweep_evicts_exactly_the_stale V3.sweep 16000 "10:00:16"
              (boot (play V3.serve alice_and_bob_join empty_db) [])
              (or_intror (or_introl eq_refl)) eq_refl)
    as [w' [added [R [P [B F]]]]].
  - vm_compute. repeat constructor; simpl; intuition discriminate.
  - exists w', added. repeat split; assumption.
Defined.

(** C3, as the code has it.  In the first and third iterations, on a
    store whose documents have distinct identifiers: when the read of the
    stale participants and the operations for the first of them, [done],
    succeed and then the removal of the next one, [p], fails, or its
    removal succeeds and the insertion of its notice fails, the pass
    returns without throwing, the error is printed, and the pass is over:
    the participants of [done] are removed and announced, those after
    [p], [todo], stay registered, and nothing is appended for [p] or for
    them. *)
Theorem sweep_failure_is_logged_and_ends_the_pass
  (sweep : Z -> string -> M unit) (now : Z) (currentTime : string) (d : db)
  (done : list (doc participant)) (p : doc participant)
  (todo : list (doc participant)) (late : bool) (e : error)
  (rest : list (option error)) :
  In sweep [V1.sweep; V3.sweep] ->
  NoDup (map _id (participants d)) ->
  List.filter (stale now) (participants d) = done ++ p :: todo ->
  exists w' added,
    sweep now currentTime
      (boot d (None :: repeat None (2 * List.length done)
               ++ (if late then [None] else []) ++ Some e :: rest))
      = (Done tt, w')
    /\ console w' = [e]
    /\ (forall q, In q todo -> In q (participants (store w')))
    /\ (forall q, In q done -> ~ In q (participants (store w')))
    /\ (In p (participants (store w')) <-> late = false)
    /\ messages (store w') = messages d ++ added
    /\ map fields added =
         map (fun q => {| from := bson (name (fields q)); to := VStr "Todos";
                          text := VStr "sai da sala..."; type := VStr "status";
                          time := VStr currentTime |}) done.
Proof.
  intros variant N L.
  assert (V : sweep = V1.sweep) by (destruct variant as [<-|[<-|[]]]; reflexivity).
  subst sweep. unfold boot.
  rewrite (V1_sweep_interrupted now currentTime d done p todo late e rest 0 [] L).
  assert (N' : NoDup (map _id (done ++ p :: todo)))
    by (rewrite <- L; now apply NoDup_ids_filter).
  assert (S : forall q, In q (done ++ p :: todo) -> In q (participants d))
    by (intros q I; rewrite <- L in I; now apply (proj1 (filter_In _ _ _) I)).
  eexists. eexists. split; [reflexivity|].
  cbn [store participants messages console app].
  split; [reflexivity|]. split; [|split; [|split; [|split; [reflexivity|]]]].
  - intros q I. apply (dropped_iff _ _ _ N). split.
    + apply S, in_or_app. right. now right.
    + intros r Ir E. apply in_app_or in Ir.
      replace (done ++ p :: todo) with ((done ++ [p]) ++ todo) in N'
        by (rewrite <- app_assoc; reflexivity).
      apply (apart_ids _ _ r q N'); [|exact I|now symmetry].
      destruct Ir as [Ir|Ir]; apply in_or_app; [now left|right].
      destruct late; [exact Ir|contradiction].
  - intros q I D. apply (dropped_iff _ _ _ N) in D. destruct D as [_ D].
    apply (D q); [apply in_or_app; now left|reflexivity].
  - split.
    + intro D. apply (dropped_iff _ _ _ N) in D. destruct D as [_ D].
      destruct late; [|reflexivity]. exfalso.
      apply (D p); [apply in_or_app; right; now left|reflexivity].
    + intros ->. apply (dropped_iff _ _ _ N). split.
      * apply S, in_or_app. right. now left.
      * intros r Ir E. rewrite app_nil_r in Ir.
        apply (apart_ids _ _ r p N'); [exact Ir|now left|now symmetry].
  - apply notices_fields.
Qed.

Lemma sweep_failure_is_logged_and_ends_the_pass_witness :
  exists w',
    V1.sweep 16000 "10:00:16"
      (boot (play V1.serve alice_and_bob_join empty_db)
            [None; Some (Error "connection closed")])
      = (Done tt, w')
    /\ console w' = [Error "connection closed"]
    /\ In {| _id := 2; fields := {| name := VStr "bob"; lastStatus := VNum 2000 |} |}
          (participants (store w'))
    /\ messages (store w') = messages (play V1.serve alice_and_bob_join empty_db).
Proof.
  destruct (sweep_failure_is_logged_and_ends_the_pass V1.sweep 16000 "10:00:16"
              (play V1.serve alice_and_bob_join empty_db)
              []
              {| _id := 0; fields := {| name := VStr "alice"; lastStatus := VNum 1000 |} |}
              [{| _id := 2; fields := {| name := VStr "bob"; lastStatus := VNum 2000 |} |}]
              false (Error "connection closed") [] (or_introl eq_refl))
    as [w' [added [R [C [T [_ [_ [B F]]]]]]]].
  - vm_compute. repeat constructor; simpl; intuition discriminate.
  - reflexivity.
  - exists w'. split; [exact R|]. split; [exact C|]. split.
    + apply T. now left.
    + destruct added; [now rewrite app_nil_r in B|discriminate].
Defined.

(** C3, as the claim has it, fails.  alice and bob are both stale; the
    read of the stale participants succeeds and the removal of alice
    fails.  The error is printed, and that is all the pass does: bob, the
    remaining stale participant, is still registered and no message has
    been appended. *)
Lemma sweep_stops_at_the_first_failure :
  Forall (fun p => stale 16000 p = true)
    (participants (play V1.serve alice_and_bob_join empty_db))
  /\ V1.sweep 16000 "10:00:16"
       (boot (play V1.serve alice_and_bob_join empty_db)
             [None; Some (Error "connection closed")])
     = (Done tt,
        {| store := play V1.serve alice_and_bob_join empty_db;
           faults := []; ops := 2; console := [Error "connection closed"] |})
  /\ In {| _id := 2; fields := {| name := VStr "bob"; lastStatus := VNum 2000 |} |}
        (participants (play V1.serve alice_and_bob_join empty_db)).
Proof.
  split; [repeat constructor|]. split; [reflexivity|]. right; left; reflexivity.
Qed.

(** ** Invariants of the reachable stores *)

Lemma reachable_keeps (serve : request -> Z -> string -> M unit) (P : db -> Prop) :
  P empty_db ->
  (forall req now currentTime w,
     P (store w) -> P (store (snd (serve req now currentTime w)))) ->
  forall d, reachable serve d -> P d.
Proof.
  intros P0 K d R. induction R as [|d req now currentTime fs R IH]; [exact P0|].
  apply K. exact IH.
Qed.

Lemma discard_keeps {A} (P : db -> Prop) (m : M A) (w : world) :
  P (store (snd (m w))) -> P (store (snd ((m ;; ret tt) w))).
Proof. unfold bind, ret. now destruct (m w) as [[?|?] ?]. Qed.

Lemma V1_serve_keeps (P : db -> Prop) :
  (forall name now currentTime w,
     P (store w) -> P (store (snd (V1.post_participants name now currentTime w)))) ->
  (forall user to text type currentTime w,
     P (store w) ->
     P (store (snd (V1.post_messages (header user) to text type currentTime w)))) ->
  (forall user now w,
     P (store w) -> P (store (snd (V1.post_status (header user) now w)))) ->
  (forall now currentTime w,
     P (store w) -> P (store (snd (V1.sweep now currentTime w)))) ->
  forall req now currentTime w,
    P (store w) -> P (store (snd (V1.serve req now currentTime w))).
Proof.
  intros J M S T req now currentTime w Pw.
  destruct req as [name| |user to text type|user limit|user|]; unfold V1.serve.
  - apply discard_keeps. now apply J.
  - apply discard_keeps. destruct w as [d fs k out].
    unfold V1.get_participants. run. fates; exact Pw.
  - apply discard_keeps. now apply M.
  - apply discard_keeps. destruct w as [d fs k out]. unfold V1.get_messages.
    destruct (isNaN limit || le0 limit); run; [exact Pw|]. fates; exact Pw.
  - apply discard_keeps. now apply S.
  - now apply T.
Qed.

Lemma V3_serve_keeps (P : db -> Prop) :
  (forall name now currentTime w,
     P (store w) -> P (store (snd (V3.post_participants name now currentTime w)))) ->
  (forall user to text type currentTime w,
     P (store w) ->
     P (store (snd (V3.post_messages (header user) to text type currentTime w)))) ->
  (forall user now w,
     P (store w) -> P (store (snd (V3.post_status (header user) now w)))) ->
  (forall now currentTime w,
     P (store w) -> P (store (snd (V3.sweep now currentTime w)))) ->
  forall req now currentTime w,
    P (store w) -> P (store (snd (V3.serve req now currentTime w))).
Proof.
  intros J M S T req now currentTime w Pw.
  destruct req as [name| |user to text type|user limit|user|]; unfold V3.serve.
  - apply discard_keeps. now apply J.
  - apply discard_keeps. destruct w as [d fs k out].
    unfold V3.get_participants. run. fates; exact Pw.
  - apply discard_keeps. now apply M.
  - apply discard_keeps. destruct w as [d fs k out]. unfold V3.get_messages.
    destruct (isNaN limit || le0 limit); run; [exact Pw|]. fates; exact Pw.
  - apply discard_keeps. now apply S.
  - now apply T.
Qed.

Lemma for_of_keeps {A} (P : db -> Prop) (body : A -> M unit) (l : list A) :
  (forall x w, P (store w) -> P (store (snd (body x w)))) ->
  forall w, P (store w) -> P (store (snd (for_of l body w))).
Proof.
  intro B. induction l as [|x l IH]; intros w S; [exact S|].
  cbn [for_of]. unfold bind. pose proof (B x w S) as S1.
  destruct (body x w) as [[[]|e] w1]; [now apply IH|exact S1].
Qed.

(** The sweep keeps what its read, its removals and its notices keep. *)
Lemma sweep_keeps (P : db -> Prop) (now : Z) (currentTime : string) :
  (forall p w,
     P (store w) ->
     P (store (snd
       ((deleteOne c_participants (Field "_id" (EQ (VId (_id p)))) ;;
         insertOne c_messages
           {| from := name (fields p); to := VStr "Todos";
              text := VStr "sai da sala..."; type := VStr "status";
              time := VStr currentTime |}) w)))) ->
  forall w, P (store w) -> P (store (snd (V1.sweep now currentTime w))).
Proof.
  intros B [d fs k out] S. unfold V1.sweep.
  unfold try_catch, bind at 1, find_toArray, db_call.
  destruct fs as [|[e|] fs]; cbn [faults store fst snd tl]; try exact S.
  all: match goal with
       | |- context [for_of ?l ?b ?w] =>
           assert (L : P (store (snd (for_of l b w))))
             by (apply for_of_keeps; [exact B|exact S]);
           destruct (for_of l b w) as [[[]|e'] w']; exact L
       end.
Qed.

(** ** The invariant of the board *)

Lemma has_error_app (l1 l2 : list detail) :
  has_error (l1 ++ l2) = false -> l1 = [] /\ l2 = [].
Proof. destruct l1, l2; simpl; try discriminate; auto. Qed.

Lemma validated_key (s : schema) (o : object) (k : string) (r : string_rule) :
  has_error (validate s o) = false ->
  In (k, r) s ->
  validate_string r (obj_get o k) = [].
Proof.
  unfold validate. intros V I. apply has_error_app in V. destruct V as [V _].
  revert I. induction s as [|[k' r'] s IH]; simpl in *; [contradiction|].
  apply app_eq_nil in V. destruct V as [V1 V2].
  intros [E|I]; [|now apply IH].
  inversion E; subst. now destruct (validate_string r (obj_get o k)).
Qed.

Lemma required_string (v : value) :
  validate_string required v = [] -> nonempty_string v.
Proof.
  destruct v; simpl; try discriminate.
  destruct (s =? "") eqn:E; [discriminate|]. intros _.
  exists s. split; [reflexivity|now apply String.eqb_neq].
Qed.

Lemma nonempty_string_truthy (v : value) : nonempty_string v -> truthy v = true.
Proof.
  intros [s [-> N]]. simpl. now apply negb_true_iff, String.eqb_neq.
Qed.

Lemma nonempty_string_bson (v : value) : nonempty_string v -> bson v = v.
Proof. intros [s [-> _]]. reflexivity. Qed.

Lemma bson_direct (v : value) :
  bson v = VStr "private_message" -> v = VStr "private_message".
Proof. destruct v; simpl; congruence. Qed.

Lemma truthy_bson (v : value) : truthy (bson v) = truthy v.
Proof. now destruct v. Qed.

Lemma named_insert (ps : list (doc participant)) (i : nat) (v t : value) :
  named ps -> truthy v = true ->
  named (ps ++ [{| _id := i; fields := {| name := bson v; lastStatus := t |} |}]).
Proof.
  intros N T p I. apply in_app_or in I. destruct I as [I|[<-|[]]]; [now apply N|].
  simpl. now rewrite truthy_bson.
Qed.

Lemma in_remove_first {A} (f : A -> bool) (l : list A) (x : A) :
  In x (remove_first f l) -> In x l.
Proof.
  induction l as [|a l IH]; simpl; [auto|].
  destruct (f a); [now right|]. intros [E|I]; [now left|right; now apply IH].
Qed.

Lemma named_delete (f : doc participant -> bool) (ps : list (doc participant)) :
  named ps -> named (remove_first f ps).
Proof. intros N p I. apply N. now apply in_remove_first in I. Qed.

Lemma named_touch (f : doc participant -> bool) (t : value)
  (ps : list (doc participant)) :
  named ps ->
  named (update_first f
           (fun x => {| _id := _id x;
                        fields := {| name := name (fields x);
                                     lastStatus := t |} |}) ps).
Proof.
  intro N. induction ps as [|a ps IH]; simpl; [exact N|].
  assert (Na : truthy (name (fields a)) = true) by (apply N; now left).
  assert (Nps : named ps) by (intros q I; apply N; now right).
  destruct (f a); intros p [<-|I]; simpl.
  - exact Na.
  - now apply Nps.
  - exact Na.
  - now apply IH.
Qed.

Lemma addressed_insert (ms : list (doc message)) (i : nat) (m : message) :
  addressed ms ->
  (type m = VStr "private_message" ->
   nonempty_string (from m) /\ nonempty_string (to m)) ->
  addressed (ms ++ [{| _id := i; fields := m |}]).
Proof.
  intros A D x I. apply in_app_or in I. destruct I as [I|[<-|[]]]; [now apply A|].
  exact D.
Qed.

Ltac notice := apply addressed_insert; [assumption | cbn; discriminate].

(** Every handler keeps the store sound, whatever the fate of its store
    operations. *)
Lemma V1_join_sound (name : value) (now : Z) (currentTime : string) (w : world) :
  sound (store w) ->
  sound (store (snd (V1.post_participants name now currentTime w))).
Proof.
  destruct w as [d fs k out]. intros [N A]. unfold V1.post_participants.
  destruct (has_error (validate V1.nameSchema [("name", name)])) eqn:V;
    [now split|].
  assert (T : truthy name = true).
  { apply nonempty_string_truthy, required_string.
    apply (validated_key _ _ "name" required V). now left. }
  run. fates; try (now split);
    destruct (List.find _ (participants d)); cbn -[matches]; fates;
    try (now split); split; cbn; try assumption;
    try (now apply named_insert); notice.
Qed.

Lemma V1_post_sound (user to text type : value) (currentTime : string) (w : world) :
  sound (store w) ->
  sound (store (snd (V1.post_messages user to text type currentTime w))).
Proof.
  destruct w as [d fs k out]. intros [N A]. unfold V1.post_messages.
  destruct (has_error (validate V1.messageSchema _)) eqn:V; [now split|].
  assert (U : nonempty_string user).
  { apply required_string.
    apply (validated_key _ _ "user" required V). now left. }
  assert (R : nonempty_string to).
  { apply required_string.
    apply (validated_key _ _ "to" required V). right; now left. }
  run. fates; try (now split);
    destruct (List.find _ (participants d)); cbn -[matches]; fates;
    try (now split); split; cbn; try assumption;
    apply addressed_insert; try assumption; cbn; intros _;
    now rewrite !nonempty_string_bson.
Qed.

Lemma V1_status_sound (user : value) (now : Z) (w : world) :
  sound (store w) -> sound (store (snd (V1.post_status user now w))).
Proof.
  destruct w as [d fs k out]. intros [N A]. unfold V1.post_status.
  destruct (has_error (validate V1.userSchema [("user", user)])); [now split|].
  run. fates; try (now split);
    destruct (List.find _ (participants d)); cbn -[matches]; fates;
    try (now split); split; cbn -[matches]; try assumption;
    now apply named_touch.
Qed.

Lemma V1_query_sound (user : value) (limit : number) (w : world) :
  sound (store w) -> sound (store (snd (V1.get_messages user limit w))).
Proof.
  destruct w as [d fs k out]. intro S. unfold V1.get_messages.
  destruct (isNaN limit || le0 limit); run; [exact S|]. fates; exact S.
Qed.

Lemma list_sound (w : world) :
  sound (store w) -> sound (store (snd (V1.get_participants w))).
Proof.
  destruct w as [d fs k out]. intro S. unfold V1.get_participants.
  run. fates; exact S.
Qed.

Lemma loop_sound (currentTime : string) (l : list (doc participant)) :
  forall w,
    sound (store w) ->
    sound (store (snd
      (for_of l
         (fun participant =>
            deleteOne c_participants (Field "_id" (EQ (VId (_id participant)))) ;;
            insertOne c_messages
              {| from := name (fields participant); to := VStr "Todos";
                 text := VStr "sai da sala..."; type := VStr "status";
                 time := VStr currentTime |}) w))).
Proof.
  apply for_of_keeps. intros p [d fs k out] [N A]. run.
  fates; try (now split); split; cbn -[matches];
    try (now apply named_delete); try assumption; notice.
Qed.

Lemma sweep_sound (now : Z) (currentTime : string) (w : world) :
  sound (store w) -> sound (store (snd (V1.sweep now currentTime w))).
Proof.
  destruct w as [d fs k out]. intro S. unfold V1.sweep.
  unfold try_catch, bind at 1, find_toArray, db_call.
  destruct fs as [|[e|] fs]; cbn [faults store fst snd tl]; try exact S.
  all: match goal with
       | |- context [for_of ?l ?b ?w] =>
           pose proof (loop_sound currentTime l w S) as L;
           destruct (for_of l b w) as [[[]|e'] w']; exact L
       end.
Qed.

Lemma V1_reachable_sound (d : db) : reachable V1.serve d -> sound d.
Proof.
  induction 1 as [|d req now currentTime fs R IH].
  - split; intros ? [].
  - assert (S : sound (store (boot d fs))) by exact IH.
    revert S. generalize (boot d fs) as w. intros w S.
    destruct req as [name| |user to text type|user limit|user|]; unfold V1.serve, bind, ret.
    + pose proof (V1_join_sound name now currentTime w S) as P.
      now destruct (V1.post_participants name now currentTime w) as [[?|?] ?].
    + pose proof (list_sound w S) as P.
      now destruct (V1.get_participants w) as [[?|?] ?].
    + pose proof (V1_post_sound (header user) to text type currentTime w S) as P.
      now destruct (V1.post_messages _ to text type currentTime w) as [[?|?] ?].
    + pose proof (V1_query_sound (header user) limit w S) as P.
      now destruct (V1.get_messages _ limit w) as [[?|?] ?].
    + pose proof (V1_status_sound (header user) now w S) as P.
      now destruct (V1.post_status _ now w) as [[?|?] ?].
    + now apply sweep_sound.
Qed.

(** The third iteration takes the sender of a post from the [user]
    header as it comes; what it checks of a post is the recipient, the
    text and the type. *)
Lemma delivered_insert (ms : list (doc message)) (i : nat) (m : message) :
  delivered ms ->
  (type m = VStr "private_message" -> nonempty_string (to m)) ->
  delivered (ms ++ [{| _id := i; fields := m |}]).
Proof.
  intros A D x I. apply in_app_or in I. destruct I as [I|[<-|[]]]; [now apply A|].
  exact D.
Qed.

Lemma V3_join_delivered (name : value) (now : Z) (currentTime : string) (w : world) :
  delivered (messages (store w)) ->
  delivered (messages (store (snd (V3.post_participants name now currentTime w)))).
Proof.
  destruct w as [d fs k out]. intro A. unfold V3.post_participants.
  destruct (truthy name) eqn:T; run; [|exact A].
  fates; try exact A;
    destruct (List.find _ (participants d)); cbn -[matches]; fates;
    try exact A; cbn; (apply delivered_insert; [assumption | cbn; discriminate]).
Qed.

Lemma V3_post_delivered (user to text type : value) (currentTime : string)
  (w : world) :
  delivered (messages (store w)) ->
  delivered (messages (store (snd (V3.post_messages user to text type currentTime w)))).
Proof.
  destruct w as [d fs k out]. intro A. unfold V3.post_messages.
  destruct (negb (is_string to) || value_eqb to (VStr "")
            || negb (is_string text) || value_eqb text (VStr "")) eqn:C;
    run; [exact A|].
  destruct (negb (value_eqb type (VStr "message"))
            && negb (value_eqb type (VStr "private_message"))); run; [exact A|].
  assert (R : nonempty_string to).
  { destruct to; try discriminate. simpl in C.
    destruct (s =? "") eqn:E; [discriminate|].
    exists s. split; [reflexivity|now apply String.eqb_neq]. }
  fates; try exact A;
    destruct (List.find _ (participants d)); cbn -[matches]; fates;
    try exact A; cbn; apply delivered_insert; try assumption; cbn; intros _;
    now rewrite (nonempty_string_bson _ R).
Qed.

Lemma V3_status_delivered (user : value) (now : Z) (w : world) :
  delivered (messages (store w)) ->
  delivered (messages (store (snd (V3.post_status user now w)))).
Proof.
  destruct w as [d fs k out]. intro A. unfold V3.post_status.
  destruct (truthy user); run; [|exact A].
  fates; try exact A;
    destruct (List.find _ (participants d)); cbn -[matches]; fates; exact A.
Qed.

Lemma sweep_delivered (now : Z) (currentTime : string) (w : world) :
  delivered (messages (store w)) ->
  delivered (messages (store (snd (V3.sweep now currentTime w)))).
Proof.
  apply (sweep_keeps (fun d => delivered (messages d))).
  intros p [d fs k out] A. run.
  fates; try exact A; cbn; (apply delivered_insert; [assumption | cbn; discriminate]).
Qed.

Lemma V3_reachable_delivered (d : db) :
  reachable V3.serve d -> delivered (messages d).
Proof.
  apply (reachable_keeps V3.serve (fun d => delivered (messages d))).
  - intros ? [].
  - apply (V3_serve_keeps (fun d => delivered (messages d))).
    + apply V3_join_delivered.
    + intros. now apply V3_post_delivered.
    + intros. now apply V3_status_delivered.
    + apply sweep_delivered.
Qed.

Lemma play_reachable (serve : request -> Z -> string -> M unit)
  (script : list (request * Z * string)) :
  forall d, reachable serve d -> reachable serve (play serve script d).
Proof.
  induction script as [|[[req now] currentTime] script IH]; intros d R; [exact R|].
  simpl. apply IH. now constructor.
Qed.

(** C8, as the code has it.  In every store that the first or the third
    iteration can reach, every direct message has a non-empty string as
    its [to]; in the first iteration it has a non-empty string as its
    [from] as well.  Neither has to differ from the name Todos. *)
Theorem direct_messages_go_to_a_name (d : db) (m : doc message) :
  In m (messages d) ->
  direct m ->
  (reachable V1.serve d ->
   nonempty_string (from (fields m)) /\ nonempty_string (to (fields m)))
  /\ (reachable V3.serve d -> nonempty_string (to (fields m))).
Proof.
  intros I D. split; intro R.
  - destruct (V1_reachable_sound d R) as [_ A]. now apply A.
  - now apply (V3_reachable_delivered d R).
Qed.

Lemma direct_messages_go_to_a_name_witness :
  (nonempty_string (VStr "alice") /\ nonempty_string (VStr "Todos"))
  /\ nonempty_string (VStr "Todos").
Proof.
  split.
  - apply (direct_messages_go_to_a_name
             (play V1.serve alice_writes_to_Todos empty_db)
             (private_message 2 "alice" "Todos" "oi" "10:00:02")).
    + right; left; reflexivity.
    + reflexivity.
    + apply play_reachable. constructor.
  - apply (direct_messages_go_to_a_name
             (play V3.serve alice_writes_to_Todos empty_db)
             (private_message 2 "alice" "Todos" "oi" "10:00:02")).
    + right; left; reflexivity.
    + reflexivity.
    + apply play_reachable. constructor.
Defined.

(** C8, as the claim has it, fails.  alice joins and posts a private
    message addressed to Todos; the first iteration stores it. *)
Lemma direct_message_to_Todos_is_stored :
  reachable V1.serve (play V1.serve alice_writes_to_Todos empty_db)
  /\ messages (play V1.serve alice_writes_to_Todos empty_db) =
       [join_notice 1 "alice" "10:00:00";
        private_message 2 "alice" "Todos" "oi" "10:00:02"]
  /\ ~ direct_messages_avoid_Todos (play V1.serve alice_writes_to_Todos empty_db).
Proof.
  split; [apply play_reachable; constructor|]. split; [reflexivity|].
  intro C.
  destruct (C (private_message 2 "alice" "Todos" "oi" "10:00:02")) as [T _].
  - right; left; reflexivity.
  - reflexivity.
  - now apply T.
Qed.

(** ** Identifiers are distinct in every reachable store *)

Lemma numbered_later (ps : list (doc participant)) (n : nat) :
  numbered ps n -> numbered ps (S n).
Proof. intros [D B]. split; [exact D|]. intros p I. specialize (B p I). lia. Qed.

Lemma numbered_insert (ps : list (doc participant)) (n : nat) (a : participant) :
  numbered ps n -> numbered (ps ++ [{| _id := n; fields := a |}]) (S n).
Proof.
  intros [D B]. split.
  - rewrite map_app. simpl. apply NoDup_app; [exact D|repeat constructor; intros []|].
    intros i I [<-|[]]. apply in_map_iff in I. destruct I as [p [E I]].
    specialize (B p I). lia.
  - intros p I. apply in_app_or in I. destruct I as [I|[<-|[]]]; simpl; [|lia].
    specialize (B p I). lia.
Qed.

Lemma NoDup_ids_remove_first {A} (f : doc A -> bool) (l : list (doc A)) :
  NoDup (map _id l) -> NoDup (map _id (remove_first f l)).
Proof.
  induction l as [|a l IH]; simpl; intro N; [constructor|].
  inversion N as [|? ? Fresh N']; subst.
  destruct (f a); [exact N'|]. simpl. constructor; [|now apply IH].
  intro I. apply Fresh. apply in_map_iff in I. destruct I as [x [E I]].
  apply in_map_iff. exists x. split; [exact E|now apply in_remove_first in I].
Qed.

Lemma numbered_delete (f : doc participant -> bool) (ps : list (doc participant))
  (n : nat) :
  numbered ps n -> numbered (remove_first f ps) n.
Proof.
  intros [D B]. split; [now apply NoDup_ids_remove_first|].
  intros p I. apply B. now apply in_remove_first in I.
Qed.

Lemma update_first_ids {A} (f : doc A -> bool) (u : A -> A) (l : list (doc A)) :
  map _id (update_first f (fun x => {| _id := _id x; fields := u (fields x) |}) l)
  = map _id l.
Proof.
  induction l as [|a l IH]; simpl; [reflexivity|].
  destruct (f a); simpl; [reflexivity|now rewrite IH].
Qed.

Lemma numbered_touch (f : doc participant -> bool) (u : participant -> participant)
  (ps : list (doc participant)) (n : nat) :
  numbered ps n ->
  numbered (update_first f (fun x => {| _id := _id x; fields := u (fields x) |}) ps) n.
Proof.
  intros [D B]. split; [now rewrite update_first_ids|].
  intros p I. apply (in_map _id) in I. rewrite update_first_ids in I.
  apply in_map_iff in I. destruct I as [q [E I]]. rewrite <- E. now apply B.
Qed.

Ltac count :=
  unfold distinct_ids; cbn -[matches];
  eauto 6 using numbered_later, numbered_insert, numbered_delete, numbered_touch.

Lemma V1_join_ids (name : value) (now : Z) (currentTime : string) (w : world) :
  distinct_ids (store w) ->
  distinct_ids (store (snd (V1.post_participants name now currentTime w))).
Proof.
  destruct w as [d fs k out]. intro N. unfold V1.post_participants.
  destruct (has_error (validate V1.nameSchema [("name", name)])); [exact N|].
  run. fates; try exact N;
    destruct (List.find _ (participants d)); cbn -[matches]; fates;
    try exact N; count.
Qed.

Lemma V3_join_ids (name : value) (now : Z) (currentTime : string) (w : world) :
  distinct_ids (store w) ->
  distinct_ids (store (snd (V3.post_participants name now currentTime w))).
Proof.
  destruct w as [d fs k out]. intro N. unfold V3.post_participants.
  destruct (truthy name); run; [|exact N].
  fates; try exact N;
    destruct (List.find _ (participants d)); cbn -[matches]; fates;
    try exact N; count.
Qed.

Lemma V1_post_ids (user to text type : value) (currentTime : string) (w : world) :
  distinct_ids (store w) ->
  distinct_ids (store (snd (V1.post_messages user to text type currentTime w))).
Proof.
  destruct w as [d fs k out]. intro N. unfold V1.post_messages.
  destruct (has_error (validate V1.messageSchema _)); [exact N|].
  run. fates; try exact N;
    destruct (List.find _ (participants d)); cbn -[matches]; fates;
    try exact N; count.
Qed.

Lemma V3_post_ids (user to text type : value) (currentTime : string) (w : world) :
  distinct_ids (store w) ->
  distinct_ids (store (snd (V3.post_messages user to text type currentTime w))).
Proof.
  destruct w as [d fs k out]. intro N. unfold V3.post_messages.
  destruct (negb (is_string to) || value_eqb to (VStr "")
            || negb (is_string text) || value_eqb text (VStr ""));
    run; [exact N|].
  destruct (negb (value_eqb type (VStr "message"))
            && negb (value_eqb type (VStr "private_message"))); run; [exact N|].
  fates; try exact N;
    destruct (List.find _ (participants d)); cbn -[matches]; fates;
    try exact N; count.
Qed.

Lemma V1_status_ids (user : value) (now : Z) (w : world) :
  distinct_ids (store w) -> distinct_ids (store (snd (V1.post_status user now w))).
Proof.
  destruct w as [d fs k out]. intro N. unfold V1.post_status.
  destruct (has_error (validate V1.userSchema [("user", user)])); [exact N|].
  run. fates; try exact N;
    destruct (List.find _ (participants d)); cbn -[matches]; fates;
    try exact N;
    exact (numbered_touch _ (fun p => {| name := name p; lastStatus := VNum now |})
             _ _ N).
Qed.

Lemma V3_status_ids (user : value) (now : Z) (w : world) :
  distinct_ids (store w) -> distinct_ids (store (snd (V3.post_status user now w))).
Proof.
  destruct w as [d fs k out]. intro N. unfold V3.post_status.
  destruct (truthy user); run; [|exact N].
  fates; try exact N;
    destruct (List.find _ (participants d)); cbn -[matches]; fates;
    try exact N;
    exact (numbered_touch _ (fun p => {| name := name p; lastStatus := VNum now |})
             _ _ N).
Qed.

Lemma sweep_ids (now : Z) (currentTime : string) (w : world) :
  distinct_ids (store w) -> distinct_ids (store (snd (V1.sweep now currentTime w))).
Proof.
  destruct w as [d fs k out]. intro N. unfold V1.sweep.
  unfold try_catch, bind at 1, find_toArray, db_call.
  destruct fs as [|[e|] fs]; cbn [faults store fst snd tl]; try exact N.
  all: match goal with
       | |- context [for_of ?l ?b ?w] =>
           assert (L : distinct_ids (store (snd (for_of l b w))));
           [ apply for_of_keeps; [|exact N];
             intros p [d1 fs1 k1 out1] N1; run; fates; try exact N1; count
           | destruct (for_of l b w) as [[[]|e'] w']; exact L ]
       end.
Qed.

Lemma V1_reachable_ids (d : db) : reachable V1.serve d -> distinct_ids d.
Proof.
  induction 1 as [|d req now currentTime fs R IH].
  - split; [constructor|intros ? []].
  - assert (S : distinct_ids (store (boot d fs))) by exact IH.
    revert S. generalize (boot d fs) as w. intros w S.
    destruct req as [name| |user to text type|user limit|user|]; unfold V1.serve, bind, ret.
    + pose proof (V1_join_ids name now currentTime w S) as P.
      now destruct (V1.post_participants name now currentTime w) as [[?|?] ?].
    + destruct w as [d0 fs0 k out]. unfold V1.get_participants. run. fates; exact S.
    + pose proof (V1_post_ids (header user) to text type currentTime w S) as P.
      now destruct (V1.post_messages _ to text type currentTime w) as [[?|?] ?].
    + destruct w as [d0 fs0 k out]. unfold V1.get_messages.
      destruct (isNaN limit || le0 limit); run; [exact S|]. fates; exact S.
    + pose proof (V1_status_ids (header user) now w S) as P.
      now destruct (V1.post_status _ now w) as [[?|?] ?].
    + now apply sweep_ids.
Qed.

Lemma V3_reachable_ids (d : db) : reachable V3.serve d -> distinct_ids d.
Proof.
  induction 1 as [|d req now currentTime fs R IH].
  - split; [constructor|intros ? []].
  - assert (S : distinct_ids (store (boot d fs))) by exact IH.
    revert S. generalize (boot d fs) as w. intros w S.
    destruct req as [name| |user to text type|user limit|user|]; unfold V3.serve, bind, ret.
    + pose proof (V3_join_ids name now currentTime w S) as P.
      now destruct (V3.post_participants name now currentTime w) as [[?|?] ?].
    + destruct w as [d0 fs0 k out]. unfold V3.get_participants. run. fates; exact S.
    + pose proof (V3_post_ids (header user) to text type currentTime w S) as P.
      now destruct (V3.post_messages _ to text type currentTime w) as [[?|?] ?].
    + destruct w as [d0 fs0 k out]. unfold V3.get_messages.
      destruct (isNaN limit || le0 limit); run; [exact S|]. fates; exact S.
    + pose proof (V3_status_ids (header user) now w S) as P.
      now destruct (V3.post_status _ now w) as [[?|?] ?].
    + now apply sweep_ids.
Qed.

(** The hypothesis of the theorems on the sweep holds of every store the
    servers can reach. *)
Lemma reachable_distinct_ids (d : db) :
  reachable V1.serve d \/ reachable V3.serve d ->
  NoDup (map _id (participants d)).
Proof.
  intros [R|R]; [apply V1_reachable_ids in R|apply V3_reachable_ids in R];
    exact (proj1 R).
Qed.

(** * Further properties of the handlers *)

(** ** Listing the participants *)

Lemma empty_query_matches_all {A} `{Document A} (l : list (doc A)) :
  List.filter (matches (AND [])) l = l.
Proof. apply filter_all. reflexivity. Qed.

(** X1.  In the three iterations the list of the participants issues one
    read and never changes the store: it answers 200 with the whole
    directory, in the order of the store, or 500 with the message of the
    error when the read fails. *)
Theorem list_answers_the_whole_directory
  (get : M response) (w : world) :
  In get [V1.get_participants; V2.get_participants; V3.get_participants] ->
  exists r w',
    get w = (Done r, w')
    /\ store w' = store w
    /\ ops w' = S (ops w)
    /\ match hd None (faults w) with
       | None => r = send 200 (Participants (participants (store w)))
       | Some e => r = send 500 (Text (error_message e))
       end.
Proof.
  intro variant.
  assert (V : get = V1.get_participants)
    by (destruct variant as [<-|[<-|[<-|[]]]]; reflexivity).
  subst get. destruct w as [d fs k out]. unfold V1.get_participants. run.
  destruct fs as [|[e|] fs]; cbn -[matches]; eexists; eexists;
    repeat split; now rewrite ?empty_query_matches_all.
Qed.

Lemma list_answers_the_whole_directory_witness :
  exists w',
    V2.get_participants (boot (play V1.serve alice_and_bob_join empty_db) []) =
      (Done (send 200 (Participants
         [{| _id := 0; fields := {| name := VStr "alice"; lastStatus := VNum 1000 |} |};
          {| _id := 2; fields := {| name := VStr "bob"; lastStatus := VNum 2000 |} |}])),
       w').
Proof.
  destruct (list_answers_the_whole_directory V2.get_participants
              (boot (play V1.serve alice_and_bob_join empty_db) [])
              (or_intror (or_introl eq_refl)))
    as [r [w' [E [_ [_ R]]]]].
  exists w'. simpl in R. now rewrite <- R.
Defined.

(** ** Posting a message *)

Lemma message_required_ok (u t x ty : string) :
  u <> "" -> t <> "" -> x <> "" -> ty = "message" \/ ty = "private_message" ->
  validate V1.messageSchema
    [("user", VStr u); ("to", VStr t); ("text", VStr x); ("type", VStr ty)] = [].
Proof.
  intros U T X Y. apply String.eqb_neq in U, T, X.
  unfold validate. cbn. rewrite U, T, X.
  destruct Y as [->| ->]; reflexivity.
Qed.

Lemma V1_post_stored (u t x ty currentTime : string) (w : world) :
  u <> "" -> t <> "" -> x <> "" -> ty = "message" \/ ty = "private_message" ->
  faults w = [] ->
  registered (VStr u) (store w) ->
  V1.post_messages (VStr u) (VStr t) (VStr x) (VStr ty) currentTime w =
    (Done (sendStatus 201),
     {| store :=
          {| participants := participants (store w);
             messages :=
               messages (store w)
               ++ [{| _id := next_id (store w);
                      fields := post_of (VStr u) (VStr t) (VStr x) (VStr ty) currentTime |}];
             next_id := S (next_id (store w)) |};
        faults := []; ops := 2 + ops w; console := console w |}).
Proof.
  intros U T X Y calm known.
  unfold V1.post_messages. rewrite (message_required_ok u t x ty U T X Y).
  destruct w as [d fs k out]. simpl in calm. subst fs.
  destruct (registered_found (VStr u) _ known) as [p F]. cbn [store] in F.
  run. rewrite F. reflexivity.
Qed.

Lemma V3_post_stored (u t x ty currentTime : string) (w : world) :
  u <> "" -> t <> "" -> x <> "" -> ty = "message" \/ ty = "private_message" ->
  faults w = [] ->
  registered (VStr u) (store w) ->
  V3.post_messages (VStr u) (VStr t) (VStr x) (VStr ty) currentTime w =
    (Done (sendStatus 201),
     {| store :=
          {| participants := participants (store w);
             messages :=
               messages (store w)
               ++ [{| _id := next_id (store w);
                      fields := post_of (VStr u) (VStr t) (VStr x) (VStr ty) currentTime |}];
             next_id := S (next_id (store w)) |};
        faults := []; ops := 2 + ops w; console := console w |}).
Proof.
  intros U T X Y calm known. apply String.eqb_neq in T, X.
  unfold V3.post_messages.
  destruct w as [d fs k out]. simpl in calm. subst fs.
  destruct (registered_found (VStr u) _ known) as [p F]. cbn [store] in F.
  run. rewrite T, X. cbn -[matches].
  destruct Y as [->| ->]; cbn -[matches]; rewrite F; reflexivity.
Qed.

(** X2.  In the first and third iterations, when no store operation
    fails, a post by a registered sender with a non-empty [to], a
    non-empty [text] and the type message or private_message answers 201
    and appends exactly one message to the board, with the fields as
    sent and the time of the request; the directory is unchanged. *)
Theorem post_appends_the_message_as_sent
  (post : value -> value -> value -> value -> string -> M response)
  (u t x ty currentTime : string) (w : world) :
  In post [V1.post_messages; V3.post_messages] ->
  u <> "" -> t <> "" -> x <> "" ->
  ty = "message" \/ ty = "private_message" ->
  faults w = [] ->
  registered (VStr u) (store w) ->
  exists w',
    post (VStr u) (VStr t) (VStr x) (VStr ty) currentTime w
      = (Done (sendStatus 201), w')
    /\ participants (store w') = participants (store w)
    /\ messages (store w') =
         messages (store w)
         ++ [{| _id := next_id (store w);
                fields := {| from := VStr u; to := VStr t; text := VStr x;
                             type := VStr ty; time := VStr currentTime |} |}].
Proof.
  intros variant U T X Y calm known. eexists. split.
  - destruct variant as [<-|[<-|[]]];
      [now apply V1_post_stored | now apply V3_post_stored].
  - split; reflexivity.
Qed.

Lemma post_appends_the_message_as_sent_witness :
  exists w',
    V3.post_messages (VStr "alice") (VStr "Todos") (VStr "oi") (VStr "message")
      "10:00:02" (boot (play V3.serve alice_and_bob_join empty_db) [])
      = (Done (sendStatus 201), w')
    /\ messages (store w') =
         messages (play V3.serve alice_and_bob_join empty_db)
         ++ [{| _id := 4;
                fields := {| from := VStr "alice"; to := VStr "Todos";
                             text := VStr "oi"; type := VStr "message";
                             time := VStr "10:00:02" |} |}].
Proof.
  destruct (post_appends_the_message_as_sent V3.post_messages
              "alice" "Todos" "oi" "message" "10:00:02"
              (boot (play V3.serve alice_and_bob_join empty_db) []))
    as [w' [E [_ B]]].
  - right; left; reflexivity.
  - discriminate.
  - discriminate.
  - discriminate.
  - now left.
  - reflexivity.
  - eexists. split; [left; reflexivity|reflexivity].
  - exists w'. split; [exact E|exact B].
Defined.

Lemma only_refuses (v : value) :
  v <> VStr "message" -> v <> VStr "private_message" ->
  validate_string (required_only ["message"; "private_message"]) v <> [].
Proof.
  intros M P. destruct v; simpl; try discriminate.
  destruct (s =? "message") eqn:E1; [apply String.eqb_eq in E1; congruence|].
  destruct (s =? "private_message") eqn:E2; [apply String.eqb_eq in E2; congruence|].
  simpl. discriminate.
Qed.

Lemma key_refused (s : schema) (o : object) (k : string) (r : string_rule) :
  In (k, r) s ->
  validate_string r (obj_get o k) <> [] ->
  has_error (validate s o) = true.
Proof.
  intros I N. destruct (has_error (validate s o)) eqn:E; [reflexivity|].
  exfalso. apply N. exact (validated_key s o k r E I).
Qed.

Lemma not_nonempty_string (v : value) :
  ~ nonempty_string v -> is_string v = false \/ v = VStr "".
Proof.
  intro N. destruct v; auto. destruct (String.eqb_spec s ""); [subst; auto|].
  exfalso. apply N. now exists s.
Qed.

Lemma required_refuses (v : value) :
  ~ nonempty_string v -> validate_string required v <> [].
Proof.
  intro N. destruct v; simpl; try discriminate.
  destruct (s =? "") eqn:E; [discriminate|].
  exfalso. apply N. exists s. split; [reflexivity|now apply String.eqb_neq].
Qed.

(** X3.  In the first and third iterations a post whose [to] or [text]
    is not a non-empty string, or whose type is neither message nor
    private_message (status, for one), answers 422 before any store
    operation: the world is as it was.  A participant cannot write a
    notice of the server. *)
Theorem post_of_a_malformed_message_is_refused
  (post : value -> value -> value -> value -> string -> M response)
  (user to text type : value) (currentTime : string) (w : world) :
  In post [V1.post_messages; V3.post_messages] ->
  ~ nonempty_string to
  \/ ~ nonempty_string text
  \/ (type <> VStr "message" /\ type <> VStr "private_message") ->
  exists r, post user to text type currentTime w = (Done r, w) /\ status r = 422.
Proof.
  intros variant bad. destruct variant as [<-|[<-|[]]].
  - unfold V1.post_messages.
    assert (E : has_error (validate V1.messageSchema
                 [("user", user); ("to", to); ("text", text); ("type", type)]) = true).
    { destruct bad as [B|[B|[B1 B2]]].
      - apply (key_refused _ _ "to" required); [right; now left|].
        now apply required_refuses.
      - apply (key_refused _ _ "text" required); [right; right; now left|].
        now apply required_refuses.
      - apply (key_refused _ _ "type" (required_only ["message"; "private_message"]));
          [right; right; right; now left|].
        now apply only_refuses. }
    rewrite E. eexists. split; reflexivity.
  - unfold V3.post_messages, try_catch.
    destruct (negb (is_string to) || value_eqb to (VStr "")
              || negb (is_string text) || value_eqb text (VStr "")) eqn:C.
    + eexists. split; reflexivity.
    + destruct (negb (value_eqb type (VStr "message"))
                && negb (value_eqb type (VStr "private_message"))) eqn:D.
      * eexists. split; reflexivity.
      * exfalso. apply orb_false_iff in C. destruct C as [C C4].
        apply orb_false_iff in C. destruct C as [C C3].
        apply orb_false_iff in C. destruct C as [C1 C2].
        destruct bad as [B|[B|[B1 B2]]].
        -- apply not_nonempty_string in B. destruct B as [B| ->].
           ++ rewrite B in C1. discriminate.
           ++ discriminate.
        -- apply not_nonempty_string in B. destruct B as [B| ->].
           ++ rewrite B in C3. discriminate.
           ++ discriminate.
        -- apply value_eqb_neq in B1, B2. rewrite B1, B2 in D. discriminate.
Qed.

Lemma post_of_a_malformed_message_is_refused_witness :
  exists r,
    V3.post_messages (VStr "alice") (VStr "Todos") (VStr "sai da sala...")
      (VStr "status") "10:00:02"
      (boot (play V3.serve alice_and_bob_join empty_db) [])
      = (Done r, boot (play V3.serve alice_and_bob_join empty_db) [])
    /\ status r = 422.
Proof.
  apply (post_of_a_malformed_message_is_refused V3.post_messages).
  - right; left; reflexivity.
  - right; right. split; discriminate.
Defined.

Lemma V1_post_by_stranger (user to text type : value) (currentTime : string)
  (w : world) :
  faults w = [] ->
  ~ registered (bson user) (store w) ->
  exists r w',
    V1.post_messages user to text type currentTime w = (Done r, w')
    /\ status r = 422 /\ store w' = store w.
Proof.
  intros calm unknown. destruct w as [d fs k out]. simpl in calm. subst fs.
  unfold V1.post_messages.
  destruct (has_error (validate V1.messageSchema _)).
  - eexists; eexists. split; [reflexivity|]. split; reflexivity.
  - run. rewrite (unregistered_not_found user d unknown).
    eexists; eexists. split; [reflexivity|]. split; reflexivity.
Qed.

Lemma V3_post_by_stranger (user to text type : value) (currentTime : string)
  (w : world) :
  faults w = [] ->
  strings (store w) ->
  ~ registered (bson user) (store w) ->
  exists r w',
    V3.post_messages user to text type currentTime w = (Done r, w')
    /\ status r = 422 /\ store w' = store w.
Proof.
  intros calm _ unknown. destruct w as [d fs k out]. simpl in calm. subst fs.
  unfold V3.post_messages.
  destruct (negb (is_string to) || value_eqb to (VStr "")
            || negb (is_string text) || value_eqb text (VStr "")); run.
  - eexists; eexists. split; [reflexivity|]. split; reflexivity.
  - destruct (negb (value_eqb type (VStr "message"))
              && negb (value_eqb type (VStr "private_message"))); run.
    + eexists; eexists. split; [reflexivity|]. split; reflexivity.
    + rewrite (unregistered_not_found user d unknown).
      eexists; eexists. split; [reflexivity|]. split; reflexivity.
Qed.

(** X4.  In the first and third iterations, on a directory of strings
    and when no store operation fails, a post under a name that the
    directory does not hold (or with no user header) answers 422,
    whatever the message, and leaves the store as it was. *)
Theorem post_by_a_stranger_is_refused
  (post : value -> value -> value -> value -> string -> M response)
  (user to text type : value) (currentTime : string) (w : world) :
  In post [V1.post_messages; V3.post_messages] ->
  faults w = [] ->
  strings (store w) ->
  ~ registered (bson user) (store w) ->
  exists r w',
    post user to text type currentTime w = (Done r, w')
    /\ status r = 422 /\ store w' = store w.
Proof.
  intros [<-|[<-|[]]] calm St unknown;
    [now apply V1_post_by_stranger | now apply V3_post_by_stranger].
Qed.

Lemma post_by_a_stranger_is_refused_witness :
  exists r w',
    V3.post_messages (VStr "carol") (VStr "Todos") (VStr "oi") (VStr "message")
      "10:00:02" (boot (play V3.serve alice_and_bob_join empty_db) [])
      = (Done r, w')
    /\ status r = 422
    /\ store w' = play V3.serve alice_and_bob_join empty_db.
Proof.
  apply (post_by_a_stranger_is_refused V3.post_messages).
  - right; left; reflexivity.
  - reflexivity.
  - intros p [<-|[<-|[]]]; reflexivity.
  - intros [p [[<-|[<-|[]]] E]]; discriminate.
Defined.

(** ** More invariants of the reachable stores *)

(** *** The types of the messages *)

Lemma well_typed_insert (ms : list (doc message)) (i : nat) (m : message) :
  well_typed ms -> system_notice m \/ posted_message m ->
  well_typed (ms ++ [{| _id := i; fields := m |}]).
Proof.
  intros W T x I. apply in_app_or in I. destruct I as [I|[<-|[]]]; [now apply W|].
  exact T.
Qed.

Lemma only_accepts (v : value) :
  validate_string (required_only ["message"; "private_message"]) v = [] ->
  v = VStr "message" \/ v = VStr "private_message".
Proof.
  destruct v; simpl; try discriminate.
  destruct (s =? "message") eqn:E1; [apply String.eqb_eq in E1; subst; auto|].
  destruct (s =? "private_message") eqn:E2; [apply String.eqb_eq in E2; subst; auto|].
  simpl. destruct (s =? ""); discriminate.
Qed.

Lemma posted_bson (user to text type : value) (currentTime : string) :
  nonempty_string user -> nonempty_string to -> nonempty_string text ->
  type = VStr "message" \/ type = VStr "private_message" ->
  posted_message
    {| from := bson user; to := bson to; text := bson text; type := bson type;
       time := VStr currentTime |}.
Proof.
  intros U T X Y. rewrite !nonempty_string_bson by assumption.
  unfold posted_message. cbn. destruct Y as [->| ->]; auto.
Qed.

Ltac noticed :=
  apply well_typed_insert;
  [assumption | left; unfold system_notice; cbn; solve [auto]].

Lemma V1_join_board (name : value) (now : Z) (currentTime : string) (w : world) :
  board_ok (store w) ->
  board_ok (store (snd (V1.post_participants name now currentTime w))).
Proof.
  destruct w as [d fs k out]. intros [N W]. unfold V1.post_participants.
  destruct (has_error (validate V1.nameSchema [("name", name)])) eqn:V;
    [now split|].
  assert (T : truthy name = true).
  { apply nonempty_string_truthy, required_string.
    apply (validated_key _ _ "name" required V). now left. }
  run. fates; try (now split);
    destruct (List.find _ (participants d)); cbn -[matches]; fates;
    try (now split); split; cbn; try assumption;
    try (now apply named_insert); noticed.
Qed.

Lemma V1_post_board (user to text type : value) (currentTime : string) (w : world) :
  board_ok (store w) ->
  board_ok (store (snd (V1.post_messages user to text type currentTime w))).
Proof.
  destruct w as [d fs k out]. intros [N W]. unfold V1.post_messages.
  destruct (has_error (validate V1.messageSchema _)) eqn:V; [now split|].
  assert (U : nonempty_string user).
  { apply required_string.
    apply (validated_key _ _ "user" required V). now left. }
  assert (R : nonempty_string to).
  { apply required_string.
    apply (validated_key _ _ "to" required V). right; now left. }
  assert (X : nonempty_string text).
  { apply required_string.
    apply (validated_key _ _ "text" required V). right; right; now left. }
  assert (Y : type = VStr "message" \/ type = VStr "private_message").
  { apply only_accepts.
    apply (validated_key _ _ "type" _ V). right; right; right; now left. }
  run. fates; try (now split);
    destruct (List.find _ (participants d)); cbn -[matches]; fates;
    try (now split); split; cbn; try assumption;
    apply well_typed_insert; try assumption; right; now apply posted_bson.
Qed.

Lemma V3_checked (to text type : value) :
  negb (is_string to) || value_eqb to (VStr "")
  || negb (is_string text) || value_eqb text (VStr "") = false ->
  negb (value_eqb type (VStr "message"))
  && negb (value_eqb type (VStr "private_message")) = false ->
  nonempty_string to /\ nonempty_string text
  /\ (type = VStr "message" \/ type = VStr "private_message").
Proof.
  intros C D.
  apply orb_false_iff in C. destruct C as [C C4].
  apply orb_false_iff in C. destruct C as [C C3].
  apply orb_false_iff in C. destruct C as [C1 C2].
  repeat split.
  - destruct to; try discriminate. exists s. split; [reflexivity|].
    intros ->. discriminate.
  - destruct text; try discriminate. exists s. split; [reflexivity|].
    intros ->. discriminate.
  - destruct (value_eqb type (VStr "message")) eqn:E1;
      [apply value_eqb_eq in E1; auto|].
    destruct (value_eqb type (VStr "private_message")) eqn:E2;
      [apply value_eqb_eq in E2; auto|discriminate].
Qed.

Lemma V1_status_board (user : value) (now : Z) (w : world) :
  board_ok (store w) -> board_ok (store (snd (V1.post_status user now w))).
Proof.
  destruct w as [d fs k out]. intros [N W]. unfold V1.post_status.
  destruct (has_error (validate V1.userSchema [("user", user)])); [now split|].
  run. fates; try (now split);
    destruct (List.find _ (participants d)); cbn -[matches]; fates;
    try (now split); split; cbn -[matches]; try assumption;
    now apply named_touch.
Qed.

Lemma sweep_board (now : Z) (currentTime : string) (w : world) :
  board_ok (store w) -> board_ok (store (snd (V1.sweep now currentTime w))).
Proof.
  apply sweep_keeps. intros p [d fs k out] [N W]. run.
  fates; try (now split); split; cbn -[matches];
    try (now apply named_delete); try assumption; noticed.
Qed.

Lemma empty_board_ok : board_ok empty_db.
Proof. split; intros ? []. Qed.

Lemma V1_reachable_board_ok (d : db) : reachable V1.serve d -> board_ok d.
Proof.
  apply (reachable_keeps V1.serve board_ok empty_board_ok).
  apply V1_serve_keeps.
  - apply V1_join_board.
  - intros. now apply V1_post_board.
  - intros. now apply V1_status_board.
  - apply sweep_board.
Qed.

Lemma typed_insert (ms : list (doc message)) (i : nat) (m : message) :
  typed ms -> system_notice m \/ checked_message m ->
  typed (ms ++ [{| _id := i; fields := m |}]).
Proof.
  intros W T x I. apply in_app_or in I. destruct I as [I|[<-|[]]]; [now apply W|].
  exact T.
Qed.

Ltac announced :=
  apply typed_insert;
  [assumption | left; unfold system_notice; cbn; solve [auto]].

Lemma V3_join_typed (name : value) (now : Z) (currentTime : string) (w : world) :
  typed (messages (store w)) ->
  typed (messages (store (snd (V3.post_participants name now currentTime w)))).
Proof.
  destruct w as [d fs k out]. intro W. unfold V3.post_participants.
  destruct (truthy name) eqn:T; run; [|exact W].
  fates; try exact W;
    destruct (List.find _ (participants d)); cbn -[matches]; fates;
    try exact W; cbn; announced.
Qed.

Lemma V3_post_typed (user to text type : value) (currentTime : string) (w : world) :
  typed (messages (store w)) ->
  typed (messages (store (snd (V3.post_messages user to text type currentTime w)))).
Proof.
  destruct w as [d fs k out]. intro W. unfold V3.post_messages.
  destruct (negb (is_string to) || value_eqb to (VStr "")
            || negb (is_string text) || value_eqb text (VStr "")) eqn:C;
    run; [exact W|].
  destruct (negb (value_eqb type (VStr "message"))
            && negb (value_eqb type (VStr "private_message"))) eqn:D;
    run; [exact W|].
  destruct (V3_checked to text type C D) as [R [X Y]].
  fates; try exact W;
    destruct (List.find _ (participants d)); cbn -[matches]; fates;
    try exact W; cbn; apply typed_insert; try assumption; right;
    unfold checked_message; cbn;
    rewrite (nonempty_string_bson _ R), (nonempty_string_bson _ X);
    destruct Y as [->| ->]; auto.
Qed.

Lemma V3_status_typed (user : value) (now : Z) (w : world) :
  typed (messages (store w)) ->
  typed (messages (store (snd (V3.post_status user now w)))).
Proof.
  destruct w as [d fs k out]. intro W. unfold V3.post_status.
  destruct (truthy user); run; [|exact W].
  fates; try exact W;
    destruct (List.find _ (participants d)); cbn -[matches]; fates; exact W.
Qed.

Lemma sweep_typed (now : Z) (currentTime : string) (w : world) :
  typed (messages (store w)) ->
  typed (messages (store (snd (V3.sweep now currentTime w)))).
Proof.
  apply (sweep_keeps (fun d => typed (messages d))).
  intros p [d fs k out] W. run.
  fates; try exact W; cbn; announced.
Qed.

Lemma V3_reachable_typed (d : db) : reachable V3.serve d -> typed (messages d).
Proof.
  apply (reachable_keeps V3.serve (fun d => typed (messages d))).
  - intros ? [].
  - apply (V3_serve_keeps (fun d => typed (messages d))).
    + apply V3_join_typed.
    + intros. now apply V3_post_typed.
    + intros. now apply V3_status_typed.
    + apply sweep_typed.
Qed.

(** X5.  In every store that the first or the third iteration can reach,
    a message of the board is either a notice of the server (type status,
    addressed to Todos, with the text entra na sala... or sai da
    sala...) or a posted message (type message or private_message, with
    non-empty strings as its to and text).  In the first iteration the
    from of a posted message is a non-empty string as well; the third
    takes it from the user header as it comes.  The type status is kept
    for the server. *)
Theorem board_holds_notices_and_posted_messages (d : db) (m : doc message) :
  In m (messages d) ->
  (reachable V1.serve d ->
   (type (fields m) = VStr "status"
    /\ to (fields m) = VStr "Todos"
    /\ (text (fields m) = VStr "entra na sala..."
        \/ text (fields m) = VStr "sai da sala..."))
   \/ ((type (fields m) = VStr "message" \/ type (fields m) = VStr "private_message")
       /\ nonempty_string (from (fields m))
       /\ nonempty_string (to (fields m))
       /\ nonempty_string (text (fields m))))
  /\ (reachable V3.serve d ->
      (type (fields m) = VStr "status"
       /\ to (fields m) = VStr "Todos"
       /\ (text (fields m) = VStr "entra na sala..."
           \/ text (fields m) = VStr "sai da sala..."))
      \/ ((type (fields m) = VStr "message"
           \/ type (fields m) = VStr "private_message")
          /\ nonempty_string (to (fields m))
          /\ nonempty_string (text (fields m)))).
Proof.
  intro I. split; intro R.
  - destruct (V1_reachable_board_ok d R) as [_ W]. exact (W m I).
  - exact (V3_reachable_typed d R m I).
Qed.

Lemma board_holds_notices_and_posted_messages_witness :
  ((VStr "private_message" = VStr "status"
    /\ VStr "bob" = VStr "Todos"
    /\ (VStr "oi" = VStr "entra na sala..." \/ VStr "oi" = VStr "sai da sala..."))
   \/ ((VStr "private_message" = VStr "message"
        \/ VStr "private_message" = VStr "private_message")
       /\ nonempty_string (VStr "alice")
       /\ nonempty_string (VStr "bob")
       /\ nonempty_string (VStr "oi")))
  /\ ((VStr "status" = VStr "status"
       /\ VStr "Todos" = VStr "Todos"
       /\ (VStr "entra na sala..." = VStr "entra na sala..."
           \/ VStr "entra na sala..." = VStr "sai da sala..."))
      \/ ((VStr "status" = VStr "message" \/ VStr "status" = VStr "private_message")
          /\ nonempty_string (VStr "Todos")
          /\ nonempty_string (VStr "entra na sala..."))).
Proof.
  split.
  - apply (board_holds_notices_and_posted_messages
             (play V1.serve alice_writes_to_bob empty_db)
             (private_message 4 "alice" "bob" "oi" "10:00:03")).
    + right; right; left; reflexivity.
    + apply play_reachable. constructor.
  - apply (board_holds_notices_and_posted_messages
             (play V3.serve the_number_5_joins empty_db)
             {| _id := 1; fields := entered_the_room (VNum 5) "10:00:00" |}).
    + left; reflexivity.
    + apply play_reachable. constructor.
Defined.

(** *** The names of the directory *)

Lemma listed_insert (Q : value -> Prop) (ps : list (doc participant))
  (i : nat) (v t : value) :
  listed Q ps ->
  List.find (matches (Field "name" (EQ v))) ps = None ->
  Q (bson v) ->
  listed Q (ps ++ [{| _id := i; fields := {| name := bson v; lastStatus := t |} |}]).
Proof.
  intros [D A] F Qv. split.
  - unfold names. rewrite map_app. simpl.
    apply NoDup_app; [exact D|repeat constructor; intros []|].
    intros x I [<-|[]]. apply in_map_iff in I. destruct I as [p [E I]].
    pose proof (find_none _ _ F p I) as M. rewrite matches_name, E in M.
    rewrite value_eqb_refl in M. discriminate.
  - intros p I. apply in_app_or in I. destruct I as [I|[<-|[]]]; [now apply A|].
    exact Qv.
Qed.

Lemma NoDup_names_remove_first (f : doc participant -> bool)
  (ps : list (doc participant)) :
  NoDup (names ps) -> NoDup (names (remove_first f ps)).
Proof.
  induction ps as [|a ps IH]; simpl; intro N; [constructor|].
  inversion N as [|? ? Fresh N']; subst.
  destruct (f a); [exact N'|]. simpl. constructor; [|now apply IH].
  intro I. apply Fresh. apply in_map_iff in I. destruct I as [x [E I]].
  apply in_map_iff. exists x. split; [exact E|now apply in_remove_first in I].
Qed.

Lemma listed_delete (Q : value -> Prop) (f : doc participant -> bool)
  (ps : list (doc participant)) :
  listed Q ps -> listed Q (remove_first f ps).
Proof.
  intros [D A]. split; [now apply NoDup_names_remove_first|].
  intros p I. apply A. now apply in_remove_first in I.
Qed.

Lemma names_touch (f : doc participant -> bool) (t : value)
  (ps : list (doc participant)) :
  names (update_first f
           (fun x => {| _id := _id x;
                        fields := {| name := name (fields x); lastStatus := t |} |})
           ps)
  = names ps.
Proof.
  induction ps as [|a ps IH]; simpl; [reflexivity|].
  destruct (f a); simpl; [reflexivity|now rewrite IH].
Qed.

Lemma listed_touch (Q : value -> Prop) (f : doc participant -> bool) (t : value)
  (ps : list (doc participant)) :
  listed Q ps ->
  listed Q (update_first f
              (fun x => {| _id := _id x;
                           fields := {| name := name (fields x); lastStatus := t |} |})
              ps).
Proof.
  intros [D A]. split; [now rewrite names_touch|].
  induction ps as [|a ps IH]; simpl; [intros ? []|].
  assert (Aa : Q (name (fields a))) by (apply A; now left).
  assert (Aps : forall p, In p ps -> Q (name (fields p)))
    by (intros q I; apply A; now right).
  inversion D; subst.
  destruct (f a); intros p [<-|I]; simpl; auto.
Qed.

Ltac directory :=
  unfold directory_ok in *; cbn -[matches] in *;
  first [ assumption
        | now apply listed_delete
        | now apply listed_touch ].

Lemma V1_join_directory (name : value) (now : Z) (currentTime : string) (w : world) :
  directory_ok nonempty_string (store w) ->
  directory_ok nonempty_string
    (store (snd (V1.post_participants name now currentTime w))).
Proof.
  destruct w as [d fs k out]. intro D. unfold V1.post_participants.
  destruct (has_error (validate V1.nameSchema [("name", name)])) eqn:V;
    [exact D|].
  assert (T : nonempty_string name).
  { apply required_string.
    apply (validated_key _ _ "name" required V). now left. }
  run. fates; try exact D;
    destruct (List.find _ (participants d)) eqn:F; cbn -[matches]; fates;
    try exact D; unfold directory_ok in *; cbn -[matches] in *;
    apply listed_insert; try assumption;
    now rewrite nonempty_string_bson.
Qed.

Lemma V1_post_directory (Q : value -> Prop) (user to text type : value)
  (currentTime : string) (w : world) :
  directory_ok Q (store w) ->
  directory_ok Q (store (snd (V1.post_messages user to text type currentTime w))).
Proof.
  destruct w as [d fs k out]. intro D. unfold V1.post_messages.
  destruct (has_error (validate V1.messageSchema _)); [exact D|].
  run. fates; try exact D;
    destruct (List.find _ (participants d)); cbn -[matches]; fates;
    exact D.
Qed.

Lemma V1_status_directory (Q : value -> Prop) (user : value) (now : Z) (w : world) :
  directory_ok Q (store w) ->
  directory_ok Q (store (snd (V1.post_status user now w))).
Proof.
  destruct w as [d fs k out]. intro D. unfold V1.post_status.
  destruct (has_error (validate V1.userSchema [("user", user)])); [exact D|].
  run. fates; try exact D;
    destruct (List.find _ (participants d)); cbn -[matches]; fates;
    directory.
Qed.

Lemma sweep_directory (Q : value -> Prop) (now : Z) (currentTime : string)
  (w : world) :
  directory_ok Q (store w) ->
  directory_ok Q (store (snd (V1.sweep now currentTime w))).
Proof.
  apply sweep_keeps. intros p [d fs k out] D. run.
  fates; directory.
Qed.

Lemma empty_directory_ok (Q : value -> Prop) : directory_ok Q empty_db.
Proof. split; [constructor|intros ? []]. Qed.

Lemma V1_reachable_directory (d : db) :
  reachable V1.serve d -> directory_ok nonempty_string d.
Proof.
  apply reachable_keeps; [apply empty_directory_ok|].
  apply V1_serve_keeps.
  - apply V1_join_directory.
  - intros. now apply V1_post_directory.
  - intros. now apply V1_status_directory.
  - apply sweep_directory.
Qed.

Lemma V3_join_named (name : value) (now : Z) (currentTime : string) (w : world) :
  named (participants (store w)) ->
  named (participants (store (snd (V3.post_participants name now currentTime w)))).
Proof.
  destruct w as [d fs k out]. intro N. unfold V3.post_participants.
  destruct (truthy name) eqn:T; run; [|exact N].
  fates; try exact N;
    destruct (List.find _ (participants d)); cbn -[matches]; fates;
    try exact N; cbn; now apply named_insert.
Qed.

Lemma V3_post_named (user to text type : value) (currentTime : string) (w : world) :
  named (participants (store w)) ->
  named (participants (store (snd (V3.post_messages user to text type currentTime w)))).
Proof.
  destruct w as [d fs k out]. intro N. unfold V3.post_messages.
  destruct (negb (is_string to) || value_eqb to (VStr "")
            || negb (is_string text) || value_eqb text (VStr ""));
    run; [exact N|].
  destruct (negb (value_eqb type (VStr "message"))
            && negb (value_eqb type (VStr "private_message"))); run; [exact N|].
  fates; try exact N;
    destruct (List.find _ (participants d)); cbn -[matches]; fates; exact N.
Qed.

Lemma V3_status_named (user : value) (now : Z) (w : world) :
  named (participants (store w)) ->
  named (participants (store (snd (V3.post_status user now w)))).
Proof.
  destruct w as [d fs k out]. intro N. unfold V3.post_status.
  destruct (truthy user); run; [|exact N].
  fates; try exact N;
    destruct (List.find _ (participants d)); cbn -[matches]; fates;
    try exact N; cbn -[matches]; now apply named_touch.
Qed.

Lemma sweep_named (now : Z) (currentTime : string) (w : world) :
  named (participants (store w)) ->
  named (participants (store (snd (V3.sweep now currentTime w)))).
Proof.
  apply (sweep_keeps (fun d => named (participants d))).
  intros p [d fs k out] N. run.
  fates; try exact N; cbn -[matches]; now apply named_delete.
Qed.

Lemma V3_reachable_named (d : db) : reachable V3.serve d -> named (participants d).
Proof.
  apply (reachable_keeps V3.serve (fun d => named (participants d))).
  - intros ? [].
  - apply (V3_serve_keeps (fun d => named (participants d))).
    + apply V3_join_named.
    + intros. now apply V3_post_named.
    + intros. now apply V3_status_named.
    + apply sweep_named.
Qed.

(** X6.  In every store that the first iteration can reach, when
    requests are served one after the other, no two participants have
    the same name, and every name is a non-empty string.  In every store
    that the third iteration can reach every name is truthy; it need not
    be a string. *)
Theorem names_are_unique_and_not_empty (d : db) :
  (reachable V1.serve d ->
   NoDup (map (fun p => name (fields p)) (participants d))
   /\ forall p, In p (participants d) -> nonempty_string (name (fields p)))
  /\ (reachable V3.serve d ->
      forall p, In p (participants d) -> truthy (name (fields p)) = true).
Proof.
  split; intro R.
  - exact (V1_reachable_directory d R).
  - exact (V3_reachable_named d R).
Qed.

Lemma names_are_unique_and_not_empty_witness :
  NoDup [VStr "alice"; VStr "bob"]
  /\ truthy (VNum 5) = true.
Proof.
  split.
  - apply (proj1 (names_are_unique_and_not_empty
                    (play V1.serve alice_and_bob_join empty_db))).
    apply play_reachable. constructor.
  - apply (proj2 (names_are_unique_and_not_empty
                    (play V3.serve the_number_5_joins empty_db))
             (play_reachable V3.serve the_number_5_joins empty_db
                (reachable_empty V3.serve))
             {| _id := 0; fields := {| name := VNum 5; lastStatus := VNum 1000 |} |}).
    left; reflexivity.
Defined.

(** ** What a request can do to the store *)

(** The four changes that the handlers make to a store. *)
Section Changes.

Variable P : db -> Prop.

Lemma same_store (d : db) :
  P d ->
  P {| participants := participants d; messages := messages d; next_id := next_id d |}.
Proof. now destruct d. Qed.

Lemma V1_join_changes (name : value) (now : Z) (currentTime : string) (w : world) :
  adds_participant P -> adds_message P ->
  P (store w) -> P (store (snd (V1.post_participants name now currentTime w))).
Proof.
  intros Ha Hb. destruct w as [d fs k out]. intro HP. unfold V1.post_participants.
  destruct (has_error (validate V1.nameSchema [("name", name)])); [exact HP|].
  run. fates; try exact HP;
    destruct (List.find _ (participants d)); cbn -[matches]; fates;
    try exact HP; cbn [store] in HP; unfold fresh; cbn -[matches].
  all: try (refine (Hb {| participants := _; messages := _; next_id := _ |} _ _));
    try (apply (Ha d)); exact HP.
Qed.

Lemma V3_join_changes (name : value) (now : Z) (currentTime : string) (w : world) :
  adds_participant P -> adds_message P ->
  P (store w) -> P (store (snd (V3.post_participants name now currentTime w))).
Proof.
  intros Ha Hb. destruct w as [d fs k out]. intro HP. unfold V3.post_participants.
  destruct (truthy name); run; [|exact HP].
  fates; try exact HP;
    destruct (List.find _ (participants d)); cbn -[matches]; fates;
    try exact HP; cbn [store] in HP; unfold fresh; cbn -[matches].
  all: try (refine (Hb {| participants := _; messages := _; next_id := _ |} _ _));
    try (apply (Ha d)); exact HP.
Qed.

Lemma V1_post_changes (user to text type : value) (currentTime : string) (w : world) :
  adds_message P ->
  P (store w) -> P (store (snd (V1.post_messages user to text type currentTime w))).
Proof.
  intros Hb. destruct w as [d fs k out]. intro HP. unfold V1.post_messages.
  destruct (has_error (validate V1.messageSchema _)); [exact HP|].
  run. fates; try exact HP;
    destruct (List.find _ (participants d)); cbn -[matches]; fates;
    try exact HP; cbn [store] in HP; unfold fresh; cbn -[matches]; apply (Hb d); exact HP.
Qed.

Lemma V3_post_changes (user to text type : value) (currentTime : string) (w : world) :
  adds_message P ->
  P (store w) -> P (store (snd (V3.post_messages user to text type currentTime w))).
Proof.
  intros Hb. destruct w as [d fs k out]. intro HP. unfold V3.post_messages.
  destruct (negb (is_string to) || value_eqb to (VStr "")
            || negb (is_string text) || value_eqb text (VStr ""));
    run; [exact HP|].
  destruct (negb (value_eqb type (VStr "message"))
            && negb (value_eqb type (VStr "private_message"))); run; [exact HP|].
  fates; try exact HP;
    destruct (List.find _ (participants d)); cbn -[matches]; fates;
    try exact HP; cbn [store] in HP; unfold fresh; cbn -[matches]; apply (Hb d); exact HP.
Qed.

Lemma V1_status_changes (user : value) (now : Z) (w : world) :
  touches_participant P ->
  P (store w) -> P (store (snd (V1.post_status user now w))).
Proof.
  intros Hd. destruct w as [d fs k out]. intro HP. unfold V1.post_status.
  destruct (has_error (validate V1.userSchema [("user", user)])); [exact HP|].
  run. fates; try exact HP;
    destruct (List.find _ (participants d)); cbn -[matches]; fates;
    try exact HP; cbn [store] in HP; unfold fresh; cbn -[matches]; apply (Hd d); exact HP.
Qed.

Lemma V3_status_changes (user : value) (now : Z) (w : world) :
  touches_participant P ->
  P (store w) -> P (store (snd (V3.post_status user now w))).
Proof.
  intros Hd. destruct w as [d fs k out]. intro HP. unfold V3.post_status.
  destruct (truthy user); run; [|exact HP].
  fates; try exact HP;
    destruct (List.find _ (participants d)); cbn -[matches]; fates;
    try exact HP; cbn [store] in HP; unfold fresh; cbn -[matches]; apply (Hd d); exact HP.
Qed.

Lemma sweep_changes (now : Z) (currentTime : string) (w : world) :
  removes_participant P -> adds_message P ->
  P (store w) -> P (store (snd (V1.sweep now currentTime w))).
Proof.
  intros Hc Hb. apply sweep_keeps. intros p [d fs k out] HP. run.
  fates; cbn [store] in HP; unfold fresh; cbn -[matches].
  all: try (refine (Hb {| participants := _; messages := _; next_id := _ |} _ _));
    try (apply (Hc d)); exact HP.
Qed.

End Changes.

Lemma board_grows_refl (d : db) : board_grows d d.
Proof. exists []. now rewrite app_nil_r. Qed.

Lemma board_grows_changes (d0 : db) :
  adds_participant (board_grows d0)
  /\ adds_message (board_grows d0)
  /\ removes_participant (board_grows d0)
  /\ touches_participant (board_grows d0).
Proof.
  repeat split; intros d; intros; try assumption.
  destruct H as [added E]. exists (added ++ [m]). cbn. rewrite E.
  now rewrite app_assoc.
Qed.

Lemma in_update_first {A} (f : A -> bool) (u : A -> A) (l : list A) (x : A) :
  In x (update_first f u l) -> In x l \/ exists y, In y l /\ x = u y.
Proof.
  induction l as [|a l IH]; simpl; [auto|].
  destruct (f a); intros [E|I]; auto.
  - right. exists a. auto.
  - destruct (IH I) as [J|[y [J E]]]; [auto|]. right. exists y. auto.
Qed.

Lemma update_first_in {A} (f : A -> bool) (u : A -> A) (l : list A) (x : A) :
  In x l -> In x (update_first f u l) \/ In (u x) (update_first f u l).
Proof.
  induction l as [|a l IH]; simpl; [auto|].
  intros [<-|I]; destruct (f a); simpl; auto.
  destruct (IH I); auto.
Qed.

Lemma all_stay_refl (d : db) : all_stay d d.
Proof. intros p I. exists p. auto. Qed.

(** Nothing but a removal loses a participant. *)
Lemma all_stay_changes (d0 : db) :
  adds_participant (all_stay d0)
  /\ adds_message (all_stay d0)
  /\ touches_participant (all_stay d0).
Proof.
  repeat split; intros d; intros; try assumption.
  - intros p I. destruct (H p I) as [p' [I' E]]. exists p'. split; [|exact E].
    cbn. apply in_or_app. now left.
  - intros p I. destruct (H p I) as [p' [I' [E1 E2]]]. cbn.
    destruct (update_first_in f
                (fun x => {| _id := _id x;
                             fields := {| name := name (fields x); lastStatus := t |} |})
                _ _ I') as [J|J].
    + exists p'. auto.
    + eexists. split; [exact J|]. cbn. auto.
Qed.

(** Nothing but an insertion brings a participant. *)
Lemma none_new_changes (d0 : db) :
  adds_message (fun d => all_stay d d0)
  /\ removes_participant (fun d => all_stay d d0)
  /\ touches_participant (fun d => all_stay d d0).
Proof.
  repeat split; intros d; intros; try assumption.
  - intros p I. cbn in I. apply in_remove_first in I. now apply H.
  - intros p I. cbn in I. apply in_update_first in I.
    destruct I as [I|[y [I ->]]]; [now apply H|].
    destruct (H y I) as [p' [I' E]]. exists p'. cbn. auto.
Qed.


(** X7.  In the first and third iterations the board only grows: every
    request, the tick of the sweep included, and whatever fails, leaves
    the messages of the board as they were, in their order, and at most
    appends others. *)
Theorem board_only_grows
  (serve : request -> Z -> string -> M unit)
  (req : request) (now : Z) (currentTime : string) (w : world) :
  In serve [V1.serve; V3.serve] ->
  exists added,
    messages (store (snd (serve req now currentTime w)))
    = messages (store w) ++ added.
Proof.
  destruct (board_grows_changes (store w)) as [Ha [Hb [Hc Hd]]].
  intros [<-|[<-|[]]].
  - apply (V1_serve_keeps (board_grows (store w))); intros;
      [ now apply V1_join_changes | now apply V1_post_changes
      | now apply V1_status_changes | now apply sweep_changes
      | apply board_grows_refl ].
  - apply (V3_serve_keeps (board_grows (store w))); intros;
      [ now apply V3_join_changes | now apply V3_post_changes
      | now apply V3_status_changes | now apply sweep_changes
      | apply board_grows_refl ].
Qed.

Lemma board_only_grows_witness :
  exists added,
    messages (store (snd (V1.serve Tick 16000 "10:00:16"
                            (boot (play V1.serve alice_and_bob_join empty_db) []))))
    = [join_notice 1 "alice" "10:00:00"; join_notice 3 "bob" "10:00:01"] ++ added.
Proof.
  exact (board_only_grows V1.serve Tick 16000 "10:00:16"
           (boot (play V1.serve alice_and_bob_join empty_db) [])
           (or_introl eq_refl)).
Defined.

(** X8.  In the first and third iterations a participant leaves the
    directory by the sweep only: after any other request, whatever
    fails, every participant is still registered, under its [_id] and
    its name. *)
Theorem participants_leave_by_the_sweep_only
  (serve : request -> Z -> string -> M unit)
  (req : request) (now : Z) (currentTime : string) (w : world)
  (p : doc participant) :
  In serve [V1.serve; V3.serve] ->
  req <> Tick ->
  In p (participants (store w)) ->
  exists p',
    In p' (participants (store (snd (serve req now currentTime w))))
    /\ _id p' = _id p
    /\ name (fields p') = name (fields p).
Proof.
  destruct (all_stay_changes (store w)) as [Ha [Hb Hd]].
  intros variant N I. revert p I. change (all_stay (store w)
    (store (snd (serve req now currentTime w)))).
  pose proof (all_stay_refl (store w)) as R.
  destruct variant as [<-|[<-|[]]];
    destruct req as [n| |user to text type|user limit|user|];
    try congruence; unfold V1.serve, V3.serve; apply discard_keeps.
  - now apply V1_join_changes.
  - destruct w as [d fs k out]. unfold V1.get_participants. run. fates; exact R.
  - now apply V1_post_changes.
  - destruct w as [d fs k out]. unfold V1.get_messages.
    destruct (isNaN limit || le0 limit); run; [exact R|]. fates; exact R.
  - now apply V1_status_changes.
  - now apply V3_join_changes.
  - destruct w as [d fs k out]. unfold V3.get_participants. run. fates; exact R.
  - now apply V3_post_changes.
  - destruct w as [d fs k out]. unfold V3.get_messages.
    destruct (isNaN limit || le0 limit); run; [exact R|]. fates; exact R.
  - now apply V3_status_changes.
Qed.

Lemma participants_leave_by_the_sweep_only_witness :
  exists p',
    In p' (participants (store (snd
       (V3.serve (PostStatus (Some "bob")) 9000 "10:00:09"
          (boot (play V3.serve alice_and_bob_join empty_db) [])))))
    /\ _id p' = 2
    /\ name (fields p') = VStr "bob".
Proof.
  apply (participants_leave_by_the_sweep_only V3.serve (PostStatus (Some "bob"))
           9000 "10:00:09" (boot (play V3.serve alice_and_bob_join empty_db) [])
           {| _id := 2; fields := {| name := VStr "bob"; lastStatus := VNum 2000 |} |}).
  - right; left; reflexivity.
  - discriminate.
  - right; left; reflexivity.
Defined.

(** X9.  In the first and third iterations a participant enters the
    directory by a join only: after any other request, whatever fails,
    every participant of the directory was registered before it, under
    the same [_id] and the same name. *)
Theorem participants_enter_by_a_join_only
  (serve : request -> Z -> string -> M unit)
  (req : request) (now : Z) (currentTime : string) (w : world)
  (p' : doc participant) :
  In serve [V1.serve; V3.serve] ->
  (forall n, req <> PostParticipants n) ->
  In p' (participants (store (snd (serve req now currentTime w)))) ->
  exists p,
    In p (participants (store w))
    /\ _id p = _id p'
    /\ name (fields p) = name (fields p').
Proof.
  destruct (none_new_changes (store w)) as [Hb [Hc Hd]].
  intros variant N. revert p'. change (all_stay
    (store (snd (serve req now currentTime w))) (store w)).
  pose proof (all_stay_refl (store w)) as R.
  destruct variant as [<-|[<-|[]]];
    destruct req as [n| |user to text type|user limit|user|];
    try (exfalso; now apply (N n)); unfold V1.serve, V3.serve;
    try apply (discard_keeps (fun d => all_stay d (store w))).
  - destruct w as [d fs k out]. unfold V1.get_participants. run. fates; exact R.
  - now apply (V1_post_changes (fun d => all_stay d (store w))).
  - destruct w as [d fs k out]. unfold V1.get_messages.
    destruct (isNaN limit || le0 limit); run; [exact R|]. fates; exact R.
  - now apply (V1_status_changes (fun d => all_stay d (store w))).
  - now apply (sweep_changes (fun d => all_stay d (store w))).
  - destruct w as [d fs k out]. unfold V3.get_participants. run. fates; exact R.
  - now apply (V3_post_changes (fun d => all_stay d (store w))).
  - destruct w as [d fs k out]. unfold V3.get_messages.
    destruct (isNaN limit || le0 limit); run; [exact R|]. fates; exact R.
  - now apply (V3_status_changes (fun d => all_stay d (store w))).
  - now apply (sweep_changes (fun d => all_stay d (store w))).
Qed.

Lemma participants_enter_by_a_join_only_witness :
  exists p,
    In p (participants (play V1.serve alice_and_bob_join empty_db))
    /\ _id p = 2
    /\ name (fields p) = VStr "bob".
Proof.
  apply (participants_enter_by_a_join_only V1.serve
           (PostMessages (Some "carol") (VStr "Todos") (VStr "oi") (VStr "message"))
           3000 "10:00:03" (boot (play V1.serve alice_and_bob_join empty_db) [])
           {| _id := 2; fields := {| name := VStr "bob"; lastStatus := VNum 2000 |} |}).
  - left; reflexivity.
  - discriminate.
  - right; left; reflexivity.
Defined.

(** ** The sweep, whatever fails *)

Lemma in_firstn_le {A} (a b : nat) (l : list A) (x : A) :
  b <= a -> In x (firstn b l) -> In x (firstn a l).
Proof.
  revert a b. induction l as [|y l IH]; intros a b L I.
  - now rewrite firstn_nil in *.
  - destruct b as [|b]; [contradiction|]. destruct a as [|a]; [lia|].
    simpl in *. destruct I as [E|I]; [now left|right].
    apply (IH a b); [lia|exact I].
Qed.

Lemma in_notices (currentTime : string) (n : nat) (l : list (doc participant))
  (m : doc message) :
  In m (notices currentTime n l) ->
  exists p, In p l /\ fields m = serialize (left_the_room currentTime p).
Proof.
  revert n. induction l as [|p l IH]; intros n I; [contradiction|].
  simpl in I. destruct I as [<-|I].
  - exists p. split; [now left|reflexivity].
  - destruct (IH _ I) as [q [J E]]. exists q. split; [now right|exact E].
Qed.

(** One turn of the loop: the removal fails, or the notice fails, or
    both succeed. *)
Lemma sweep_turn (currentTime : string) (p : doc participant) (w : world) :
  (exists e w1,
     (deleteOne c_participants (Field "_id" (EQ (VId (_id p)))) ;;
      insertOne c_messages
        {| from := name (fields p); to := VStr "Todos";
           text := VStr "sai da sala..."; type := VStr "status";
           time := VStr currentTime |}) w = (Throw e, w1)
     /\ messages (store w1) = messages (store w)
     /\ (participants (store w1) = participants (store w)
         \/ participants (store w1) =
              remove_first (matches (Field "_id" (EQ (VId (_id p)))))
                (participants (store w))))
  \/ (exists w1,
       (deleteOne c_participants (Field "_id" (EQ (VId (_id p)))) ;;
        insertOne c_messages
          {| from := name (fields p); to := VStr "Todos";
             text := VStr "sai da sala..."; type := VStr "status";
             time := VStr currentTime |}) w = (Done tt, w1)
       /\ participants (store w1) =
            remove_first (matches (Field "_id" (EQ (VId (_id p)))))
              (participants (store w))
       /\ messages (store w1) =
            messages (store w)
            ++ [{| _id := next_id (store w);
                   fields := serialize (left_the_room currentTime p) |}]
       /\ next_id (store w1) = S (next_id (store w))).
Proof.
  destruct w as [d fs k out].
  destruct fs as [|[e1|] [|[e2|] fs]]; run;
    try (right; eexists; split; [reflexivity|]; repeat split);
    left; eexists; eexists; (split; [reflexivity|]); split; auto.
Qed.

(** The loop removes the first [a] of the participants it is given and
    announces the first [b] of them, [b] being [a] or one less. *)
Lemma sweep_loop_any (currentTime : string) (l : list (doc participant)) :
  forall w,
  exists a b r w',
    for_of l
      (fun participant =>
         deleteOne c_participants (Field "_id" (EQ (VId (_id participant)))) ;;
         insertOne c_messages
           {| from := name (fields participant); to := VStr "Todos";
              text := VStr "sai da sala..."; type := VStr "status";
              time := VStr currentTime |}) w = (r, w')
    /\ b <= a
    /\ participants (store w') = drop (firstn a l) (participants (store w))
    /\ messages (store w') =
         messages (store w)
         ++ notices currentTime (next_id (store w)) (firstn b l).
Proof.
  induction l as [|p l IH]; intro w.
  - exists 0, 0. eexists. eexists. split; [reflexivity|]. cbn.
    rewrite app_nil_r. repeat split; lia.
  - cbn [for_of]. unfold bind at 1.
    destruct (sweep_turn currentTime p w)
      as [[e [w1 [E [M [P|P]]]]]|[w1 [E [P [M N]]]]]; rewrite E.
    + exists 0, 0. eexists. eexists. split; [reflexivity|]. cbn.
      rewrite app_nil_r. repeat split; auto.
    + exists 1, 0. eexists. eexists. split; [reflexivity|]. cbn -[matches].
      rewrite app_nil_r. repeat split; auto.
    + destruct (IH w1) as [a [b [r [w' [R [L [P' M']]]]]]].
      exists (S a), (S b), r, w'. split; [exact R|]. split; [lia|]. split.
      * rewrite P', P. reflexivity.
      * rewrite M', M, N, <- app_assoc. reflexivity.
Qed.

Lemma V1_sweep_any (now : Z) (currentTime : string) (w : world) :
  exists a b w',
    V1.sweep now currentTime w = (Done tt, w')
    /\ b <= a
    /\ participants (store w') =
         drop (firstn a (List.filter (stale now) (participants (store w))))
              (participants (store w))
    /\ messages (store w') =
         messages (store w)
         ++ notices currentTime (next_id (store w))
              (firstn b (List.filter (stale now) (participants (store w)))).
Proof.
  destruct w as [d fs k out]. unfold V1.sweep.
  unfold try_catch, bind at 1, find_toArray, db_call.
  destruct fs as [|[e|] fs]; cbn [faults store fst snd tl docs c_participants].
  2:{ exists 0, 0. eexists. split; [reflexivity|]. cbn.
      rewrite app_nil_r. repeat split; lia. }
  all: rewrite filter_stale;
    match goal with
    | |- context [for_of ?l ?b ?w1] =>
        destruct (sweep_loop_any currentTime l w1)
          as [a [b' [r [w' [R [L [P M]]]]]]]; rewrite R
    end;
    exists a, b'; destruct r as [[]|e']; eexists; (split; [reflexivity|]);
    cbn [store console participants messages] in *; repeat split; assumption.
Qed.

(** X10.  In the three iterations, on a store whose documents
    have distinct identifiers and whatever store operation fails, one
    pass of the sweep returns without throwing, removes no participant
    that is not stale, and appends notices only: each one is the notice
    of a stale participant that the pass has removed. *)
Theorem sweep_evicts_only_the_stale_whatever_fails
  (sweep : Z -> string -> M unit) (now : Z) (currentTime : string) (w : world) :
  In sweep [V1.sweep; V2.sweep; V3.sweep] ->
  NoDup (map _id (participants (store w))) ->
  exists w' added,
    sweep now currentTime w = (Done tt, w')
    /\ (forall p, In p (participants (store w)) -> stale now p = false ->
          In p (participants (store w')))
    /\ messages (store w') = messages (store w) ++ added
    /\ forall m, In m added ->
         exists p,
           In p (participants (store w))
           /\ stale now p = true
           /\ ~ In p (participants (store w'))
           /\ fields m =
                {| from := bson (name (fields p)); to := VStr "Todos";
                   text := VStr "sai da sala..."; type := VStr "status";
                   time := VStr currentTime |}.
Proof.
  intros variant N.
  assert (V : sweep = V1.sweep)
    by (destruct variant as [<-|[<-|[<-|[]]]]; reflexivity).
  subst sweep.
  destruct (V1_sweep_any now currentTime w) as [a [b [w' [R [L [P M]]]]]].
  exists w'. eexists. split; [exact R|]. split; [|split; [exact M|]].
  - intros p I S. rewrite P. apply (dropped_iff _ _ _ N). split; [exact I|].
    intros r Ir E. apply in_firstn_in, filter_In in Ir. destruct Ir as [Ir Sr].
    rewrite (same_id_same_doc _ p r N I Ir E) in S. congruence.
  - intros m I. apply in_notices in I. destruct I as [p [I E]].
    exists p. pose proof (in_firstn_le a b _ p L I) as Ia.
    apply in_firstn_in, filter_In in I. destruct I as [I S].
    repeat split; try assumption.
    rewrite P. intro D. apply (dropped_iff _ _ _ N) in D. destruct D as [_ D].
    exact (D p Ia eq_refl).
Qed.

Lemma sweep_evicts_only_the_stale_whatever_fails_witness :
  exists w',
    V1.sweep 11500 "10:00:11"
      (boot (play V1.serve alice_and_bob_join empty_db)
            [None; None; Some (Error "connection closed")])
      = (Done tt, w')
    /\ In {| _id := 2; fields := {| name := VStr "bob"; lastStatus := VNum 2000 |} |}
          (participants (store w')).
Proof.
  destruct (sweep_evicts_only_the_stale_whatever_fails V1.sweep 11500 "10:00:11"
              (boot (play V1.serve alice_and_bob_join empty_db)
                    [None; None; Some (Error "connection closed")])
              (or_introl eq_refl))
    as [w' [added [R [K _]]]].
  - vm_compute. repeat constructor; simpl; intuition discriminate.
  - exists w'. split; [exact R|]. apply K; [right; left; reflexivity|reflexivity].
Defined.

(** ** The sweep and the heartbeat *)

Lemma non_stale_stays (now : Z) (currentTime : string) (w : world)
  (p : doc participant) :
  NoDup (map _id (participants (store w))) ->
  In p (participants (store w)) ->
  stale now p = false ->
  In p (participants (store (snd (V1.sweep now currentTime w)))).
Proof.
  intros N I S.
  destruct (V1_sweep_any now currentTime w) as [a [b [w' [R [L [P M]]]]]].
  rewrite R. cbn [snd]. rewrite P. apply (dropped_iff _ _ _ N). split; [exact I|].
  intros r Ir E. apply in_firstn_in, filter_In in Ir. destruct Ir as [Ir Sr].
  rewrite (same_id_same_doc _ p r N I Ir E) in S. congruence.
Qed.

Lemma filter_none {A} (f : A -> bool) (l : list A) :
  (forall x, In x l -> f x = false) -> List.filter f l = [].
Proof.
  induction l as [|a l IH]; intro F; simpl; [reflexivity|].
  rewrite (F a (or_introl eq_refl)). apply IH. intros x I. apply F. now right.
Qed.

Lemma sweep_of_the_fresh (now : Z) (currentTime : string) (w : world) :
  (forall p, In p (participants (store w)) -> stale now p = false) ->
  store (snd (V1.sweep now currentTime w)) = store w.
Proof.
  intro F. destruct w as [d fs k out]. unfold V1.sweep.
  unfold try_catch, bind at 1, find_toArray, db_call.
  cbn [store] in F.
  destruct fs as [|[e|] fs]; cbn [faults store fst snd tl docs c_participants];
    try reflexivity;
    rewrite filter_stale, (filter_none _ _ F); reflexivity.
Qed.

Lemma stale_earlier (now now' : Z) (p : doc participant) :
  (now' <= now)%Z -> stale now p = false -> stale now' p = false.
Proof.
  unfold stale. destruct (lastStatus (fields p)); auto.
  intros L S. apply Z.ltb_ge in S. apply Z.ltb_ge. lia.
Qed.

(** X11.  In the three iterations a pass of the sweep over a
    directory in which no participant is stale changes nothing in the
    store, whatever fails.  So a second pass does nothing when it
    follows, at the same time of the clock or an earlier one, a pass in
    which no store operation failed. *)
Theorem sweep_twice_is_sweep_once
  (sweep : Z -> string -> M unit)
  (now now' : Z) (currentTime currentTime' : string) (w : world)
  (fs : list (option error)) :
  In sweep [V1.sweep; V2.sweep; V3.sweep] ->
  ((forall p, In p (participants (store w)) -> stale now p = false) ->
   store (snd (sweep now currentTime w)) = store w)
  /\ (faults w = [] ->
      NoDup (map _id (participants (store w))) ->
      (now' <= now)%Z ->
      store (snd (sweep now' currentTime'
                    (boot (store (snd (sweep now currentTime w))) fs)))
      = store (snd (sweep now currentTime w))).
Proof.
  intro variant.
  assert (V : sweep = V1.sweep)
    by (destruct variant as [<-|[<-|[<-|[]]]]; reflexivity).
  subst sweep. split; [apply sweep_of_the_fresh|].
  intros calm N L.
  apply (sweep_of_the_fresh now' currentTime' (boot _ fs)). cbn [boot store].
  destruct w as [d f k out]. simpl in calm. subst f. cbn [store] in N.
  rewrite V1_sweep_quiet by apply quiet_nil. cbn [snd store participants].
  rewrite (drop_stale now _ N). intros p I. apply filter_In in I.
  destruct I as [_ S]. apply negb_true_iff in S.
  now apply (stale_earlier now).
Qed.

Lemma sweep_twice_is_sweep_once_witness :
  store (snd (V1.sweep 16000 "10:00:17"
                (boot (store (snd (V1.sweep 16000 "10:00:16"
                   (boot (play V1.serve alice_and_bob_join empty_db) []))))
                   [None; Some (Error "connection closed")])))
  = store (snd (V1.sweep 16000 "10:00:16"
                  (boot (play V1.serve alice_and_bob_join empty_db) []))).
Proof.
  apply (sweep_twice_is_sweep_once V1.sweep 16000 16000 "10:00:16" "10:00:17"
           (boot (play V1.serve alice_and_bob_join empty_db) [])
           [None; Some (Error "connection closed")] (or_introl eq_refl)).
  - reflexivity.
  - vm_compute. repeat constructor; simpl; intuition discriminate.
  - lia.
Defined.

Lemma registered_in (v : value) (d : db) (p : doc participant) :
  In p (participants d) -> name (fields p) = v -> registered v d.
Proof. intros I E. now exists p. Qed.

Lemma fresh_is_not_stale (now t : Z) (i : nat) (v : value) :
  (now - 10000 <= t)%Z ->
  stale now {| _id := i; fields := {| name := v; lastStatus := VNum t |} |} = false.
Proof. intro L. unfold stale. cbn. apply Z.ltb_ge. lia. Qed.

(** X12.  In the first and third iterations, on a store whose documents
    have distinct identifiers: after a heartbeat of a registered name at
    the time [t] in which no store operation fails, a pass of the sweep
    at a time not after [t + 10000] leaves the name registered, whatever
    fails in the pass. *)
Theorem heartbeat_protects_from_the_sweep
  (post : value -> Z -> M response) (sweep : Z -> string -> M unit)
  (u : string) (t now : Z) (currentTime : string) (w : world)
  (fs : list (option error)) :
  In (post, sweep) [(V1.post_status, V1.sweep); (V3.post_status, V3.sweep)] ->
  faults w = [] ->
  NoDup (map _id (participants (store w))) ->
  u <> "" ->
  registered (VStr u) (store w) ->
  (now - 10000 <= t)%Z ->
  fst (post (VStr u) t w) = Done (sendStatus 200)
  /\ registered (VStr u)
       (store (snd (sweep now currentTime
                      (boot (store (snd (post (VStr u) t w))) fs)))).
Proof.
  intros variant calm N nonempty known L.
  assert (H : exists before p after w',
            participants (store w) = before ++ p :: after
            /\ name (fields p) = VStr u
            /\ (forall q, In q before -> name (fields q) <> VStr u)
            /\ post (VStr u) t w = (Done (sendStatus 200), w')
            /\ participants (store w') =
                 before ++ {| _id := _id p;
                              fields := {| name := VStr u; lastStatus := VNum t |} |}
                        :: after
            /\ messages (store w') = messages (store w)).
  { destruct variant as [E|[E|[]]]; inversion E; subst;
      [now apply V1_heartbeat_known | now apply V3_heartbeat_known]. }
  destruct H as [before [p [after [w' [B [E [_ [R [P _]]]]]]]]].
  assert (V : sweep = V1.sweep)
    by (destruct variant as [X|[X|[]]]; inversion X; reflexivity).
  subst sweep. rewrite R. split; [reflexivity|]. cbn [snd boot].
  apply (registered_in _ _
           {| _id := _id p; fields := {| name := VStr u; lastStatus := VNum t |} |});
    [|reflexivity].
  apply non_stale_stays; unfold boot; cbn [store].
  - rewrite P. rewrite B in N. rewrite map_app in *. exact N.
  - rewrite P. apply in_or_app. right. now left.
  - now apply fresh_is_not_stale.
Qed.

Lemma heartbeat_protects_from_the_sweep_witness :
  registered (VStr "bob")
    (store (snd (V3.sweep 19000 "10:00:19"
                   (boot (store (snd (V3.post_status (VStr "bob") 9000
                      (boot (play V3.serve alice_and_bob_join empty_db) []))))
                      [])))).
Proof.
  apply (heartbeat_protects_from_the_sweep V3.post_status V3.sweep "bob" 9000 19000
           "10:00:19" (boot (play V3.serve alice_and_bob_join empty_db) []) []).
  - right; left; reflexivity.
  - reflexivity.
  - vm_compute. repeat constructor; simpl; intuition discriminate.
  - discriminate.
  - eexists. split; [right; left; reflexivity|reflexivity].
  - lia.
Defined.

(** ** The join, the sweep and the failures *)

Lemma notice_in (currentTime : string) (n : nat) (l : list (doc participant))
  (p : doc participant) :
  In p l ->
  exists i, In {| _id := i; fields := serialize (left_the_room currentTime p) |}
               (notices currentTime n l).
Proof.
  revert n. induction l as [|q l IH]; intros n I; [contradiction|].
  destruct I as [->|I].
  - exists n. now left.
  - destruct (IH (S n) I) as [i J]. exists i. now right.
Qed.

(** X13.  In the first and third iterations, on a directory of strings
    whose documents have distinct identifiers below the next one, and
    when no store operation fails: a participant who joins at the time
    [t] and sends no heartbeat is evicted by a pass of the sweep at a
    time after [t + 10000]; the name is no longer registered, and the
    board holds the notice of its join and the notice of its leave. *)
Theorem silent_participant_is_evicted
  (post : value -> Z -> string -> M response) (sweep : Z -> string -> M unit)
  (n : string) (t now : Z) (currentTime currentTime' : string) (w : world) :
  In (post, sweep)
     [(V1.post_participants, V1.sweep); (V3.post_participants, V3.sweep)] ->
  n <> "" ->
  faults w = [] ->
  strings (store w) ->
  distinct_ids (store w) ->
  ~ registered (VStr n) (store w) ->
  (t < now - 10000)%Z ->
  exists w1 w2 i,
    post (VStr n) t currentTime w = (Done (sendStatus 201), w1)
    /\ sweep now currentTime' w1 = (Done tt, w2)
    /\ ~ registered (VStr n) (store w2)
    /\ In {| _id := S (next_id (store w));
             fields := {| from := VStr n; to := VStr "Todos";
                          text := VStr "entra na sala..."; type := VStr "status";
                          time := VStr currentTime |} |}
          (messages (store w2))
    /\ In {| _id := i;
             fields := {| from := VStr n; to := VStr "Todos";
                          text := VStr "sai da sala..."; type := VStr "status";
                          time := VStr currentTime' |} |}
          (messages (store w2)).
Proof.
  intros variant nonempty calm Ss D unknown late.
  assert (J : post (VStr n) t currentTime w =
    (Done (sendStatus 201),
     {| store :=
          {| participants :=
               participants (store w)
               ++ [{| _id := next_id (store w);
                      fields := {| name := VStr n; lastStatus := VNum t |} |}];
             messages :=
               messages (store w)
               ++ [{| _id := S (next_id (store w));
                      fields := entered_the_room (VStr n) currentTime |}];
             next_id := S (S (next_id (store w))) |};
        faults := []; ops := 3 + ops w; console := console w |})).
  { destruct variant as [E|[E|[]]]; inversion E; subst;
      [now apply V1_first_join | now apply V3_first_join]. }
  assert (V : sweep = V1.sweep)
    by (destruct variant as [X|[X|[]]]; inversion X; reflexivity).
  subst sweep.
  set (new := {| _id := next_id (store w);
                 fields := {| name := VStr n; lastStatus := VNum t |} |}).
  assert (N : NoDup (map _id (participants (store w) ++ [new])))
    by exact (proj1 (numbered_insert _ _ _ D)).
  assert (St : stale now new = true)
    by (unfold stale; cbn; now apply Z.ltb_lt).
  destruct (notice_in currentTime' (S (S (next_id (store w))))
              (List.filter (stale now) (participants (store w) ++ [new])) new)
    as [i I].
  { apply filter_In. split; [apply in_or_app; right; now left|exact St]. }
  subst new. eexists. eexists. exists i. split; [exact J|].
  rewrite V1_sweep_quiet by apply quiet_nil.
  split; [reflexivity|].
  cbn [store participants messages next_id]. split; [|split].
  - rewrite (drop_stale now _ N). intros [p [Ip E]].
    apply filter_In in Ip. destruct Ip as [Ip F]. apply in_app_or in Ip.
    destruct Ip as [Ip|[<-|[]]].
    + apply unknown. now exists p.
    + rewrite St in F. discriminate.
  - apply in_or_app. left. apply in_or_app. right. now left.
  - apply in_or_app. right. exact I.
Qed.

Lemma silent_participant_is_evicted_witness :
  exists w1 w2,
    V3.post_participants (VStr "dave") 0 "10:00:00" (boot empty_db [])
      = (Done (sendStatus 201), w1)
    /\ V3.sweep 16000 "10:00:16" w1 = (Done tt, w2)
    /\ ~ registered (VStr "dave") (store w2).
Proof.
  destruct (silent_participant_is_evicted V3.post_participants V3.sweep
              "dave" 0 16000 "10:00:00" "10:00:16" (boot empty_db []))
    as [w1 [w2 [i [J [R [U _]]]]]].
  - right; left; reflexivity.
  - discriminate.
  - reflexivity.
  - intros p [].
  - split; [constructor|intros ? []].
  - intros [p [[] _]].
  - lia.
  - exists w1, w2. repeat split; assumption.
Defined.

Lemma V1_join_half (n : string) (now : Z) (currentTime : string) (w : world)
  (e : error) (rest : list (option error)) :
  n <> "" -> faults w = None :: None :: Some e :: rest ->
  ~ registered (VStr n) (store w) ->
  V1.post_participants (VStr n) now currentTime w =
    (Done (send 500 (Text (error_message e))),
     {| store :=
          {| participants :=
               participants (store w)
               ++ [{| _id := next_id (store w);
                      fields := {| name := VStr n; lastStatus := VNum now |} |}];
             messages := messages (store w);
             next_id := S (next_id (store w)) |};
        faults := rest; ops := 3 + ops w; console := console w |}).
Proof.
  intros nonempty fate fresh_name.
  unfold V1.post_participants. rewrite (name_required_ok n nonempty).
  destruct w as [d fs k out]. simpl in fate. subst fs.
  run. rewrite (unregistered_not_found (VStr n) d fresh_name). reflexivity.
Qed.

Lemma V3_join_half (n : string) (now : Z) (currentTime : string) (w : world)
  (e : error) (rest : list (option error)) :
  n <> "" -> faults w = None :: None :: Some e :: rest ->
  strings (store w) ->
  ~ registered (VStr n) (store w) ->
  V3.post_participants (VStr n) now currentTime w =
    (Done (send 500 (Text (error_message e))),
     {| store :=
          {| participants :=
               participants (store w)
               ++ [{| _id := next_id (store w);
                      fields := {| name := VStr n; lastStatus := VNum now |} |}];
             messages := messages (store w);
             next_id := S (next_id (store w)) |};
        faults := rest; ops := 3 + ops w; console := console w |}).
Proof.
  intros nonempty fate _ fresh_name. apply String.eqb_neq in nonempty.
  unfold V3.post_participants.
  destruct w as [d fs k out]. simpl in fate. subst fs.
  run. rewrite nonempty. cbn -[matches].
  rewrite (unregistered_not_found (VStr n) d fresh_name). reflexivity.
Qed.

(** X14.  In the first and third iterations the join is not atomic: on
    a directory of strings, when the participant is inserted and the
    insertion of the notice fails, the handler answers 500 with the
    message of the error, the name stays registered and the board is as
    it was; a second join under the name then answers 409, so that the
    notice of this join is never written. *)
Theorem join_that_fails_midway_registers_without_notice
  (post : value -> Z -> string -> M response)
  (n : string) (now now' : Z) (currentTime currentTime' : string) (w : world)
  (e : error) (rest : list (option error)) :
  In post [V1.post_participants; V3.post_participants] ->
  n <> "" ->
  faults w = None :: None :: Some e :: rest ->
  strings (store w) ->
  ~ registered (VStr n) (store w) ->
  exists w1,
    post (VStr n) now currentTime w = (Done (send 500 (Text (error_message e))), w1)
    /\ participants (store w1) =
         participants (store w)
         ++ [{| _id := next_id (store w);
                fields := {| name := VStr n; lastStatus := VNum now |} |}]
    /\ messages (store w1) = messages (store w)
    /\ exists w2,
         post (VStr n) now' currentTime' (boot (store w1) []) =
           (Done (sendStatus 409), w2)
         /\ store w2 = store w1.
Proof.
  intros variant nonempty fate Ss fresh_name. eexists. split.
  - destruct variant as [<-|[<-|[]]];
      [eapply V1_join_half | eapply V3_join_half]; eassumption.
  - cbn [store participants messages]. split; [reflexivity|]. split; [reflexivity|].
    eexists. split.
    + destruct variant as [<-|[<-|[]]];
        [apply V1_join_again | apply V3_join_again]; try assumption;
        try reflexivity;
        (eexists; split; [apply in_or_app; right; left; reflexivity|reflexivity]).
    + reflexivity.
Qed.

Lemma join_that_fails_midway_registers_without_notice_witness :
  exists w1,
    V3.post_participants (VStr "alice") 1000 "10:00:00"
      (boot empty_db [None; None; Some (Error "connection closed")])
      = (Done (send 500 (Text "connection closed")), w1)
    /\ participants (store w1) =
         [{| _id := 0; fields := {| name := VStr "alice"; lastStatus := VNum 1000 |} |}]
    /\ messages (store w1) = [].
Proof.
  destruct (join_that_fails_midway_registers_without_notice V3.post_participants
              "alice" 1000 2000 "10:00:00" "10:00:01"
              (boot empty_db [None; None; Some (Error "connection closed")])
              (Error "connection closed") [])
    as [w1 [J [P [M _]]]].
  - right; left; reflexivity.
  - discriminate.
  - reflexivity.
  - intros p [].
  - intros [p [[] _]].
  - exists w1. repeat split; assumption.
Defined.

(** ** What a query shows *)

Lemma V1_visible_iff (user : value) (m : doc message) :
  matches (V1.visible user) m = true <-> shown user m.
Proof.
  split.
  - intro V. unfold shown.
    destruct (V1_visible_inv user m V) as [[S|S]|[[D [F R]]|[[D [F R]]|T]]].
    + now left.
    + right; now left.
    + right; right; right. split; [exact D|]. left. now split.
    + right; right; right. split; [exact D|]. right. now split.
    + right; right; now left.
  - unfold shown, direct. cbn.
    intros [S|[P|[T|[D [[F R]|[F R]]]]]].
    + rewrite S. reflexivity.
    + rewrite P. reflexivity.
    + rewrite T. cbn. now rewrite !orb_true_r.
    + apply value_eqb_neq in R. rewrite D, R, F, !value_eqb_refl. cbn.
      destruct (value_eqb (bson user) (VStr "Todos")); reflexivity.
    + apply value_eqb_neq in F. rewrite D, F, R, !value_eqb_refl. cbn.
      destruct (value_eqb (from (fields m)) (VStr "Todos")); reflexivity.
Qed.

Lemma V1_query_calm (user : value) (z : Z) (w : world) :
  faults w = [] -> (0 < z)%Z ->
  V1.get_messages user (Int z) w =
    (Done (send 200 (Messages
       (firstn (Z.to_nat z)
          (List.filter (matches (V1.visible user)) (messages (store w)))))),
     {| store := store w; faults := []; ops := S (ops w); console := console w |}).
Proof.
  intros calm P. destruct w as [d fs k out]. simpl in calm. subst fs.
  unfold V1.get_messages. rewrite (guard_passes z P). run.
  now rewrite <- (limit_positive z _ P).
Qed.

Lemma V3_query_calm (user : value) (z : Z) (w : world) :
  faults w = [] -> (0 < z)%Z ->
  V3.get_messages user (Int z) w =
    (Done (send 200 (Messages
       (firstn (Z.to_nat z)
          (List.filter (matches (V3.visible user)) (messages (store w)))))),
     {| store := store w; faults := []; ops := S (ops w); console := console w |}).
Proof.
  intros calm P. destruct w as [d fs k out]. simpl in calm. subst fs.
  unfold V3.get_messages. expose. rewrite (guard_passes z P). cbn -[matches].
  now rewrite <- (limit_positive z _ P).
Qed.

(** X15.  In the first two iterations, when the read of the store does
    not fail, a query with a limit above zero answers 200 with the first
    [limit] of the messages shown to the viewer, in the order of the
    board; a message is shown when its type is status or message, or
    when it comes from Todos, or when it is a private_message of which
    the viewer is the sender or the recipient, and not both. *)
Theorem query_answers_the_first_shown_messages
  (get : value -> number -> M response) (user : value) (z : Z) (w : world) :
  In get [V1.get_messages; V2.get_messages] ->
  faults w = [] ->
  (0 < z)%Z ->
  exists f w',
    get user (Int z) w =
      (Done (send 200 (Messages
         (firstn (Z.to_nat z) (List.filter f (messages (store w)))))), w')
    /\ store w' = store w
    /\ forall m,
         f m = true <->
         (type (fields m) = VStr "status"
          \/ type (fields m) = VStr "message"
          \/ from (fields m) = VStr "Todos"
          \/ (type (fields m) = VStr "private_message"
              /\ (from (fields m) = bson user /\ to (fields m) <> bson user
                  \/ from (fields m) <> bson user /\ to (fields m) = bson user))).
Proof.
  intros variant calm P.
  assert (V : get = V1.get_messages)
    by (destruct variant as [<-|[<-|[]]]; reflexivity).
  subst get. exists (matches (V1.visible user)). eexists.
  split; [now apply V1_query_calm|]. split; [reflexivity|].
  intro m. apply V1_visible_iff.
Qed.

Lemma query_answers_the_first_shown_messages_witness :
  exists f w',
    V2.get_messages (VStr "bob") (Int 2)
      (boot (play V1.serve alice_writes_to_bob empty_db) []) =
      (Done (send 200 (Messages
         (firstn 2 (List.filter f
                      (messages (play V1.serve alice_writes_to_bob empty_db)))))),
       w')
    /\ f (private_message 4 "alice" "bob" "oi" "10:00:03") = true.
Proof.
  destruct (query_answers_the_first_shown_messages V2.get_messages (VStr "bob") 2
              (boot (play V1.serve alice_writes_to_bob empty_db) []))
    as [f [w' [E [_ F]]]].
  - right; left; reflexivity.
  - reflexivity.
  - lia.
  - exists f, w'. split; [exact E|]. apply F.
    right; right; right. split; [reflexivity|]. right. split; [discriminate|reflexivity].
Defined.

Lemma V3_shows_every_type (user : value) (m : doc message) :
  system_notice (fields m) \/ checked_message (fields m) ->
  matches (V3.visible user) m = true.
Proof.
  cbn. intros [[T _]|[[T|T] _]]; rewrite T; reflexivity.
Qed.

(** X16.  In the third iteration the answer of a query does not depend
    on the viewer: on every store that the iteration can reach, when the
    read does not fail, a query with a limit above zero answers 200 with
    the first [limit] messages of the board, private messages included,
    whoever asks. *)
Theorem third_iteration_shows_the_whole_board
  (d : db) (user : value) (z : Z) :
  reachable V3.serve d ->
  (0 < z)%Z ->
  V3.get_messages user (Int z) (boot d []) =
    (Done (send 200 (Messages (firstn (Z.to_nat z) (messages d)))),
     {| store := d; faults := []; ops := 1; console := [] |}).
Proof.
  intros R P. rewrite (V3_query_calm user z (boot d []) eq_refl P).
  cbn [boot store ops console]. rewrite filter_all; [reflexivity|].
  intros m I. apply V3_shows_every_type.
  exact (V3_reachable_typed d R m I).
Qed.

Lemma third_iteration_shows_the_whole_board_witness :
  V3.get_messages (VStr "carol") (Int 10)
    (boot (play V3.serve alice_writes_to_bob empty_db) []) =
    (Done (send 200 (Messages [join_notice 1 "alice" "10:00:00";
                               join_notice 3 "bob" "10:00:01";
                               private_message 4 "alice" "bob" "oi" "10:00:03"])),
     {| store := play V3.serve alice_writes_to_bob empty_db;
        faults := []; ops := 1; console := [] |}).
Proof.
  apply (third_iteration_shows_the_whole_board
           (play V3.serve alice_writes_to_bob empty_db) (VStr "carol") 10).
  - apply play_reachable. constructor.
  - lia.
Defined.

(** ** Owner-only delete *)

Lemma remove_by_id {A} `{Document A} (n : nat) (l : list (doc A)) :
  NoDup (map _id l) ->
  remove_first (matches (Field "_id" (EQ (VId n)))) l =
    List.filter (fun q => negb (_id q =? n)%nat) l.
Proof.
  induction l as [|a l IH]; simpl; intro N; [reflexivity|].
  inversion N as [|? ? Fresh N']; subst.
  change (matches (Field "_id" (EQ (VId n))) a) with (_id a =? n)%nat.
  destruct (_id a =? n)%nat eqn:E; simpl.
  - apply Nat.eqb_eq in E. symmetry. apply filter_all. intros x I.
    apply negb_true_iff, Nat.eqb_neq. intro X. apply Fresh.
    rewrite E, <- X. now apply in_map.
  - f_equal. now apply IH.
Qed.

Lemma find_by_id {A} `{Document A} (l : list (doc A)) (m : doc A) :
  NoDup (map _id l) -> In m l ->
  List.find (matches (Field "_id" (EQ (VId (_id m))))) l = Some m.
Proof.
  intros N I.
  destruct (find_present (matches (Field "_id" (EQ (VId (_id m))))) l m I)
    as [y F]; [apply Nat.eqb_refl|].
  rewrite F. f_equal. pose proof (find_some _ _ F) as [Iy E].
  change (matches (Field "_id" (EQ (VId (_id m)))) y) with (_id y =? _id m)%nat in E.
  apply Nat.eqb_eq in E. exact (same_id_same_doc l y m N Iy I E).
Qed.

Lemma find_no_id {A} `{Document A} (n : nat) (l : list (doc A)) :
  (forall m, In m l -> _id m <> n) ->
  List.find (matches (Field "_id" (EQ (VId n)))) l = None.
Proof.
  intro F. apply find_absent. intros m I.
  change (matches (Field "_id" (EQ (VId n))) m) with (_id m =? n)%nat.
  apply Nat.eqb_neq. now apply F.
Qed.

Lemma V2_delete_missing (user : value) (n : nat) (w : world) :
  faults w = [] ->
  (forall m, In m (messages (store w)) -> _id m <> n) ->
  V2.delete_messages user (V2.WellFormed n) w =
    (Done (sendStatus 404),
     {| store := store w; faults := []; ops := S (ops w); console := console w |}).
Proof.
  intros calm F. destruct w as [d fs k out]. simpl in calm. subst fs.
  unfold V2.delete_messages, V2.new_ObjectId. run.
  cbn [store] in F. rewrite (find_no_id n _ F). reflexivity.
Qed.

Lemma V2_delete_found (user : value) (m : doc message) (w : world) :
  faults w = [] ->
  NoDup (map _id (messages (store w))) ->
  In m (messages (store w)) ->
  V2.delete_messages user (V2.WellFormed (_id m)) w =
    if value_eqb (from (fields m)) user
    then (Done (sendStatus 204),
          {| store :=
               {| participants := participants (store w);
                  messages := List.filter (fun q => negb (_id q =? _id m)%nat)
                                (messages (store w));
                  next_id := next_id (store w) |};
             faults := []; ops := S (S (ops w)); console := console w |})
    else (Done (sendStatus 401),
          {| store := store w; faults := []; ops := S (ops w);
             console := console w |}).
Proof.
  intros calm N I. destruct w as [d fs k out]. simpl in calm. subst fs.
  cbn [store] in *.
  unfold V2.delete_messages, V2.new_ObjectId. run.
  rewrite (find_by_id _ m N I). cbn -[matches].
  destruct (value_eqb (from (fields m)) user); cbn -[matches]; [|reflexivity].
  now rewrite (remove_by_id _ _ N).
Qed.

(** X17.  The delete of the second iteration.  An identifier that is not
    well formed gives 500 with the message of the error and no store
    operation.  For a well-formed one, when no store operation fails and
    the messages have distinct identifiers: 404 and an unchanged store
    when no message has the identifier; 401 and an unchanged store when
    the message is from another name than the user header; 204 when it
    is from that name, and then exactly that message has left the board,
    the directory is unchanged and a second delete answers 404.  The
    caller is not looked up in the directory. *)
Theorem delete_is_for_the_owner
  (user : value) (id : V2.id_param) (w : world) :
  (forall e, id = V2.Malformed e ->
     V2.delete_messages user id w = (Done (send 500 (Text (error_message e))), w))
  /\ (forall n, id = V2.WellFormed n ->
      faults w = [] ->
      NoDup (map _id (messages (store w))) ->
      ((forall m, In m (messages (store w)) -> _id m <> n) ->
       exists w', V2.delete_messages user id w = (Done (sendStatus 404), w')
                  /\ store w' = store w)
      /\ (forall m, In m (messages (store w)) -> _id m = n ->
          (from (fields m) <> user ->
           exists w', V2.delete_messages user id w = (Done (sendStatus 401), w')
                      /\ store w' = store w)
          /\ (from (fields m) = user ->
              exists w', V2.delete_messages user id w = (Done (sendStatus 204), w')
                /\ participants (store w') = participants (store w)
                /\ messages (store w') =
                     List.filter (fun q => negb (_id q =? n)%nat) (messages (store w))
                /\ exists w'',
                     V2.delete_messages user id (boot (store w') []) =
                       (Done (sendStatus 404), w'')))).
Proof.
  split.
  - intros e ->. reflexivity.
  - intros n -> calm N. split.
    + intro F. eexists. split; [now apply V2_delete_missing|reflexivity].
    + intros m I <-. rewrite (V2_delete_found user m w calm N I). split.
      * intro D. apply value_eqb_neq in D. rewrite D.
        eexists. split; reflexivity.
      * intro D. apply value_eqb_eq in D. rewrite D.
        eexists. split; [reflexivity|]. cbn [store participants messages].
        split; [reflexivity|]. split; [reflexivity|].
        eexists. apply V2_delete_missing; [reflexivity|].
        cbn [boot store messages]. intros q Iq E. apply filter_In in Iq.
        destruct Iq as [_ Q]. apply negb_true_iff, Nat.eqb_neq in Q. contradiction.
Qed.

Lemma delete_is_for_the_owner_witness :
  (exists w',
     V2.delete_messages (VStr "bob") (V2.WellFormed 4)
       (boot (play V1.serve alice_writes_to_bob empty_db) []) =
       (Done (sendStatus 401), w'))
  /\ (exists w',
     V2.delete_messages (VStr "alice") (V2.WellFormed 4)
       (boot (play V1.serve alice_writes_to_bob empty_db) []) =
       (Done (sendStatus 204), w')
     /\ messages (store w') =
          [join_notice 1 "alice" "10:00:00"; join_notice 3 "bob" "10:00:01"]).
Proof.
  assert (N : NoDup (map _id (messages (play V1.serve alice_writes_to_bob empty_db))))
    by (vm_compute; repeat constructor; simpl; intuition discriminate).
  split.
  - destruct (delete_is_for_the_owner (VStr "bob") (V2.WellFormed 4)
                (boot (play V1.serve alice_writes_to_bob empty_db) [])) as [_ D].
    destruct (D 4 eq_refl eq_refl N) as [_ F].
    destruct (F (private_message 4 "alice" "bob" "oi" "10:00:03")) as [U _];
      [right; right; left; reflexivity|reflexivity|].
    destruct U as [w' [E _]]; [discriminate|]. now exists w'.
  - destruct (delete_is_for_the_owner (VStr "alice") (V2.WellFormed 4)
                (boot (play V1.serve alice_writes_to_bob empty_db) [])) as [_ D].
    destruct (D 4 eq_refl eq_refl N) as [_ F].
    destruct (F (private_message 4 "alice" "bob" "oi" "10:00:03")) as [_ O];
      [right; right; left; reflexivity|reflexivity|].
    destruct O as [w' [E [_ [M _]]]]; [reflexivity|].
    exists w'. split; [exact E|exact M].
Defined.

(** ** The hand-written checks and the schemas *)

Lemma same_effect_refl (h1 h2 : M response) (w : world) :
  h2 w = h1 w -> (exists r w', h1 w = (Done r, w')) -> same_effect h1 h2 w.
Proof.
  intros E [r [w' R]]. exists r, r, w', w'. rewrite E. auto.
Qed.

Lemma V1_join_answers (name : value) (now : Z) (currentTime : string) (w : world) :
  exists r w', V1.post_participants name now currentTime w = (Done r, w').
Proof.
  destruct (V1_join_announces name now currentTime w) as [r [w' [E _]]]. eauto.
Qed.

Lemma V1_status_answers (user : value) (now : Z) (w : world) :
  exists r w', V1.post_status user now w = (Done r, w')
               /\ In (status r) [200; 404; 500].
Proof.
  destruct w as [d fs k out]. unfold V1.post_status.
  destruct (has_error (validate V1.userSchema [("user", user)])).
  - eexists; eexists. split; [reflexivity|]. cbn. auto.
  - run. fates; try destruct (List.find _ (participants d)); cbn -[matches]; fates;
      eexists; eexists; (split; [reflexivity|]); cbn; auto.
Qed.

Lemma V1_post_answers (user to text type : value) (currentTime : string) (w : world) :
  exists r w', V1.post_messages user to text type currentTime w = (Done r, w')
               /\ In (status r) [201; 422; 500].
Proof.
  destruct w as [d fs k out]. unfold V1.post_messages.
  destruct (has_error (validate V1.messageSchema _)).
  - eexists; eexists. split; [reflexivity|]. cbn. auto.
  - run. fates; try destruct (List.find _ (participants d)); cbn -[matches]; fates;
      eexists; eexists; (split; [reflexivity|]); cbn; auto.
Qed.

Lemma message_valid (user to text type : value) :
  nonempty_string user -> nonempty_string to -> nonempty_string text ->
  type = VStr "message" \/ type = VStr "private_message" ->
  validate V1.messageSchema
    [("user", user); ("to", to); ("text", text); ("type", type)] = [].
Proof.
  intros [u [-> U]] [t [-> T]] [x [-> X]] Y.
  destruct Y as [->| ->]; apply message_required_ok; auto.
Qed.

Lemma V3_unchecked (to text : value) :
  negb (is_string to) || value_eqb to (VStr "")
  || negb (is_string text) || value_eqb text (VStr "") = true ->
  ~ nonempty_string to \/ ~ nonempty_string text.
Proof.
  intro C.
  destruct to; try (left; intros [s [E _]]; discriminate).
  destruct text; try (right; intros [s' [E _]]; discriminate).
  destruct (String.eqb_spec s "") as [->|Ns].
  - left. intros [s' [E N]]. inversion E; subst. now apply N.
  - destruct (String.eqb_spec s0 "") as [->|Ns0].
    + right. intros [s' [E N]]. inversion E; subst. now apply N.
    + exfalso. cbn in C. apply String.eqb_neq in Ns, Ns0.
      rewrite Ns, Ns0 in C. discriminate.
Qed.

Lemma V1_refuses (user to text type : value) (currentTime : string) (w : world) :
  ~ nonempty_string user \/ ~ nonempty_string to \/ ~ nonempty_string text
  \/ (type <> VStr "message" /\ type <> VStr "private_message") ->
  exists r, V1.post_messages user to text type currentTime w = (Done r, w)
            /\ status r = 422.
Proof.
  intro bad. unfold V1.post_messages.
  assert (E : has_error (validate V1.messageSchema
               [("user", user); ("to", to); ("text", text); ("type", type)]) = true).
  { destruct bad as [B|[B|[B|[B1 B2]]]].
    - apply (key_refused _ _ "user" required); [now left|].
      now apply required_refuses.
    - apply (key_refused _ _ "to" required); [right; now left|].
      now apply required_refuses.
    - apply (key_refused _ _ "text" required); [right; right; now left|].
      now apply required_refuses.
    - apply (key_refused _ _ "type" (required_only ["message"; "private_message"]));
        [right; right; right; now left|].
      now apply only_refuses. }
  rewrite E. eexists. split; reflexivity.
Qed.

(** X18.  The hand-written checks of the third iteration and the
    schemas of the first agree on the requests a client can send with
    strings, whatever fails in the store.  A join under a name that is a
    string or absent, and a heartbeat, have the same status and leave
    the same store in both iterations.  So has a post under a [user]
    header that is a non-empty string, whatever its body, and a post
    whose body is refused, whatever its header. *)
Theorem third_iteration_checks_as_the_first
  (who : option string) (to text type : value) (now : Z) (currentTime : string)
  (w : world) :
  same_effect (V1.post_participants (header who) now currentTime)
              (V3.post_participants (header who) now currentTime) w
  /\ same_effect (V1.post_status (header who) now)
                 (V3.post_status (header who) now) w
  /\ (nonempty_string (header who)
      \/ ~ nonempty_string to
      \/ ~ nonempty_string text
      \/ (type <> VStr "message" /\ type <> VStr "private_message") ->
      same_effect (V1.post_messages (header who) to text type currentTime)
                  (V3.post_messages (header who) to text type currentTime) w).
Proof.
  split; [|split].
  - destruct who as [s|]; [destruct (String.eqb_spec s "") as [->|N]|].
    + repeat eexists.
    + apply same_effect_refl; [|apply V1_join_answers].
      unfold V1.post_participants, V3.post_participants.
      cbn [header]. rewrite (name_required_ok s N). cbn [has_error].
      apply String.eqb_neq in N. unfold try_catch. cbn [truthy]. now rewrite N.
    + repeat eexists.
  - destruct who as [s|]; [destruct (String.eqb_spec s "") as [->|N]|].
    + repeat eexists.
    + apply same_effect_refl.
      * unfold V1.post_status, V3.post_status.
        cbn [header]. rewrite (user_required_ok s N). cbn [has_error].
        apply String.eqb_neq in N. unfold try_catch. cbn [truthy]. now rewrite N.
      * destruct (V1_status_answers (VStr s) now w) as [r [w' [E _]]]. eauto.
    + repeat eexists.
  - intro H.
    destruct (negb (is_string to) || value_eqb to (VStr "")
              || negb (is_string text) || value_eqb text (VStr "")) eqn:C.
    { destruct (V1_refuses (header who) to text type currentTime w) as [r [E S]].
      - apply V3_unchecked in C. tauto.
      - exists r, (sendStatus 422), w, w. split; [exact E|].
        unfold V3.post_messages, try_catch. rewrite C.
        split; [reflexivity|]. split; [exact S|reflexivity]. }
    destruct (negb (value_eqb type (VStr "message"))
              && negb (value_eqb type (VStr "private_message"))) eqn:D.
    { destruct (V1_refuses (header who) to text type currentTime w) as [r [E S]].
      - right; right; right. apply andb_true_iff in D. destruct D as [D1 D2].
        apply negb_true_iff in D1, D2. now apply value_eqb_neq in D1, D2.
      - exists r, (sendStatus 422), w, w. split; [exact E|].
        unfold V3.post_messages, try_catch. rewrite C, D.
        split; [reflexivity|]. split; [exact S|reflexivity]. }
    destruct (V3_checked to text type C D) as [R [X Y]].
    assert (U : nonempty_string (header who)).
    { destruct H as [U|[B|[B|[B1 B2]]]]; [exact U|contradiction|contradiction|].
      destruct Y; contradiction. }
    apply same_effect_refl.
    + unfold V1.post_messages, V3.post_messages.
      rewrite (message_valid _ _ _ _ U R X Y). cbn [has_error].
      unfold try_catch. now rewrite C, D.
    + destruct (V1_post_answers (header who) to text type currentTime w)
        as [r [w' [E _]]]. eauto.
Qed.

Lemma third_iteration_checks_as_the_first_witness :
  same_effect
    (V1.post_messages (header (Some "alice")) (VStr "bob") (VStr "oi")
       (VStr "private_message") "10:00:03")
    (V3.post_messages (header (Some "alice")) (VStr "bob") (VStr "oi")
       (VStr "private_message") "10:00:03")
    (boot (play V1.serve alice_and_bob_join empty_db)
       [None; Some (Error "connection closed")]).
Proof.
  apply (third_iteration_checks_as_the_first (Some "alice") (VStr "bob") (VStr "oi")
           (VStr "private_message") 3000 "10:00:03"
           (boot (play V1.serve alice_and_bob_join empty_db)
              [None; Some (Error "connection closed")])).
  left. exists "alice". split; [reflexivity|discriminate].
Defined.

(** ** The answers of the handlers *)

Ltac answered :=
  eexists; eexists; (split; [reflexivity|]); cbn; tauto.

Lemma V1_join_within (name : value) (now : Z) (currentTime : string) :
  answers_within (V1.post_participants name now currentTime) [201; 409; 422; 500].
Proof.
  intros [d fs k out]. unfold V1.post_participants.
  destruct (has_error (validate V1.nameSchema [("name", name)])); [answered|].
  run. fates; try destruct (List.find _ (participants d)); cbn -[matches]; fates;
    answered.
Qed.

Lemma V3_join_within (name : value) (now : Z) (currentTime : string) :
  answers_within (V3.post_participants name now currentTime) [201; 409; 422; 500].
Proof.
  intros [d fs k out]. unfold V3.post_participants.
  destruct (truthy name); run; [|answered].
  fates; try destruct (List.find _ (participants d)); cbn -[matches]; fates;
    answered.
Qed.

Lemma V1_post_within (user to text type : value) (currentTime : string) :
  answers_within (V1.post_messages user to text type currentTime) [201; 422; 500].
Proof.
  intros [d fs k out]. unfold V1.post_messages.
  destruct (has_error (validate V1.messageSchema _)); [answered|].
  run. fates; try destruct (List.find _ (participants d)); cbn -[matches]; fates;
    answered.
Qed.

Lemma V3_post_within (user to text type : value) (currentTime : string) :
  answers_within (V3.post_messages user to text type currentTime) [201; 422; 500].
Proof.
  intros [d fs k out]. unfold V3.post_messages.
  destruct (negb (is_string to) || value_eqb to (VStr "")
            || negb (is_string text) || value_eqb text (VStr ""));
    run; [answered|].
  destruct (negb (value_eqb type (VStr "message"))
            && negb (value_eqb type (VStr "private_message"))); run; [answered|].
  fates; try destruct (List.find _ (participants d)); cbn -[matches]; fates;
    answered.
Qed.

Lemma V1_query_within (user : value) (limit : number) :
  answers_within (V1.get_messages user limit) [200; 422; 500].
Proof.
  intros [d fs k out]. unfold V1.get_messages.
  destruct (isNaN limit || le0 limit); run; [answered|]. fates; answered.
Qed.

Lemma V3_query_within (user : value) (limit : number) :
  answers_within (V3.get_messages user limit) [200; 422; 500].
Proof.
  intros [d fs k out]. unfold V3.get_messages.
  destruct (isNaN limit || le0 limit); run; [answered|]. fates; answered.
Qed.

Lemma V1_status_within (user : value) (now : Z) :
  answers_within (V1.post_status user now) [200; 404; 500].
Proof.
  intros [d fs k out]. unfold V1.post_status.
  destruct (has_error (validate V1.userSchema [("user", user)])); [answered|].
  run. fates; try destruct (List.find _ (participants d)); cbn -[matches]; fates;
    answered.
Qed.

Lemma V3_status_within (user : value) (now : Z) :
  answers_within (V3.post_status user now) [200; 404; 500].
Proof.
  intros [d fs k out]. unfold V3.post_status.
  destruct (truthy user); run; [|answered].
  fates; try destruct (List.find _ (participants d)); cbn -[matches]; fates;
    answered.
Qed.

Lemma V2_delete_within (user : value) (id : V2.id_param) :
  answers_within (V2.delete_messages user id) [204; 401; 404; 500].
Proof.
  intros [d fs k out]. unfold V2.delete_messages, V2.new_ObjectId.
  destruct id as [n|e]; run; [|answered].
  fates; try destruct (List.find _ (messages d)) as [m|]; cbn -[matches];
    try destruct (value_eqb (from (fields m)) user); cbn -[matches]; fates;
    answered.
Qed.

(** X19.  Every handler of the first and third iterations returns an
    answer, whatever the request and whatever fails in the store: an
    exception of a store operation is caught and answered with 500.  The
    statuses are 201, 409, 422, 500 for a join; 201, 422, 500 for a
    post; 200, 422, 500 for a query; 200, 404, 500 for a heartbeat; and
    204, 401, 404, 500 for the delete of the second iteration. *)
Theorem handlers_always_answer
  (name user to text type : value) (limit : number) (id : V2.id_param)
  (now : Z) (currentTime : string) :
  answers_within (V1.post_participants name now currentTime) [201; 409; 422; 500]
  /\ answers_within (V3.post_participants name now currentTime) [201; 409; 422; 500]
  /\ answers_within (V1.post_messages user to text type currentTime) [201; 422; 500]
  /\ answers_within (V3.post_messages user to text type currentTime) [201; 422; 500]
  /\ answers_within (V1.get_messages user limit) [200; 422; 500]
  /\ answers_within (V3.get_messages user limit) [200; 422; 500]
  /\ answers_within (V1.post_status user now) [200; 404; 500]
  /\ answers_within (V3.post_status user now) [200; 404; 500]
  /\ answers_within (V2.delete_messages user id) [204; 401; 404; 500].
Proof.
  repeat split.
  - apply V1_join_within.
  - apply V3_join_within.
  - apply V1_post_within.
  - apply V3_post_within.
  - apply V1_query_within.
  - apply V3_query_within.
  - apply V1_status_within.
  - apply V3_status_within.
  - apply V2_delete_within.
Qed.

(** ** The second iteration: cleaned fields *)

Lemma name_trim_ok (s : string) :
  trim s <> "" -> validate V2.nameSchema [("name", VStr s)] = [].
Proof.
  intro N. apply String.eqb_neq in N.
  unfold validate. cbn -[trim]. rewrite N. reflexivity.
Qed.

Lemma user_trim_ok (s : string) :
  trim s <> "" -> validate V2.userSchema [("user", VStr s)] = [].
Proof.
  intro N. apply String.eqb_neq in N.
  unfold validate. cbn -[trim]. rewrite N. reflexivity.
Qed.

Lemma message_trim_ok (u t x ty : string) :
  trim u <> "" -> trim t <> "" -> trim x <> "" ->
  ty = "message" \/ ty = "private_message" ->
  validate V2.messageSchema
    [("user", VStr u); ("to", VStr t); ("text", VStr x); ("type", VStr ty)] = [].
Proof.
  intros U T X Y. apply String.eqb_neq in U, T, X.
  unfold validate. cbn -[trim]. rewrite U, T, X.
  destruct Y as [->| ->]; reflexivity.
Qed.

Section Cleaned.

Variable stripHtml : value -> outcome string.

Lemma V2_join_clean (s c : string) (now : Z) (currentTime : string) (w : world) :
  stripHtml (VStr s) = Done c ->
  trim s <> "" ->
  faults w = [] ->
  V2.post_participants stripHtml (VStr s) now currentTime w =
    match List.find (matches (Field "name" (EQ (VStr c)))) (participants (store w)) with
    | Some _ =>
        (Done (sendStatus 409),
         {| store := store w; faults := []; ops := S (ops w); console := console w |})
    | None =>
        (Done (sendStatus 201),
         {| store :=
              {| participants :=
                   participants (store w)
                   ++ [{| _id := next_id (store w);
                          fields := {| name := VStr c; lastStatus := VNum now |} |}];
                 messages :=
                   messages (store w)
                   ++ [{| _id := S (next_id (store w));
                          fields := entered_the_room (VStr c) currentTime |}];
                 next_id := S (S (next_id (store w))) |};
            faults := []; ops := 3 + ops w; console := console w |})
    end.
Proof.
  intros C N calm. destruct w as [d fs k out]. simpl in calm. subst fs.
  unfold V2.post_participants, V2.clean, bind at 1. rewrite C.
  rewrite (name_trim_ok s N). run.
  destruct (List.find _ (participants d)); reflexivity.
Qed.

End Cleaned.

(** X20.  The join of the second iteration validates the name as sent
    and registers the name as cleaned.  When the cleaning returns, the
    name sent has a character that is no space and no store operation
    fails: the join answers 201 and registers the cleaned name, with a
    notice from it, if the cleaned name is not registered, and 409
    otherwise, whatever the name sent.  The cleaned name itself is not
    validated: it may be empty. *)
Theorem second_iteration_registers_the_cleaned_name
  (stripHtml : value -> outcome string)
  (s c : string) (now : Z) (currentTime : string) (w : world) :
  stripHtml (VStr s) = Done c ->
  trim s <> "" ->
  faults w = [] ->
  (~ registered (VStr c) (store w) ->
   exists w',
     V2.post_participants stripHtml (VStr s) now currentTime w
       = (Done (sendStatus 201), w')
     /\ participants (store w') =
          participants (store w)
          ++ [{| _id := next_id (store w);
                 fields := {| name := VStr c; lastStatus := VNum now |} |}]
     /\ messages (store w') =
          messages (store w)
          ++ [{| _id := S (next_id (store w));
                 fields := {| from := VStr c; to := VStr "Todos";
                              text := VStr "entra na sala..."; type := VStr "status";
                              time := VStr currentTime |} |}])
  /\ (registered (VStr c) (store w) ->
      exists w',
        V2.post_participants stripHtml (VStr s) now currentTime w
          = (Done (sendStatus 409), w')
        /\ store w' = store w).
Proof.
  intros C N calm. rewrite (V2_join_clean stripHtml s c now currentTime w C N calm).
  split.
  - intro U. rewrite (unregistered_not_found (VStr c) _ U).
    eexists. split; [reflexivity|]. split; reflexivity.
  - intro K. destruct (registered_found (VStr c) _ K) as [p F]. rewrite F.
    eexists. split; reflexivity.
Qed.

Lemma second_iteration_registers_the_cleaned_name_witness :
  (exists w',
     V2.post_participants strip_bold (VStr "<b>ana</b>") 1000 "10:00:00"
       (boot empty_db []) = (Done (sendStatus 201), w')
     /\ participants (store w') =
          [{| _id := 0; fields := {| name := VStr "ana"; lastStatus := VNum 1000 |} |}])
  /\ (exists w',
     V2.post_participants strip_bold (VStr "<b></b>") 1000 "10:00:00"
       (boot empty_db []) = (Done (sendStatus 201), w')
     /\ participants (store w') =
          [{| _id := 0; fields := {| name := VStr ""; lastStatus := VNum 1000 |} |}]).
Proof.
  split.
  - destruct (second_iteration_registers_the_cleaned_name strip_bold
                "<b>ana</b>" "ana" 1000 "10:00:00" (boot empty_db []))
      as [J _]; try reflexivity; try discriminate.
    destruct J as [w' [E [P _]]]; [intros [p [[] _]]|].
    exists w'. split; [exact E|exact P].
  - destruct (second_iteration_registers_the_cleaned_name strip_bold
                "<b></b>" "" 1000 "10:00:00" (boot empty_db []))
      as [J _]; try reflexivity; try discriminate.
    destruct J as [w' [E [P _]]]; [intros [p [[] _]]|].
    exists w'. split; [exact E|exact P].
Defined.

Lemma V2_post_clean (stripHtml : value -> outcome string)
  (u t x ty cu ct cx cty currentTime : string) (w : world) :
  stripHtml (VStr u) = Done cu -> stripHtml (VStr t) = Done ct ->
  stripHtml (VStr x) = Done cx -> stripHtml (VStr ty) = Done cty ->
  trim u <> "" -> trim t <> "" -> trim x <> "" ->
  ty = "message" \/ ty = "private_message" ->
  faults w = [] ->
  V2.post_messages stripHtml (VStr u) (VStr t) (VStr x) (VStr ty) currentTime w =
    match List.find (matches (Field "name" (EQ (VStr cu)))) (participants (store w)) with
    | None =>
        (Done (sendStatus 422),
         {| store := store w; faults := []; ops := S (ops w); console := console w |})
    | Some _ =>
        (Done (sendStatus 201),
         {| store :=
              {| participants := participants (store w);
                 messages :=
                   messages (store w)
                   ++ [{| _id := next_id (store w);
                          fields := post_of (VStr cu) (VStr ct) (VStr cx) (VStr cty)
                                      currentTime |}];
                 next_id := S (next_id (store w)) |};
            faults := []; ops := 2 + ops w; console := console w |})
    end.
Proof.
  intros Cu Ct Cx Cty U T X Y calm.
  destruct w as [d fs k out]. simpl in calm. subst fs.
  unfold V2.post_messages, V2.clean, bind. rewrite Cu, Ct, Cx, Cty.
  rewrite (message_trim_ok u t x ty U T X Y). cbn [has_error].
  fold (@bind (option (doc participant)) response).
  run. destruct (List.find _ (participants d)); reflexivity.
Qed.

(** X21.  The post of the second iteration validates the fields as sent
    and stores them as cleaned.  When the cleaning of the four fields
    returns, the fields sent are valid and no store operation fails: the
    post answers 201 and appends the message made of the cleaned user,
    to, text and type if the cleaned user is registered, and answers 422
    with an unchanged store otherwise. *)
Theorem second_iteration_stores_the_cleaned_message
  (stripHtml : value -> outcome string)
  (u t x ty cu ct cx cty currentTime : string) (w : world) :
  stripHtml (VStr u) = Done cu -> stripHtml (VStr t) = Done ct ->
  stripHtml (VStr x) = Done cx -> stripHtml (VStr ty) = Done cty ->
  trim u <> "" -> trim t <> "" -> trim x <> "" ->
  ty = "message" \/ ty = "private_message" ->
  faults w = [] ->
  (registered (VStr cu) (store w) ->
   exists w',
     V2.post_messages stripHtml (VStr u) (VStr t) (VStr x) (VStr ty) currentTime w
       = (Done (sendStatus 201), w')
     /\ participants (store w') = participants (store w)
     /\ messages (store w') =
          messages (store w)
          ++ [{| _id := next_id (store w);
                 fields := {| from := VStr cu; to := VStr ct; text := VStr cx;
                              type := VStr cty; time := VStr currentTime |} |}])
  /\ (~ registered (VStr cu) (store w) ->
      exists w',
        V2.post_messages stripHtml (VStr u) (VStr t) (VStr x) (VStr ty) currentTime w
          = (Done (sendStatus 422), w')
        /\ store w' = store w).
Proof.
  intros Cu Ct Cx Cty U T X Y calm.
  rewrite (V2_post_clean stripHtml u t x ty cu ct cx cty currentTime w
             Cu Ct Cx Cty U T X Y calm).
  split.
  - intro K. destruct (registered_found (VStr cu) _ K) as [p F]. rewrite F.
    eexists. split; [reflexivity|]. split; reflexivity.
  - intro N. rewrite (unregistered_not_found (VStr cu) _ N).
    eexists. split; reflexivity.
Qed.

Lemma second_iteration_stores_the_cleaned_message_witness :
  exists w',
    V2.post_messages strip_bold (VStr "<b>ana</b>") (VStr "Todos") (VStr "oi")
      (VStr "message") "10:00:02"
      (boot {| participants :=
                 [{| _id := 0;
                     fields := {| name := VStr "ana"; lastStatus := VNum 1000 |} |}];
               messages := []; next_id := 1 |} [])
      = (Done (sendStatus 201), w')
    /\ messages (store w') =
         [{| _id := 1;
             fields := {| from := VStr "ana"; to := VStr "Todos"; text := VStr "oi";
                          type := VStr "message"; time := VStr "10:00:02" |} |}].
Proof.
  destruct (second_iteration_stores_the_cleaned_message strip_bold
              "<b>ana</b>" "Todos" "oi" "message" "ana" "Todos" "oi" "message"
              "10:00:02"
              (boot {| participants :=
                         [{| _id := 0;
                             fields := {| name := VStr "ana";
                                          lastStatus := VNum 1000 |} |}];
                       messages := []; next_id := 1 |} []))
    as [P _]; try reflexivity; try discriminate.
  - now left.
  - destruct P as [w' [E [_ M]]].
    + eexists. split; [left; reflexivity|reflexivity].
    + exists w'. split; [exact E|exact M].
Defined.

(** X22.  In the second iteration the fields are cleaned before the
    validation and outside the [try]: when the cleaning of the name, or
    of one of the four fields of a message, throws, the handler throws
    and sends no answer, not even the 422 of the validation, and the
    world is as it was. *)
Theorem second_iteration_throws_when_the_cleaning_throws
  (stripHtml : value -> outcome string)
  (name user to text type : value) (now : Z) (currentTime : string) (w : world) :
  ((exists e, stripHtml name = Throw e) ->
   exists e, V2.post_participants stripHtml name now currentTime w = (Throw e, w))
  /\ ((exists e, stripHtml user = Throw e) \/ (exists e, stripHtml to = Throw e)
      \/ (exists e, stripHtml text = Throw e) \/ (exists e, stripHtml type = Throw e) ->
      exists e,
        V2.post_messages stripHtml user to text type currentTime w = (Throw e, w)).
Proof.
  split.
  - intros [e E]. exists e. unfold V2.post_participants, V2.clean, bind.
    now rewrite E.
  - intro T. unfold V2.post_messages, V2.clean, bind.
    destruct (stripHtml user) as [cu|eu]; [|now exists eu].
    destruct (stripHtml to) as [ct|et]; [|now exists et].
    destruct (stripHtml text) as [cx|ex]; [|now exists ex].
    destruct (stripHtml type) as [cty|ety]; [|now exists ety].
    destruct T as [[e E]|[[e E]|[[e E]|[e E]]]]; discriminate.
Qed.

Lemma second_iteration_throws_when_the_cleaning_throws_witness :
  exists e,
    V2.post_participants strip_bold VUndefined 1000 "10:00:00" (boot empty_db [])
      = (Throw e, boot empty_db []).
Proof.
  apply (proj1 (second_iteration_throws_when_the_cleaning_throws strip_bold
           VUndefined VUndefined VUndefined VUndefined VUndefined 1000 "10:00:00"
           (boot empty_db []))).
  eexists. reflexivity.
Defined.

Lemma V2_heartbeat_unknown (user : value) (now : Z) (w : world) :
  faults w = [] ->
  ~ registered (bson user) (store w) ->
  exists r w', V2.post_status user now w = (Done r, w')
               /\ status r = 404 /\ store w' = store w.
Proof.
  intros calm unknown. destruct w as [d fs k out]. simpl in calm. subst fs.
  unfold V2.post_status.
  destruct (has_error (validate V2.userSchema [("user", user)])).
  - eexists; eexists. split; [reflexivity|]. split; reflexivity.
  - run. rewrite (unregistered_not_found user d unknown).
    eexists; eexists. split; [reflexivity|]. split; reflexivity.
Qed.

Lemma V2_heartbeat_known (u : string) (now : Z) (w : world) :
  faults w = [] -> trim u <> "" -> registered (VStr u) (store w) ->
  exists w', V2.post_status (VStr u) now w = (Done (sendStatus 200), w')
             /\ registered (VStr u) (store w').
Proof.
  intros calm nonempty known. destruct w as [d fs k out]. simpl in calm. subst fs.
  cbn [store] in *.
  destruct (heartbeat_update u now d known) as [before [p [after [L [E [N [F U]]]]]]].
  unfold V2.post_status. rewrite (user_trim_ok u nonempty).
  run. rewrite F. cbn -[matches]. eexists. split; [reflexivity|].
  cbn -[matches]. rewrite U. eexists. split; [apply in_or_app; right; now left|].
  reflexivity.
Qed.

(** X23.  In the second iteration the join registers the cleaned name
    and the heartbeat looks up the name as the header has it.  When the
    cleaning changes the name sent, neither the name sent nor the
    cleaned one is registered and no store operation fails: the join
    answers 201, a heartbeat under the name sent then answers 404, and a
    heartbeat under the cleaned name answers 200 (if it has a character
    that is no space). *)
Theorem second_iteration_heartbeat_wants_the_cleaned_name
  (stripHtml : value -> outcome string)
  (s c : string) (now t : Z) (currentTime : string) (w : world) :
  stripHtml (VStr s) = Done c ->
  c <> s ->
  trim s <> "" ->
  faults w = [] ->
  ~ registered (VStr c) (store w) ->
  ~ registered (VStr s) (store w) ->
  exists w1,
    V2.post_participants stripHtml (VStr s) now currentTime w
      = (Done (sendStatus 201), w1)
    /\ (exists r w2, V2.post_status (VStr s) t w1 = (Done r, w2)
                     /\ status r = 404 /\ store w2 = store w1)
    /\ (trim c <> "" ->
        exists w2, V2.post_status (VStr c) t w1 = (Done (sendStatus 200), w2)).
Proof.
  intros C D N calm Uc Us.
  rewrite (V2_join_clean stripHtml s c now currentTime w C N calm).
  rewrite (unregistered_not_found (VStr c) _ Uc).
  eexists. split; [reflexivity|]. split.
  - apply V2_heartbeat_unknown; [reflexivity|].
    cbn [store participants bson]. intros [p [I E]]. apply in_app_or in I.
    destruct I as [I|[<-|[]]].
    + apply Us. now exists p.
    + cbn in E. congruence.
  - intro T. destruct (V2_heartbeat_known c t
      {| store :=
           {| participants :=
                participants (store w)
                ++ [{| _id := next_id (store w);
                       fields := {| name := VStr c; lastStatus := VNum now |} |}];
              messages :=
                messages (store w)
                ++ [{| _id := S (next_id (store w));
                       fields := entered_the_room (VStr c) currentTime |}];
              next_id := S (S (next_id (store w))) |};
         faults := []; ops := 3 + ops w; console := console w |})
      as [w2 [E _]]; try reflexivity; try assumption.
    + eexists. split; [apply in_or_app; right; left; reflexivity|reflexivity].
    + now exists w2.
Qed.

Lemma second_iteration_heartbeat_wants_the_cleaned_name_witness :
  exists w1,
    V2.post_participants strip_bold (VStr "<b>ana</b>") 1000 "10:00:00"
      (boot empty_db []) = (Done (sendStatus 201), w1)
    /\ (exists r w2, V2.post_status (VStr "<b>ana</b>") 2000 w1 = (Done r, w2)
                     /\ status r = 404)
    /\ (exists w2, V2.post_status (VStr "ana") 2000 w1 = (Done (sendStatus 200), w2)).
Proof.
  destruct (second_iteration_heartbeat_wants_the_cleaned_name strip_bold
              "<b>ana</b>" "ana" 1000 2000 "10:00:00" (boot empty_db []))
    as [w1 [J [[r [w2 [E [S _]]]] K]]];
    try reflexivity; try discriminate; try (intros [p [[] _]]).
  exists w1. split; [exact J|]. split.
  - exists r, w2. split; assumption.
  - apply K. discriminate.
Defined.

(** ** From a post to a query *)

(** X24.  In the first iteration, when no store operation fails: after a
    post by a registered sender [u] to [t], a query of any viewer with a
    limit that covers the board answers with the new message exactly
    when its type is message, or the sender is named Todos, or the
    viewer is one of [u] and [t] and not the other.  A public message
    reaches everyone; a private one reaches its sender and its
    recipient, and nobody when the two are the same (unless the sender
    is Todos). *)
Theorem posted_message_reaches_its_audience
  (u t x ty viewer currentTime : string) (z : Z) (w : world) :
  u <> "" -> t <> "" -> x <> "" ->
  ty = "message" \/ ty = "private_message" ->
  faults w = [] ->
  registered (VStr u) (store w) ->
  (Z.of_nat (List.length (messages (store w))) < z)%Z ->
  exists w1 ms w2,
    V1.post_messages (VStr u) (VStr t) (VStr x) (VStr ty) currentTime w
      = (Done (sendStatus 201), w1)
    /\ V1.get_messages (VStr viewer) (Int z) w1 = (Done (send 200 (Messages ms)), w2)
    /\ (In {| _id := next_id (store w);
              fields := {| from := VStr u; to := VStr t; text := VStr x;
                           type := VStr ty; time := VStr currentTime |} |} ms
        <-> ty = "message" \/ u = "Todos"
            \/ (viewer = u /\ viewer <> t) \/ (viewer <> u /\ viewer = t)).
Proof.
  intros U T X Y calm known Z.
  rewrite (V1_post_stored u t x ty currentTime w U T X Y calm known).
  eexists. eexists. eexists. split; [reflexivity|].
  rewrite V1_query_calm by (try reflexivity; lia). split; [reflexivity|].
  cbn [store messages]. rewrite firstn_all2.
  2:{ etransitivity; [apply filter_length_le|]. rewrite length_app. simpl. lia. }
  rewrite filter_In, V1_visible_iff. unfold shown, direct, post_of. cbn.
  split.
  - intros [_ [S|[P|[F|[D [[F R]|[F R]]]]]]].
    + destruct Y as [->| ->]; discriminate.
    + left. congruence.
    + right; left. congruence.
    + right; right; left. split; congruence.
    + right; right; right. split; congruence.
  - intro A. split; [apply in_or_app; right; now left|].
    destruct A as [->|[->|[[-> N]|[N ->]]]]; auto.
    + destruct Y as [->| ->]; auto.
      right; right; right. split; [reflexivity|].
      left. split; [reflexivity|congruence].
    + destruct Y as [->| ->]; auto.
      right; right; right. split; [reflexivity|].
      right. split; [congruence|reflexivity].
Qed.

Lemma posted_message_reaches_its_audience_witness :
  exists w1 ms w2,
    V1.post_messages (VStr "alice") (VStr "bob") (VStr "oi") (VStr "private_message")
      "10:00:03" (boot (play V1.serve alice_and_bob_join empty_db) [])
      = (Done (sendStatus 201), w1)
    /\ V1.get_messages (VStr "carol") (Int 10) w1 = (Done (send 200 (Messages ms)), w2)
    /\ ~ In (private_message 4 "alice" "bob" "oi" "10:00:03") ms.
Proof.
  destruct (posted_message_reaches_its_audience "alice" "bob" "oi" "private_message"
              "carol" "10:00:03" 10
              (boot (play V1.serve alice_and_bob_join empty_db) []))
    as [w1 [ms [w2 [P [Q A]]]]]; try discriminate; try reflexivity.
  - now right.
  - eexists. split; [left; reflexivity|reflexivity].
  - exists w1, ms, w2. split; [exact P|]. split; [exact Q|].
    intro I. apply A in I.
    destruct I as [I|[I|[[I _]|[_ I]]]]; discriminate.
Defined.
